(** * vuex-webextensions: the store synchronisation protocol

    A shallow embedding of [src/backgroundScript.js] (the hub, class
    [BackgroundScript]) and [src/contentScript.js] (the peer, class
    [ContentScript]), and the properties of the protocol they implement.

    JavaScript objects that are mutated in place become explicit state:
    every method is a computation in a small state-and-exception monad,
    so that a [postMessage] that throws leaves the fields written before
    the throw as they are, exactly as in the source.  [Logger] calls have
    no effect on the protocol and are left out. *)

From stdpp Require Import base list strings pretty.
From Stdlib Require Import ZArith Ascii.

Set Default Proof Using "Type".
Open Scope string_scope.
Open Scope list_scope.

(** ** Computations with state and exceptions *)

Inductive Exn := TransportError.

Inductive outcome (A : Type) :=
  | Returned (a : A)
  | Thrown (e : Exn)
  | OutOfFuel.
Arguments Returned {A} a.
Arguments Thrown {A} e.
Arguments OutOfFuel {A}.

Definition Eff (S A : Type) : Type := S -> outcome A * S.

Definition ret {S A} (a : A) : Eff S A := fun s => (Returned a, s).

Definition bind {S A B} (c : Eff S A) (k : A -> Eff S B) : Eff S B :=
  fun s =>
    match c s with
    | (Returned a, s') => k a s'
    | (Thrown e, s') => (Thrown e, s')
    | (OutOfFuel, s') => (OutOfFuel, s')
    end.

Definition throw {S A} (e : Exn) : Eff S A := fun s => (Thrown e, s).

Definition diverge {S A} : Eff S A := fun s => (OutOfFuel, s).

(** [try { c } catch (err) { h err }] *)
Definition try_catch {S A} (c : Eff S A) (h : Exn -> Eff S A) : Eff S A :=
  fun s =>
    match c s with
    | (Thrown e, s') => h e s'
    | r => r
    end.

Definition gets {S A} (f : S -> A) : Eff S A := fun s => (Returned (f s), s).

Definition modify {S} (f : S -> S) : Eff S unit := fun s => (Returned tt, f s).

Notation "x <- c1 ;; c2" := (bind c1 (fun x => c2))
  (at level 100, c1 at next level, right associativity).
Notation "c1 ;; c2" := (bind c1 (fun _ => c2))
  (at level 100, right associativity).

(** [array.forEach(callback)] *)
Fixpoint forEach {S A} (l : list A) (callback : A -> Eff S unit) : Eff S unit :=
  match l with
  | [] => ret tt
  | x :: rest => callback x ;; forEach rest callback
  end.

(** ** The collaborators outside the repository's two classes

    JavaScript values (mutation payloads, the store's state tree), the
    built-in [JSON.stringify], the helper [filterObject] imported from
    [./utils], and the mutation and action handlers of the application's
    store are not part of the two classes.  They are the fields of
    [Runtime]; the development holds for every instance. *)

Class Runtime := {
  Value : Type;
  (** [JSON.stringify]; [None] is JavaScript's [undefined] *)
  JSON_stringify : Value -> option string;
  (** [filterObject(source, keys)] of [./utils] *)
  filterObject : Value -> list string -> Value;
  (** the store's handler of the mutation [type]: payload, old state, new state *)
  mutationHandler : string -> Value -> Value -> Value;
  (** the store's handler of the action [type], [None] when the store has
      no action of that type: from the payload and the state, the
      mutations [(type, payload)] that the handler commits before
      [dispatch] returns (what it commits later, the store sees as
      commits of their own) *)
  actionHandler : string -> option (Value -> Value -> list (string * Value));
  (** [payload instanceof Event] *)
  instanceofEvent : Value -> bool;
  null : Value;
  (** the payload the store hands its action subscribers when [dispatch]
      is called with one object [{type, payload}] *)
  objectStylePayload : string -> Value -> Value;
  (** whether the store has [subscribeAction] (Vuex 2.5.0 or later); the
      constructors catch the exception of calling it when it is missing *)
  hasSubscribeAction : bool;
  (** the object spread [{...a, ...b}] *)
  spread : Value -> Value -> Value
}.

Section Shared.
Context {RT : Runtime}.

(** A mutation or an action: [{type, payload}]. *)
Record ChangeRecord := { type : string; payload : Value }.

(** [settings] *)
Record Settings := {
  connectionName : string;
  syncActions : bool;
  ignoredMutations : list string;
  ignoredActions : list string;
  persistentStates : list string
}.

Definition withConnectionName (cn : string) (s : Settings) : Settings :=
  {| connectionName := cn; syncActions := syncActions s;
     ignoredMutations := ignoredMutations s; ignoredActions := ignoredActions s;
     persistentStates := persistentStates s |}.

(** The envelopes [{type, data}] of the channel.  [NoType] is a message
    whose [type] is missing (or falsy), [OtherType] one with a [type] the
    protocol does not know. *)
Inductive Message :=
  | NoType
  | SyncState (data : Value)
  | SyncMutation (data : ChangeRecord)
  | SyncAction (data : ChangeRecord)
  | OtherType (ty : string).

(** Modelled from the spec: the transport's connection handle, of which
    the repository only has the callers.  [postMessage(envelope)] may
    throw; here it throws when the port is disconnected and otherwise
    puts the envelope on the wire. *)
Record Port := { disconnected : bool; outbox : list Message }.

Definition Port_postMessage (msg : Message) (p : Port) : outcome unit * Port :=
  if disconnected p then (Thrown TransportError, p)
  else (Returned tt, {| disconnected := disconnected p; outbox := outbox p ++ [msg] |}).

(** How [store.dispatch] was called. *)
Inductive DispatchCall :=
  | DispatchObject (action : ChangeRecord)
  | DispatchTypePayload (ty : string) (pl : Value).

(** Modelled from the spec: the observable store, of which the repository
    only has the callers.  [commit(type, payload)] runs the handler of
    the mutation on the state, the reserved type [vweReplaceState]
    overwriting the whole state tree with the payload.  An action is an
    intent that the store resolves into zero or more mutations: its
    handler changes the state by the commits it makes and in no other
    way.  [commits] and [dispatches] record the calls made. *)
Record Store := {
  state : Value;
  commits : list (string * Value);
  dispatches : list DispatchCall
}.

Definition vweReplaceState : string := "vweReplaceState".

Definition Store_apply (ty : string) (pl : Value) (st : Value) : Value :=
  if bool_decide (ty = vweReplaceState) then pl else mutationHandler ty pl st.

Definition Store_commit (ty : string) (pl : Value) (s : Store) : Store :=
  {| state := Store_apply ty pl (state s);
     commits := commits s ++ [(ty, pl)];
     dispatches := dispatches s |}.

(** The call of [dispatch] is recorded.  What the action does to the
    state it does through [commit], see [dispatch] in either class. *)
Definition Store_recordDispatch (call : DispatchCall) (s : Store) : Store :=
  {| state := state s;
     commits := commits s;
     dispatches := dispatches s ++ [call] |}.

(** The arguments of the ordinary commit of a mutation. *)
Definition commitArgs (m : ChangeRecord) : string * Value := (type m, payload m).

(** The store after it committed the mutations of a list, in order. *)
Definition commitAll (ms : list ChangeRecord) (s : Store) : Store :=
  foldl (fun s m => Store_commit (type m) (payload m) s) s ms.

(** The action the store hands its subscribers for a call of [dispatch]. *)
Definition dispatchedAction (call : DispatchCall) : ChangeRecord :=
  match call with
  | DispatchTypePayload ty pl => {| type := ty; payload := pl |}
  | DispatchObject a =>
      {| type := type a; payload := objectStylePayload (type a) (payload a) |}
  end.

(** The store when a call of [dispatch] has returned: the call is
    recorded and the handler of the action, if the store has one, has
    committed its mutations. *)
Definition Store_handled (call : DispatchCall) (s : Store) : Store :=
  match actionHandler (type (dispatchedAction call)) with
  | None => Store_recordDispatch call s
  | Some handler =>
      foldl (fun s m => Store_commit m.1 m.2 s) (Store_recordDispatch call s)
        (handler (payload (dispatchedAction call)) (state s))
  end.

(** The action of an action envelope. *)
Definition actionOf (msg : Message) : option ChangeRecord :=
  match msg with
  | SyncAction a => Some a
  | _ => None
  end.

(** [list.length > 0 && list.includes(type)] *)
Definition isIgnored (ignored : list string) (ty : string) : bool :=
  bool_decide (0 < length ignored) && bool_decide (ty ∈ ignored).

(** [a.type === b.type && JSON.stringify(a.payload) === JSON.stringify(b.payload)] *)
Definition sameTypeAndPayload (b a : ChangeRecord) : bool :=
  bool_decide (type a = type b)
  && bool_decide (JSON_stringify (payload a) = JSON_stringify (payload b)).

(** [a.type === b.type] *)
Definition sameType (b a : ChangeRecord) : bool :=
  bool_decide (type a = type b).

(** [string.includes(needle)] *)
Fixpoint includes (needle hay : string) : bool :=
  String.prefix needle hay
  || match hay with
     | EmptyString => false
     | String _ rest => includes needle rest
     end.

(** [array.findIndex(p)]; [None] is the [-1] of JavaScript. *)
Fixpoint findIndex {A} (p : A -> bool) (l : list A) : option nat :=
  match l with
  | [] => None
  | x :: rest => if p x then Some 0 else S <$> findIndex p rest
  end.

(** [for (let j = n - 1; j >= 0; j--) if (p(l[j])) { ...; break; }]:
    the index at which the loop breaks, scanning [l] downwards from
    index [n - 1]. *)
Fixpoint scanDown {A} (p : A -> bool) (l : list A) (n : nat) : option nat :=
  match n with
  | 0 => None
  | S j =>
      match l !! j with
      | Some x => if p x then Some j else scanDown p l j
      | None => scanDown p l j
      end
  end.

End Shared.

(** ** The hub: [src/backgroundScript.js] *)

Module Background.

(** [connection.name].  The hub tests [typeof connection.name !== 'string']
    and compares names with [===], so a name is any JavaScript value.  Of
    the values that are not strings, [NaN] is not [===] to itself; every
    other one ([undefined], [null], a number, an object, ...) is [===] to
    itself only, and [NameOther] numbers these values. *)
Inductive Name :=
  | NameString (s : string)
  | NameNaN
  | NameOther (v : nat).

(** [a === b] *)
Definition strictEquals (a b : Name) : bool :=
  match a, b with
  | NameString s, NameString t => bool_decide (s = t)
  | NameOther v, NameOther w => bool_decide (v = w)
  | _, _ => false
  end.

Section Background.
Context {RT : Runtime}.

(** A connection object as the hub holds it. *)
Record Connection := {
  name : Name;
  receivedMutations : list ChangeRecord;
  receivedActions : list ChangeRecord;
  port : Port
}.

(** The fields of the class.  Connection objects are shared between the
    registry [this.connections] and the listeners that the hub registers
    on them, so they live in [heap] and are named by their index there;
    [connections] holds the handles of the registered ones.  The
    listeners only ever pass handles of objects of [heap]; for any other
    number the methods below leave the hub as it is.
    [savedStates] records the calls of [browser.savePersistentStates]. *)
Record BackgroundScript := {
  store : Store;
  settings : Settings;
  heap : list Connection;
  connections : list nat;
  savedStates : list Value
}.

Definition set_store (f : Store -> Store) (b : BackgroundScript) :=
  {| store := f (store b); settings := settings b; heap := heap b;
     connections := connections b; savedStates := savedStates b |}.

Definition set_settings (f : Settings -> Settings) (b : BackgroundScript) :=
  {| store := store b; settings := f (settings b); heap := heap b;
     connections := connections b; savedStates := savedStates b |}.

Definition set_heap (f : list Connection -> list Connection) (b : BackgroundScript) :=
  {| store := store b; settings := settings b; heap := f (heap b);
     connections := connections b; savedStates := savedStates b |}.

Definition set_connections (f : list nat -> list nat) (b : BackgroundScript) :=
  {| store := store b; settings := settings b; heap := heap b;
     connections := f (connections b); savedStates := savedStates b |}.

Definition set_savedStates (f : list Value -> list Value) (b : BackgroundScript) :=
  {| store := store b; settings := settings b; heap := heap b;
     connections := connections b; savedStates := f (savedStates b) |}.

Definition set_receivedMutations (f : list ChangeRecord -> list ChangeRecord)
    (c : Connection) :=
  {| name := name c; receivedMutations := f (receivedMutations c);
     receivedActions := receivedActions c; port := port c |}.

Definition set_receivedActions (f : list ChangeRecord -> list ChangeRecord)
    (c : Connection) :=
  {| name := name c; receivedMutations := receivedMutations c;
     receivedActions := f (receivedActions c); port := port c |}.

Definition set_port (p : Port) (c : Connection) :=
  {| name := name c; receivedMutations := receivedMutations c;
     receivedActions := receivedActions c; port := p |}.

(** An update in place of the connection object with handle [c]. *)
Definition updateConnection (c : nat) (f : Connection -> Connection)
    (b : BackgroundScript) : BackgroundScript :=
  set_heap (alter f c) b.

(** [connection.postMessage(msg)] *)
Definition postMessage (c : nat) (msg : Message) : Eff BackgroundScript unit :=
  fun b =>
    match heap b !! c with
    | Some connection =>
        let '(r, p) := Port_postMessage msg (port connection) in
        (r, updateConnection c (set_port p) b)
    | None => (Returned tt, b)
    end.

(** [browser.savePersistentStates(datas)] *)
Definition savePersistentStates (datas : Value) : Eff BackgroundScript unit :=
  modify (set_savedStates (fun l => l ++ [datas])).

Definition syncCurrentState (c : nat) : Eff BackgroundScript unit :=
  try_catch
    (st <- gets (fun b => state (store b)) ;;
     postMessage c (SyncState st))
    (fun err => ret tt).

Definition sendMutation (c : nat) (mutation : ChangeRecord) : Eff BackgroundScript unit :=
  try_catch (postMessage c (SyncMutation mutation)) (fun err => ret tt).

Definition sendAction (c : nat) (action : ChangeRecord) : Eff BackgroundScript unit :=
  try_catch (postMessage c (SyncAction action)) (fun err => ret tt).

(** [typeof connection.name !== 'string' ||
     !connection.name.includes('vuex-webextensions')] *)
Definition skipped (connection : Connection) : bool :=
  match name connection with
  | NameString n => negb (includes "vuex-webextensions" n)
  | _ => true
  end.

(** The callback of [this.connections.forEach] in the mutation hook. *)
Definition relayMutation (mutation : ChangeRecord) (c : nat) : Eff BackgroundScript unit :=
  o <- gets (fun b => heap b !! c) ;;
  match o with
  | None => ret tt
  | Some connection =>
      if skipped connection then ret tt
      else
        match scanDown (sameTypeAndPayload mutation) (receivedMutations connection)
                (length (receivedMutations connection)) with
        | Some j => modify (updateConnection c (set_receivedMutations (delete j)))
        | None => sendMutation c mutation
        end
  end.

(** The subscriber of [store.subscribe]. *)
Definition hookMutation (mutation : ChangeRecord) : Eff BackgroundScript unit :=
  s <- gets settings ;;
  if isIgnored (ignoredMutations s) (type mutation) then ret tt
  else
    cs <- gets connections ;;
    forEach cs (relayMutation mutation) ;;
    st <- gets (fun b => state (store b)) ;;
    savePersistentStates (filterObject st (persistentStates s)).

(** The callback of [this.connections.forEach] in the action hook. *)
Definition relayAction (action : ChangeRecord) (c : nat) : Eff BackgroundScript unit :=
  o <- gets (fun b => heap b !! c) ;;
  match o with
  | None => ret tt
  | Some connection =>
      if skipped connection then ret tt
      else
        match scanDown (sameType action) (receivedActions connection)
                (length (receivedActions connection)) with
        | Some j => modify (updateConnection c (set_receivedActions (delete j)))
        | None => sendAction c action
        end
  end.

(** The subscriber of [store.subscribeAction]. *)
Definition hookAction (action : ChangeRecord) : Eff BackgroundScript unit :=
  s <- gets settings ;;
  if isIgnored (ignoredActions s) (type action) then ret tt
  else
    cs <- gets connections ;;
    forEach cs (relayAction action).

(** [this.store.commit(type, payload)]: the store applies the mutation,
    then calls its subscriber before it returns. *)
Definition commit (ty : string) (pl : Value) : Eff BackgroundScript unit :=
  modify (set_store (Store_commit ty pl)) ;;
  hookMutation {| type := ty; payload := pl |}.

(** Modelled from the spec: the handler of an action at work.  It
    commits its mutations, in order, on the state it finds. *)
Definition handlerCommits (handler : Value -> Value -> list (string * Value))
    (pl : Value) : Eff BackgroundScript unit :=
  st <- gets (fun b => state (store b)) ;;
  forEach (handler pl st) (fun m => commit m.1 m.2).

(** Modelled from the spec: [this.store.dispatch(...)].  For a type
    without a handler the store reports an unknown action and returns.
    Otherwise it calls the action subscriber, which the constructor
    registers when [settings.syncActions === true] and the store has
    [subscribeAction], catches what the subscriber throws, and runs the
    handler. *)
Definition dispatch (call : DispatchCall) : Eff BackgroundScript unit :=
  modify (set_store (Store_recordDispatch call)) ;;
  match actionHandler (type (dispatchedAction call)) with
  | None => ret tt
  | Some handler =>
      s <- gets settings ;;
      try_catch
        (if syncActions s && hasSubscribeAction
         then hookAction (dispatchedAction call)
         else ret tt)
        (fun err => ret tt) ;;
      handlerCommits handler (payload (dispatchedAction call))
  end.

(** [onConnection(connection)] for a connection the browser hands over
    with the name [n] and the port [p]; the object gets the next handle. *)
Definition onConnection (n : Name) (p : Port) : Eff BackgroundScript unit :=
  c <- gets (fun b => length (heap b)) ;;
  modify (set_heap (fun h => h ++
    [{| name := n; receivedMutations := []; receivedActions := []; port := p |}])) ;;
  modify (set_connections (fun cs => cs ++ [c])) ;;
  syncCurrentState c.

(** [this.connections[i].name === n], for the handle [d] that the
    registry holds at index [i]. *)
Definition hasName (h : list Connection) (n : Name) (d : nat) : bool :=
  match h !! d with
  | Some connection => strictEquals (name connection) n
  | None => false
  end.

(** The loop of [onDisconnect], from index [i - 1] down to [0]. *)
Fixpoint removeByName (h : list Connection) (n : Name)
    (cs : list nat) (i : nat) : list nat :=
  match i with
  | 0 => cs
  | S j =>
      let cs' :=
        match cs !! j with
        | Some d => if hasName h n d then delete j cs else cs
        | None => cs
        end in
      removeByName h n cs' j
  end.

Definition onDisconnect (c : nat) : Eff BackgroundScript unit :=
  o <- gets (fun b => heap b !! c) ;;
  match o with
  | None => ret tt
  | Some connection =>
      modify (fun b =>
        set_connections (fun cs =>
          removeByName (heap b) (name connection) cs (length cs)) b)
  end.

Definition onMessage (c : nat) (message : Message) : Eff BackgroundScript unit :=
  match message with
  | NoType => ret tt
  | SyncMutation data =>
      modify (updateConnection c (set_receivedMutations (fun l => l ++ [data]))) ;;
      commit (type data) (payload data)
  | SyncAction data =>
      modify (updateConnection c (set_receivedActions (fun l => l ++ [data]))) ;;
      dispatch (DispatchTypePayload (type data) (payload data))
  | _ => ret tt
  end.

(** The fields as the constructor leaves them. *)
Definition new (st : Store) (s : Settings) : BackgroundScript :=
  {| store := st; settings := s; heap := []; connections := [];
     savedStates := [] |}.

(** [for (let i = n - 1; i >= 0; i--) this.syncCurrentState(this.connections[i])] *)
Fixpoint syncAllDown (n : nat) : Eff BackgroundScript unit :=
  match n with
  | 0 => ret tt
  | S i =>
      o <- gets (fun b => connections b !! i) ;;
      match o with
      | Some c => syncCurrentState c
      | None => ret tt
      end ;;
      syncAllDown i
  end.

(** The callback the constructor gives to the promise of
    [browser.getPersistentStates()]; [None] is [null].  The constructor
    asks for the states only when [persistentStates] is not empty. *)
Definition onPersistentStates (saved : option Value) : Eff BackgroundScript unit :=
  s <- gets settings ;;
  if bool_decide (length (persistentStates s) = 0) then ret tt
  else
    match saved with
    | None => ret tt
    | Some savedStates =>
        st <- gets (fun b => state (store b)) ;;
        commit vweReplaceState
          (spread st (filterObject savedStates (persistentStates s))) ;;
        n <- gets (fun b => length (connections b)) ;;
        if bool_decide (0 < n) then syncAllDown n else ret tt
    end.

(** *** The life of a hub

    What can happen to a hub after its construction: the events its
    listeners and its store hand it, and the transport closing a port. *)

Inductive Event :=
  | Connected (n : Name) (p : Port)
  | Disconnected (c : nat)
  | Received (c : nat) (message : Message)
  | Committed (ty : string) (pl : Value)
  | Dispatched (call : DispatchCall)
  | PersistentStatesRead (saved : option Value)
  | PortClosed (c : nat).

Definition closePort (connection : Connection) : Connection :=
  set_port {| disconnected := true; outbox := outbox (port connection) |} connection.

Definition handle (e : Event) : Eff BackgroundScript unit :=
  match e with
  | Connected n p => onConnection n p
  | Disconnected c => onDisconnect c
  | Received c message => onMessage c message
  | Committed ty pl => commit ty pl
  | Dispatched call => dispatch call
  | PersistentStatesRead saved => onPersistentStates saved
  | PortClosed c => modify (updateConnection c closePort)
  end.

Inductive reachable : BackgroundScript -> Prop :=
  | reachable_new (st : Store) (s : Settings) : reachable (new st s)
  | reachable_step (e : Event) (b : BackgroundScript) :
      reachable b -> reachable (handle e b).2.

(** *** Consistency

    The registry names each connection object once, and the records that
    a registered connection with the marker still holds are of ignored
    types: the relay pass of its own commit consumed every other one. *)
Definition consistent (b : BackgroundScript) : Prop :=
  NoDup (connections b) /\
  (forall d, d ∈ connections b -> d < length (heap b)) /\
  (forall d D e,
     d ∈ connections b -> heap b !! d = Some D -> skipped D = false ->
     e ∈ receivedMutations D -> type e ∈ ignoredMutations (settings b)).

(** A connection object that kept its name and received no new mutation
    record, and a hub all of whose connection objects are such. *)
Definition shrunk (D' D : Connection) : Prop :=
  name D' = name D /\ receivedMutations D' ⊆ receivedMutations D.

Definition refines (b' b : BackgroundScript) : Prop :=
  connections b' = connections b /\
  settings b' = settings b /\
  length (heap b') = length (heap b) /\
  forall d D', heap b' !! d = Some D' ->
    exists D, heap b !! d = Some D /\ shrunk D' D.

(** *** What a relay pass leaves behind

    The hub's sends catch their exceptions, so a relay pass always
    returns; these pure functions give the connection object it leaves. *)

Definition posted (msg : Message) (connection : Connection) : Connection :=
  set_port (Port_postMessage msg (port connection)).2 connection.

Definition afterRelayMutation (mutation : ChangeRecord) (connection : Connection)
    : Connection :=
  if skipped connection then connection
  else
    match scanDown (sameTypeAndPayload mutation) (receivedMutations connection)
            (length (receivedMutations connection)) with
    | Some j => set_receivedMutations (delete j) connection
    | None => posted (SyncMutation mutation) connection
    end.

Definition afterRelayAction (action : ChangeRecord) (connection : Connection)
    : Connection :=
  if skipped connection then connection
  else
    match scanDown (sameType action) (receivedActions connection)
            (length (receivedActions connection)) with
    | Some j => set_receivedActions (delete j) connection
    | None => posted (SyncAction action) connection
    end.

Definition updateAll (f : Connection -> Connection) (cs : list nat)
    (b : BackgroundScript) : BackgroundScript :=
  foldl (fun b c => updateConnection c f b) b cs.

(** The hub after its store committed the mutations of a list, in
    order, each commit running the mutation hook. *)
Definition committed (ms : list (string * Value)) (b : BackgroundScript)
    : BackgroundScript :=
  foldl (fun b m => (commit m.1 m.2 b).2) b ms.

(** A connection after the hub posted to it those mutations of a list
    that are not ignored. *)
Definition relayed (s : Settings) (ms : list (string * Value))
    (connection : Connection) : Connection :=
  foldl (fun D m =>
           if isIgnored (ignoredMutations s) m.1 then D
           else posted (SyncMutation {| type := m.1; payload := m.2 |}) D)
    connection ms.

(** The hub after the store called the action subscriber, if the
    constructor registered it. *)
Definition afterSubscriber (action : ChangeRecord) (b : BackgroundScript)
    : BackgroundScript :=
  if syncActions (settings b) && hasSubscribeAction
  then (hookAction action b).2
  else b.

(** *** The action records a hub holds

    The constructor registers the action hook when
    [settings.syncActions === true] and the store has [subscribeAction].
    With the hook registered, the action records that a registered
    connection with the marker still holds are of ignored types, or of
    types for which the store has no action. *)
Definition actionsHooked (s : Settings) : bool :=
  syncActions s && hasSubscribeAction.

Definition consistentActions (b : BackgroundScript) : Prop :=
  forall d D e,
    d ∈ connections b -> heap b !! d = Some D -> skipped D = false ->
    e ∈ receivedActions D ->
    type e ∈ ignoredActions (settings b) \/ actionHandler (type e) = None.

Definition shrunkActions (D' D : Connection) : Prop :=
  name D' = name D /\ receivedActions D' ⊆ receivedActions D.

Definition refinesActions (b' b : BackgroundScript) : Prop :=
  connections b' = connections b /\
  settings b' = settings b /\
  length (heap b') = length (heap b) /\
  forall d D', heap b' !! d = Some D' ->
    exists D, heap b !! d = Some D /\ shrunkActions D' D.

(** The envelopes a hub with the settings [s] may post: the state, a
    mutation that is not ignored and, when the action hook is registered,
    an action that is not ignored. *)
Definition postable (s : Settings) (msg : Message) : Prop :=
  match msg with
  | SyncState _ => True
  | SyncMutation m => isIgnored (ignoredMutations s) (type m) = false
  | SyncAction a =>
      actionsHooked s = true /\ isIgnored (ignoredActions s) (type a) = false
  | _ => False
  end.

(** From [b] to [b'] the hub lost no connection object and posted such
    envelopes only. *)
Definition posts (b b' : BackgroundScript) : Prop :=
  settings b' = settings b /\
  length (heap b) <= length (heap b') /\
  forall d D D', heap b !! d = Some D -> heap b' !! d = Some D' ->
    exists extra,
      outbox (port D') = outbox (port D) ++ extra /\
      Forall (postable (settings b)) extra.

(** The connection with handle [d] does not have the name [n]. *)
Definition namedOtherwise (h : list Connection) (n : Name) (d : nat) : Prop :=
  hasName h n d = false.

#[global] Instance namedOtherwise_dec (h : list Connection) (n : Name) (d : nat)
    : Decision (namedOtherwise h n d) :=
  decide (hasName h n d = false).

End Background.
End Background.

(** ** The peer: [src/contentScript.js] *)

Module Content.
Section Content.
Context {RT : Runtime}.

(** The fields of the class; [connection] is the peer's end of its one
    connection to the hub.  [scriptId] is
    [Math.random().toString(36).substr(2, 9)]: at most nine characters. *)
Record ContentScript := {
  store : Store;
  settings : Settings;
  scriptId : string;
  connection : Port;
  receivedMutations : list ChangeRecord;
  receivedActions : list ChangeRecord;
  initialized : bool;
  pendingMutations : list ChangeRecord;
  pendingActions : list ChangeRecord
}.

Definition set_store (f : Store -> Store) (p : ContentScript) :=
  {| store := f (store p); settings := settings p; scriptId := scriptId p;
     connection := connection p; receivedMutations := receivedMutations p;
     receivedActions := receivedActions p; initialized := initialized p;
     pendingMutations := pendingMutations p; pendingActions := pendingActions p |}.

Definition set_connection (c : Port) (p : ContentScript) :=
  {| store := store p; settings := settings p; scriptId := scriptId p;
     connection := c; receivedMutations := receivedMutations p;
     receivedActions := receivedActions p; initialized := initialized p;
     pendingMutations := pendingMutations p; pendingActions := pendingActions p |}.

Definition set_receivedMutations (f : list ChangeRecord -> list ChangeRecord)
    (p : ContentScript) :=
  {| store := store p; settings := settings p; scriptId := scriptId p;
     connection := connection p; receivedMutations := f (receivedMutations p);
     receivedActions := receivedActions p; initialized := initialized p;
     pendingMutations := pendingMutations p; pendingActions := pendingActions p |}.

Definition set_receivedActions (f : list ChangeRecord -> list ChangeRecord)
    (p : ContentScript) :=
  {| store := store p; settings := settings p; scriptId := scriptId p;
     connection := connection p; receivedMutations := receivedMutations p;
     receivedActions := f (receivedActions p); initialized := initialized p;
     pendingMutations := pendingMutations p; pendingActions := pendingActions p |}.

Definition set_initialized (i : bool) (p : ContentScript) :=
  {| store := store p; settings := settings p; scriptId := scriptId p;
     connection := connection p; receivedMutations := receivedMutations p;
     receivedActions := receivedActions p; initialized := i;
     pendingMutations := pendingMutations p; pendingActions := pendingActions p |}.

Definition set_pendingMutations (f : list ChangeRecord -> list ChangeRecord)
    (p : ContentScript) :=
  {| store := store p; settings := settings p; scriptId := scriptId p;
     connection := connection p; receivedMutations := receivedMutations p;
     receivedActions := receivedActions p; initialized := initialized p;
     pendingMutations := f (pendingMutations p); pendingActions := pendingActions p |}.

Definition set_pendingActions (f : list ChangeRecord -> list ChangeRecord)
    (p : ContentScript) :=
  {| store := store p; settings := settings p; scriptId := scriptId p;
     connection := connection p; receivedMutations := receivedMutations p;
     receivedActions := receivedActions p; initialized := initialized p;
     pendingMutations := pendingMutations p; pendingActions := f (pendingActions p) |}.

(** The name the constructor connects under:
    [`${this.settings.connectionName}_${this.scriptId}`]. *)
Definition connectionNameOf (s : Settings) (id : string) : string :=
  connectionName s +:+ "_" +:+ id.

(** The fields as the constructor leaves them, [port] being what
    [browser.connectToBackground] returned. *)
Definition new (st : Store) (s : Settings) (id : string) (port : Port) : ContentScript :=
  {| store := st; settings := s; scriptId := id; connection := port;
     receivedMutations := []; receivedActions := []; initialized := false;
     pendingMutations := []; pendingActions := [] |}.

(** [this.connection.postMessage(msg)] *)
Definition postMessage (msg : Message) : Eff ContentScript unit :=
  fun p =>
    let '(r, c) := Port_postMessage msg (connection p) in
    (r, set_connection c p).

Definition sendMutation (mutation : ChangeRecord) : Eff ContentScript unit :=
  postMessage (SyncMutation mutation).

Definition sendAction (action : ChangeRecord) : Eff ContentScript unit :=
  postMessage (SyncAction action).

Definition hookMutation (mutation : ChangeRecord) : Eff ContentScript unit :=
  if bool_decide (type mutation = vweReplaceState) then ret tt
  else
    s <- gets settings ;;
    if isIgnored (ignoredMutations s) (type mutation) then ret tt
    else
      i <- gets initialized ;;
      if negb i then modify (set_pendingMutations (fun l => l ++ [mutation]))
      else
        received <- gets receivedMutations ;;
        if bool_decide (length received = 0) then sendMutation mutation
        else
          match findIndex (sameTypeAndPayload mutation) received with
          | Some index => modify (set_receivedMutations (delete index))
          | None => sendMutation mutation
          end.

Definition hookAction (action : ChangeRecord) : Eff ContentScript unit :=
  s <- gets settings ;;
  if isIgnored (ignoredActions s) (type action) then ret tt
  else
    i <- gets initialized ;;
    if negb i then modify (set_pendingActions (fun l => l ++ [action]))
    else
      received <- gets receivedActions ;;
      if bool_decide (length received = 0) then sendAction action
      else
        match findIndex (sameTypeAndPayload action) received with
        | Some index => modify (set_receivedActions (delete index))
        | None => sendAction action
        end.

(** The subscriber of [store.subscribeAction]: an [Event] payload is
    replaced by [null] before the hook runs. *)
Definition actionSubscriber (action : ChangeRecord) : Eff ContentScript unit :=
  hookAction
    (if instanceofEvent (payload action)
     then {| type := type action; payload := null |}
     else action).

(** [this.store.commit(type, payload)]: the store applies the mutation,
    then calls its subscriber before it returns. *)
Definition commit (ty : string) (pl : Value) : Eff ContentScript unit :=
  modify (set_store (Store_commit ty pl)) ;;
  hookMutation {| type := ty; payload := pl |}.

(** Modelled from the spec: the handler of an action at work.  It
    commits its mutations, in order, on the state it finds.  A commit
    whose hook throws ends it. *)
Definition handlerCommits (handler : Value -> Value -> list (string * Value))
    (pl : Value) : Eff ContentScript unit :=
  st <- gets (fun p => state (store p)) ;;
  forEach (handler pl st) (fun m => commit m.1 m.2).

(** Modelled from the spec: [this.store.dispatch(...)].  For a type
    without a handler the store reports an unknown action and returns.
    Otherwise it calls the action subscriber, which the constructor
    registers when [settings.syncActions === true] and the store has
    [subscribeAction], catches what the subscriber throws, and runs the
    handler. *)
Definition dispatch (call : DispatchCall) : Eff ContentScript unit :=
  modify (set_store (Store_recordDispatch call)) ;;
  match actionHandler (type (dispatchedAction call)) with
  | None => ret tt
  | Some handler =>
      s <- gets settings ;;
      try_catch
        (if syncActions s && hasSubscribeAction
         then actionSubscriber (dispatchedAction call)
         else ret tt)
        (fun err => ret tt) ;;
      handlerCommits handler (payload (dispatchedAction call))
  end.

(** The [while (this.pendingMutations.length > 0)] loop.  The source has
    no bound on it; [fuel] bounds the number of iterations here. *)
Fixpoint pendingMutationsLoop (fuel : nat) : Eff ContentScript unit :=
  queue <- gets pendingMutations ;;
  match queue with
  | [] => ret tt
  | mutation :: rest =>
      match fuel with
      | 0 => diverge
      | S fuel' =>
          modify (set_pendingMutations (fun _ => rest)) ;;
          commit (type mutation) (payload mutation) ;;
          pendingMutationsLoop fuel'
      end
  end.

Definition processPendingMutations (fuel : nat) : Eff ContentScript unit :=
  queue <- gets pendingMutations ;;
  if bool_decide (length queue = 0) then ret tt
  else pendingMutationsLoop fuel.

Fixpoint pendingActionsLoop (fuel : nat) : Eff ContentScript unit :=
  queue <- gets pendingActions ;;
  match queue with
  | [] => ret tt
  | action :: rest =>
      match fuel with
      | 0 => diverge
      | S fuel' =>
          modify (set_pendingActions (fun _ => rest)) ;;
          dispatch (DispatchTypePayload (type action) (payload action)) ;;
          pendingActionsLoop fuel'
      end
  end.

Definition processPendingActions (fuel : nat) : Eff ContentScript unit :=
  queue <- gets pendingActions ;;
  if bool_decide (length queue = 0) then ret tt
  else pendingActionsLoop fuel.

Definition onMessage (fuel : nat) (message : Message) : Eff ContentScript unit :=
  match message with
  | NoType => ret tt
  | SyncState data =>
      commit vweReplaceState data ;;
      modify (set_initialized true) ;;
      processPendingMutations fuel
  | SyncMutation data =>
      i <- gets initialized ;;
      if negb i then ret tt
      else
        modify (set_receivedMutations (fun l => l ++ [data])) ;;
        commit (type data) (payload data)
  | SyncAction data =>
      i <- gets initialized ;;
      if negb i then ret tt
      else
        modify (set_receivedActions (fun l => l ++ [data])) ;;
        dispatch (DispatchObject data)
  | OtherType _ => ret tt
  end.

(** *** The life of a peer

    What can happen to a peer after its construction: a message from the
    hub, a commit or a dispatch of the application on the local store,
    and the transport closing the port. *)

Inductive Event :=
  | Received (message : Message)
  | Committed (ty : string) (pl : Value)
  | Dispatched (call : DispatchCall)
  | PortClosed.

Definition closePort (p : ContentScript) : ContentScript :=
  set_connection {| disconnected := true; outbox := outbox (connection p) |} p.

Definition handle (fuel : nat) (e : Event) : Eff ContentScript unit :=
  match e with
  | Received message => onMessage fuel message
  | Committed ty pl => commit ty pl
  | Dispatched call => dispatch call
  | PortClosed => modify closePort
  end.

(** [evolves p p']: the peer [p] becomes [p'] by handling events, none of
    them cut short by the bound on the loop. *)
Inductive evolves (p : ContentScript) : ContentScript -> Prop :=
  | evolves_refl : evolves p p
  | evolves_step (fuel : nat) (e : Event) (p' : ContentScript) :
      evolves p p' ->
      (handle fuel e p').1 <> OutOfFuel ->
      evolves p (handle fuel e p').2.

(** A mutation type that [hookMutation] returns on before it looks at
    the queue or at the received list: the reserved type and the ignored
    types. *)
Definition stuckType (s : Settings) (ty : string) : bool :=
  bool_decide (ty = vweReplaceState) || isIgnored (ignoredMutations s) ty.

(** The records of such types in a list. *)
Definition stuckRecords (s : Settings) (l : list ChangeRecord) : list ChangeRecord :=
  filter (fun m => stuckType s (type m) = true) l.

(** What no event undoes: the settings and the script id stay, a peer
    once initialized stays so, queued actions stay queued, in their
    order, and received records of the reserved or an ignored type stay
    in the received list, in their order. *)
Definition keeps (p p' : ContentScript) : Prop :=
  settings p' = settings p /\
  scriptId p' = scriptId p /\
  (initialized p = true -> initialized p' = true) /\
  pendingActions p `prefix_of` pendingActions p' /\
  (initialized p = true -> pendingActions p' = pendingActions p) /\
  stuckRecords (settings p) (receivedMutations p)
    `prefix_of` stuckRecords (settings p) (receivedMutations p').

(** From [p] to [p'] a peer that is not initialized stayed so, posted
    and received nothing, and queued those of the mutations committed in
    between that are neither of the reserved type nor ignored. *)
Definition waits (p p' : ContentScript) : Prop :=
  initialized p = false ->
  initialized p' = false /\
  settings p' = settings p /\
  outbox (connection p') = outbox (connection p) /\
  receivedMutations p' = receivedMutations p /\
  receivedActions p' = receivedActions p /\
  exists ys,
    commits (store p') = commits (store p) ++ ys /\
    map commitArgs (pendingMutations p')
    = map commitArgs (pendingMutations p)
      ++ filter (fun a => stuckType (settings p) a.1 = false) ys.

(** The action hook is registered. *)
Definition actionsHooked (s : Settings) : bool :=
  syncActions s && hasSubscribeAction.

(** An action as the subscriber hands it to the hook: its payload is no
    [Event], or it is [null]. *)
Definition cleaned (a : ChangeRecord) : Prop :=
  instanceofEvent (payload a) = false \/ payload a = null.

(** The envelopes a peer with the settings [s] may post: a mutation that
    is neither of the reserved type nor ignored and, when the action hook
    is registered, a cleaned action that is not ignored. *)
Definition postable (s : Settings) (msg : Message) : Prop :=
  match msg with
  | SyncMutation m => stuckType s (type m) = false
  | SyncAction a =>
      actionsHooked s = true /\
      isIgnored (ignoredActions s) (type a) = false /\
      cleaned a
  | _ => False
  end.

(** From [p] to [p'] the peer posted such envelopes only. *)
Definition posts (p p' : ContentScript) : Prop :=
  settings p' = settings p /\
  exists extra,
    outbox (connection p') = outbox (connection p) ++ extra /\
    Forall (postable (settings p)) extra.

End Content.
End Content.

(** ** A concrete runtime for the examples

    JSON values with the serialisation of [JSON.stringify] (strings
    without control characters), a store whose state is an object with a
    [counter] that the mutation [inc] increments and the mutation [set]
    overwrites, and the object-style [dispatch] of Vuex, which hands the
    whole object over as the payload. *)

Module Json.

#[local] Set Warnings "-register-all".

(** [JEvent] is a DOM event, an instance of [Event]; its only enumerable
    property of its own is [isTrusted]. *)
Inductive json :=
  | JNull
  | JNum (z : Z)
  | JStr (s : string)
  | JObj (fields : list (string * json))
  | JEvent.

Definition quote : string := String "034"%char EmptyString.

Fixpoint escape (s : string) : string :=
  match s with
  | EmptyString => EmptyString
  | String c rest =>
      (if bool_decide (c = "034"%char) then "\" +:+ quote
       else if bool_decide (c = "\"%char) then "\\"
       else String c EmptyString) +:+ escape rest
  end.

Definition quoted (s : string) : string := quote +:+ escape s +:+ quote.

Fixpoint stringify (v : json) : string :=
  match v with
  | JNull => "null"
  | JNum z => pretty z
  | JStr s => quoted s
  | JEvent => "{" +:+ quoted "isTrusted" +:+ ":true}"
  | JObj fields =>
      let fix members (l : list (string * json)) : list string :=
        match l with
        | [] => []
        | (k, x) :: rest => (quoted k +:+ ":" +:+ stringify x) :: members rest
        end in
      "{" +:+ String.concat "," (members fields) +:+ "}"
  end.

Definition filterKeys (source : json) (keys : list string) : json :=
  match source with
  | JObj fields => JObj (filter (fun kv => kv.1 ∈ keys) fields)
  | _ => JObj []
  end.

Definition merge (a b : json) : json :=
  match a, b with
  | JObj fa, JObj fb =>
      JObj (filter (fun kv => bool_decide (kv.1 ∉ fb.*1)) fa ++ fb)
  | _, JObj fb => JObj fb
  | _, _ => a
  end.

Definition counterOf (st : json) : Z :=
  match st with
  | JObj (("counter", JNum z) :: _) => z
  | _ => 0
  end.

Definition handle (ty : string) (pl st : json) : json :=
  if bool_decide (ty = "inc") then JObj [("counter", JNum (counterOf st + 1))]
  else if bool_decide (ty = "set") then JObj [("counter", pl)]
  else st.

(** The actions of the store: [open], which commits nothing before
    [dispatch] returns, and [bump], which commits [inc]. *)
Definition actions (ty : string) : option (json -> json -> list (string * json)) :=
  if bool_decide (ty = "open") then Some (fun _ _ => [])
  else if bool_decide (ty = "bump") then Some (fun _ _ => [("inc", JNull)])
  else None.

Definition isEvent (v : json) : bool :=
  match v with JEvent => true | _ => false end.

#[export] Instance runtime : Runtime := {|
  Value := json;
  JSON_stringify v := Some (stringify v);
  filterObject := filterKeys;
  mutationHandler := handle;
  actionHandler := actions;
  instanceofEvent := isEvent;
  null := JNull;
  objectStylePayload ty pl := JObj [("type", JStr ty); ("payload", pl)];
  hasSubscribeAction := true;
  spread := merge
|}.

Definition noSettings : Settings :=
  {| connectionName := "vuex-webextensions"; syncActions := true;
     ignoredMutations := []; ignoredActions := []; persistentStates := [] |}.

Definition emptyStore : Store :=
  {| state := JObj [("counter", JNum 0)]; commits := []; dispatches := [] |}.

Definition openPort : Port := {| disconnected := false; outbox := [] |}.
Definition closedPort : Port := {| disconnected := true; outbox := [] |}.

Definition ignoringInc : Settings :=
  {| connectionName := "vuex-webextensions"; syncActions := true;
     ignoredMutations := ["inc"]; ignoredActions := []; persistentStates := [] |}.

Definition renamed : Settings :=
  {| connectionName := "my-extension"; syncActions := true;
     ignoredMutations := []; ignoredActions := []; persistentStates := [] |}.

(** Settings that persist the [counter] of the state. *)
Definition persisting : Settings :=
  {| connectionName := "vuex-webextensions"; syncActions := true;
     ignoredMutations := []; ignoredActions := []; persistentStates := ["counter"] |}.

(** What the storage of the browser holds for it. *)
Definition savedCounter : json := JObj [("counter", JNum 7); ("draft", JStr "x")].

Definition inc : ChangeRecord := {| type := "inc"; payload := JNull |}.
Definition x1 : ChangeRecord := {| type := "x"; payload := JNum 1 |}.
Definition x2 : ChangeRecord := {| type := "x"; payload := JNum 2 |}.
Definition open0 : ChangeRecord := {| type := "open"; payload := JNum 0 |}.
Definition open1 : ChangeRecord := {| type := "open"; payload := JNum 1 |}.
Definition open2 : ChangeRecord := {| type := "open"; payload := JNum 2 |}.
Definition bump : ChangeRecord := {| type := "bump"; payload := JNull |}.
Definition stray : ChangeRecord := {| type := "stray"; payload := JNull |}.

(** *** Hubs *)

Definition tab (n : string) : Background.Connection :=
  {| Background.name := Background.NameString n; Background.receivedMutations := [];
     Background.receivedActions := []; Background.port := openPort |}.

Definition tabA : Background.Connection := tab "vuex-webextensions_k3j9x0q2a".
Definition tabB : Background.Connection := tab "vuex-webextensions_0zw81mmp4".
Definition devtools : Background.Connection := tab "devtools-page".

(** Connections whose name is no string: [undefined], [null] and [NaN]. *)
Definition unnamedTab : Background.Connection :=
  {| Background.name := Background.NameOther 0; Background.receivedMutations := [];
     Background.receivedActions := []; Background.port := openPort |}.

Definition nullTab : Background.Connection :=
  {| Background.name := Background.NameOther 1; Background.receivedMutations := [];
     Background.receivedActions := []; Background.port := openPort |}.

Definition nanTab : Background.Connection :=
  {| Background.name := Background.NameNaN; Background.receivedMutations := [];
     Background.receivedActions := []; Background.port := openPort |}.
Definition renamedTab : Background.Connection :=
  tab (Content.connectionNameOf renamed "k3j9x0q2a").

(** A tab that still holds the record of [x1]. *)
Definition tabWithX1 : Background.Connection :=
  {| Background.name := Background.NameString "vuex-webextensions_k3j9x0q2a";
     Background.receivedMutations := [x1];
     Background.receivedActions := [];
     Background.port := openPort |}.

Definition hub (s : Settings) (h : list Background.Connection)
    : Background.BackgroundScript :=
  {| Background.store := emptyStore; Background.settings := s;
     Background.heap := h; Background.connections := seq 0 (length h);
     Background.savedStates := [] |}.

(** A tab after the hub sent it the initial state of [emptyStore]. *)
Definition greeted (connection : Background.Connection) : Background.Connection :=
  Background.posted (SyncState (state emptyStore)) connection.

(** A hub after two tabs connected to it. *)
Definition connectTwoTabs (s : Settings) : Background.BackgroundScript :=
  (Background.handle
     (Background.Connected
        (Background.NameString "vuex-webextensions_0zw81mmp4") openPort)
     (Background.handle
        (Background.Connected
        (Background.NameString "vuex-webextensions_k3j9x0q2a") openPort)
        (Background.new emptyStore s)).2).2.

Definition twoTabs : Background.BackgroundScript := connectTwoTabs noSettings.

(** A hub after a page of another protocol and a tab connected to it. *)
Definition devtoolsAndTab : Background.BackgroundScript :=
  (Background.handle
     (Background.Connected
        (Background.NameString "vuex-webextensions_k3j9x0q2a") openPort)
     (Background.handle
        (Background.Connected (Background.NameString "devtools-page") openPort)
        (Background.new emptyStore noSettings)).2).2.

(** *** Peers *)

Definition freshPeer : Content.ContentScript :=
  Content.new emptyStore noSettings "k3j9x0q2a" openPort.

(** The fresh peer after its application committed [inc]. *)
Definition queuedPeer : Content.ContentScript :=
  (Content.commit "inc" JNull freshPeer).2.

Definition initialState : json := JObj [("counter", JNum 5)].

Definition syncedPeer (port : Port) (mutations actions : list ChangeRecord)
    : Content.ContentScript :=
  {| Content.store := emptyStore; Content.settings := noSettings;
     Content.scriptId := "k3j9x0q2a"; Content.connection := port;
     Content.receivedMutations := mutations; Content.receivedActions := actions;
     Content.initialized := true;
     Content.pendingMutations := []; Content.pendingActions := [] |}.

(** The queued peer after the initial state arrived. *)
Definition replayedPeer : Content.ContentScript :=
  (Content.onMessage 1 (SyncState initialState) queuedPeer).2.

(** An initialized peer that still holds two queued actions. *)
Definition peerWithQueuedActions : Content.ContentScript :=
  Content.set_pendingActions (fun _ => [open1; bump; stray]) (syncedPeer openPort [] []).

(** A peer that queued a mutation and an action and whose port has
    been disconnected since. *)
Definition cutOffPeer : Content.ContentScript :=
  {| Content.store := emptyStore; Content.settings := noSettings;
     Content.scriptId := "k3j9x0q2a"; Content.connection := closedPort;
     Content.receivedMutations := []; Content.receivedActions := [];
     Content.initialized := false;
     Content.pendingMutations := [inc]; Content.pendingActions := [open1] |}.


End Json.

(** * Properties *)

(** ** Scanning a list *)

Section Scanning.
Context {A : Type} (p : A -> bool).

Lemma findIndex_Some (l : list A) (i : nat) :
  findIndex p l = Some i ->
  exists x, l !! i = Some x /\ p x = true /\
    forall j y, j < i -> l !! j = Some y -> p y = false.
Proof.
  revert i. induction l as [|a l IH]; intros i; simpl; [done|].
  destruct (p a) eqn:Ha.
  - intros [= <-]. exists a. repeat split; auto. intros j y Hj; lia.
  - destruct (findIndex p l) as [k|] eqn:Hk; simpl; [|done].
    intros [= <-]. destruct (IH k eq_refl) as (x & Hx & Hpx & Hfirst).
    exists x. repeat split; auto.
    intros [|j] y Hj; simpl; [congruence|]. apply Hfirst. lia.
Qed.

Lemma findIndex_None (l : list A) :
  findIndex p l = None <-> forall x, x ∈ l -> p x = false.
Proof.
  induction l as [|a l IH]; simpl.
  - split; [|done]. intros _ x Hx. by apply elem_of_nil in Hx.
  - destruct (p a) eqn:Ha.
    + split; [done|]. intros H. specialize (H a (list_elem_of_here _ _)). congruence.
    + destruct (findIndex p l) eqn:Hk; simpl.
      * split; [done|]. intros H. exfalso.
        enough (Some n = @None nat) by done. apply IH.
        intros x Hx. apply H. by apply list_elem_of_further.
      * split; [|done]. intros _ x Hx. apply elem_of_cons in Hx as [->|Hx]; [done|].
        by apply IH.
Qed.


Lemma scanDown_None (l : list A) (n : nat) :
  scanDown p l n = None <-> forall k y, k < n -> l !! k = Some y -> p y = false.
Proof.
  induction n as [|n IH]; simpl.
  - split; [|done]. intros _ k y Hk; lia.
  - destruct (l !! n) as [x|] eqn:Hx.
    + destruct (p x) eqn:Hp.
      * split; [done|]. intros H. specialize (H n x). rewrite H in Hp; [done|lia|done].
      * rewrite IH. split; intros H k y Hk Hy.
        -- destruct (decide (k = n)) as [->|]; [congruence|]. apply (H k); [lia|done].
        -- apply (H k); [lia|done].
    + rewrite IH. split; intros H k y Hk Hy.
      * destruct (decide (k = n)) as [->|]; [congruence|]. apply (H k); [lia|done].
      * apply (H k); [lia|done].
Qed.

Lemma scanDown_all_None (l : list A) :
  scanDown p l (length l) = None <-> forall x, x ∈ l -> p x = false.
Proof.
  rewrite scanDown_None. split.
  - intros H x Hx. apply list_elem_of_lookup in Hx as [k Hk].
    apply (H k); [|done]. by apply lookup_lt_Some in Hk.
  - intros H k y _ Hy. apply H. apply list_elem_of_lookup. eauto.
Qed.

End Scanning.

(** ** The hub's relay pass *)

Section HubRelay.
Context {RT : Runtime}.
Import Background.

(** The connection object a premise speaks of is the one looked up. *)
Ltac at_connection E :=
  let x := fresh "x" in let Hx := fresh "Hx" in
  intros x Hx; rewrite E in Hx; injection Hx as <-.

Lemma updateConnection_id (c : nat) (f : Connection -> Connection) (b : BackgroundScript) :
  (forall connection, heap b !! c = Some connection -> f connection = connection) ->
  updateConnection c f b = b.
Proof.
  intros Hf. destruct b as [st se h cs sv]. unfold updateConnection, set_heap; simpl in *.
  f_equal. apply list_eq. intros i. destruct (decide (c = i)) as [<-|Hne].
  - rewrite list_lookup_alter_eq. destruct (h !! c) eqn:E; simpl; [|done].
    by rewrite Hf.
  - by rewrite list_lookup_alter_ne.
Qed.

Lemma updateConnection_ext (c : nat) (f g : Connection -> Connection) (b : BackgroundScript) :
  (forall connection, heap b !! c = Some connection -> f connection = g connection) ->
  updateConnection c f b = updateConnection c g b.
Proof.
  intros Hf. destruct b as [st se h cs sv]. unfold updateConnection, set_heap; simpl in *.
  f_equal. apply list_eq. intros i. destruct (decide (c = i)) as [<-|Hne].
  - rewrite !list_lookup_alter_eq. destruct (h !! c) eqn:E; simpl; [|done].
    by rewrite Hf.
  - by rewrite !list_lookup_alter_ne.
Qed.

Lemma sendMutation_run (c : nat) (mutation : ChangeRecord) (b : BackgroundScript) :
  sendMutation c mutation b
  = (Returned tt, updateConnection c (posted (SyncMutation mutation)) b).
Proof.
  unfold sendMutation, try_catch, postMessage, posted, Port_postMessage, ret.
  destruct (heap b !! c) as [connection|] eqn:E.
  - destruct (disconnected (port connection)) eqn:D; simpl.
    + f_equal. apply updateConnection_ext. at_connection E. by rewrite D.
    + f_equal. apply updateConnection_ext. at_connection E. by rewrite D.
  - f_equal. symmetry. apply updateConnection_id. congruence.
Qed.

Lemma sendAction_run (c : nat) (action : ChangeRecord) (b : BackgroundScript) :
  sendAction c action b
  = (Returned tt, updateConnection c (posted (SyncAction action)) b).
Proof.
  unfold sendAction, try_catch, postMessage, posted, Port_postMessage, ret.
  destruct (heap b !! c) as [connection|] eqn:E.
  - destruct (disconnected (port connection)) eqn:D; simpl.
    + f_equal. apply updateConnection_ext. at_connection E. by rewrite D.
    + f_equal. apply updateConnection_ext. at_connection E. by rewrite D.
  - f_equal. symmetry. apply updateConnection_id. congruence.
Qed.

Lemma syncCurrentState_run (c : nat) (b : BackgroundScript) :
  syncCurrentState c b
  = (Returned tt, updateConnection c (posted (SyncState (state (store b)))) b).
Proof.
  unfold syncCurrentState, try_catch, bind, gets, postMessage, posted,
    Port_postMessage, ret.
  destruct (heap b !! c) as [connection|] eqn:E.
  - destruct (disconnected (port connection)) eqn:D; simpl.
    + f_equal. apply updateConnection_ext. at_connection E. by rewrite D.
    + f_equal. apply updateConnection_ext. at_connection E. by rewrite D.
  - f_equal. symmetry. apply updateConnection_id. congruence.
Qed.

Lemma relayMutation_run (mutation : ChangeRecord) (c : nat) (b : BackgroundScript) :
  relayMutation mutation c b
  = (Returned tt, updateConnection c (afterRelayMutation mutation) b).
Proof.
  unfold relayMutation, bind, gets.
  destruct (heap b !! c) as [connection|] eqn:E.
  - destruct (skipped connection) eqn:Sk.
    + unfold ret. f_equal. symmetry. apply updateConnection_id.
      at_connection E. unfold afterRelayMutation. by rewrite Sk.
    + destruct (scanDown _ _ _) as [j|] eqn:Sc.
      * unfold modify. f_equal. apply updateConnection_ext.
        at_connection E. unfold afterRelayMutation. by rewrite Sk, Sc.
      * rewrite sendMutation_run. f_equal. apply updateConnection_ext.
        at_connection E. unfold afterRelayMutation. by rewrite Sk, Sc.
  - unfold ret. f_equal. symmetry. apply updateConnection_id. congruence.
Qed.

Lemma relayAction_run (action : ChangeRecord) (c : nat) (b : BackgroundScript) :
  relayAction action c b
  = (Returned tt, updateConnection c (afterRelayAction action) b).
Proof.
  unfold relayAction, bind, gets.
  destruct (heap b !! c) as [connection|] eqn:E.
  - destruct (skipped connection) eqn:Sk.
    + unfold ret. f_equal. symmetry. apply updateConnection_id.
      at_connection E. unfold afterRelayAction. by rewrite Sk.
    + destruct (scanDown _ _ _) as [j|] eqn:Sc.
      * unfold modify. f_equal. apply updateConnection_ext.
        at_connection E. unfold afterRelayAction. by rewrite Sk, Sc.
      * rewrite sendAction_run. f_equal. apply updateConnection_ext.
        at_connection E. unfold afterRelayAction. by rewrite Sk, Sc.
  - unfold ret. f_equal. symmetry. apply updateConnection_id. congruence.
Qed.

Lemma forEach_updates (callback : nat -> Eff BackgroundScript unit)
    (f : Connection -> Connection) (cs : list nat) (b : BackgroundScript) :
  (forall c b, callback c b = (Returned tt, updateConnection c f b)) ->
  forEach cs callback b = (Returned tt, updateAll f cs b).
Proof.
  intros Hcb. revert b. induction cs as [|c cs IH]; intros b; simpl; [done|].
  unfold bind. rewrite Hcb. apply IH.
Qed.

Lemma updateAll_fields (f : Connection -> Connection) (cs : list nat) (b : BackgroundScript) :
  store (updateAll f cs b) = store b /\
  settings (updateAll f cs b) = settings b /\
  connections (updateAll f cs b) = connections b /\
  savedStates (updateAll f cs b) = savedStates b /\
  length (heap (updateAll f cs b)) = length (heap b).
Proof.
  revert b. induction cs as [|c cs IH]; intros b; simpl; [done|].
  destruct (IH (updateConnection c f b)) as (-> & -> & -> & -> & ->).
  simpl. by rewrite length_alter.
Qed.

Lemma updateAll_lookup_notin (f : Connection -> Connection) (cs : list nat)
    (b : BackgroundScript) (d : nat) :
  d ∉ cs -> heap (updateAll f cs b) !! d = heap b !! d.
Proof.
  revert b. induction cs as [|c cs IH]; intros b Hd; simpl; [done|].
  apply not_elem_of_cons in Hd as [Hne Hd].
  rewrite IH; [|done]. simpl. by rewrite list_lookup_alter_ne.
Qed.

Lemma updateAll_lookup_in (f : Connection -> Connection) (cs : list nat)
    (b : BackgroundScript) (d : nat) :
  NoDup cs -> d ∈ cs -> heap (updateAll f cs b) !! d = f <$> heap b !! d.
Proof.
  revert b. induction cs as [|c cs IH]; intros b Hnd Hd; simpl.
  - by apply elem_of_nil in Hd.
  - apply NoDup_cons in Hnd as [Hc Hnd].
    apply elem_of_cons in Hd as [->|Hd].
    + rewrite updateAll_lookup_notin; [|done]. simpl. by rewrite list_lookup_alter_eq.
    + rewrite IH; [|done..]. simpl. rewrite list_lookup_alter_ne; [done|].
      intros ->. done.
Qed.

Lemma hookMutation_run (mutation : ChangeRecord) (b : BackgroundScript) :
  hookMutation mutation b =
  (Returned tt,
   if isIgnored (ignoredMutations (settings b)) (type mutation) then b
   else set_savedStates
          (fun l => l ++ [filterObject (state (store b)) (persistentStates (settings b))])
          (updateAll (afterRelayMutation mutation) (connections b) b)).
Proof.
  unfold hookMutation, bind, gets.
  destruct (isIgnored _ _); [done|].
  rewrite (forEach_updates _ (afterRelayMutation mutation)); [|apply relayMutation_run].
  unfold savePersistentStates, modify.
  destruct (updateAll_fields (afterRelayMutation mutation) (connections b) b)
    as (-> & _).
  done.
Qed.

Lemma hookAction_run (action : ChangeRecord) (b : BackgroundScript) :
  hookAction action b =
  (Returned tt,
   if isIgnored (ignoredActions (settings b)) (type action) then b
   else updateAll (afterRelayAction action) (connections b) b).
Proof.
  unfold hookAction, bind, gets.
  destruct (isIgnored _ _); [done|].
  by rewrite (forEach_updates _ (afterRelayAction action)); [|apply relayAction_run].
Qed.

End HubRelay.

(** ** Substrings *)

Section Substrings.

Lemma prefix_length (n h : string) :
  String.prefix n h = true -> String.length n <= String.length h.
Proof.
  revert h. induction n as [|a n IH]; intros h; simpl; [lia|].
  destruct h as [|c h]; [done|]. simpl.
  destruct (Ascii.ascii_dec a c); [|done]. intros H. apply IH in H. lia.
Qed.

Lemma includes_length (n h : string) :
  includes n h = true -> String.length n <= String.length h.
Proof.
  induction h as [|c h IH]; cbn [includes].
  - rewrite orb_false_r. apply prefix_length.
  - intros H. apply orb_true_iff in H as [H|H].
    + by apply prefix_length in H.
    + apply IH in H. simpl. lia.
Qed.

(** A prefix of [a ++ b] either lies within [a] or covers the first
    character of [b]. *)
Lemma prefix_app_inv (n a b : string) :
  String.prefix n (a +:+ b) = true ->
  String.prefix n a = true \/
  exists c rest, b = String c rest /\ In c (String.list_ascii_of_string n).
Proof.
  revert n. induction a as [|x a IH]; intros n; simpl.
  - destruct n as [|y n]; [by left|]. destruct b as [|c b]; [done|]. simpl.
    destruct (Ascii.ascii_dec y c) as [->|]; [|done].
    intros _. right. exists c, b. split; [done|]. by left.
  - destruct n as [|y n]; [by left|]. simpl.
    destruct (Ascii.ascii_dec y x) as [->|]; [|done].
    intros H. apply IH in H as [H|(c & rest & -> & Hin)]; [by left|].
    right. exists c, rest. split; [done|]. by right.
Qed.

Lemma includes_app_inv (n a b : string) :
  includes n (a +:+ b) = true ->
  includes n a = true \/ includes n b = true \/
  exists c rest, b = String c rest /\ In c (String.list_ascii_of_string n).
Proof.
  induction a as [|x a IH].
  - intros H. right. by left.
  - change (String x a +:+ b) with (String x (a +:+ b)). cbn [includes].
    intros H. apply orb_true_iff in H as [H|H].
    + apply (prefix_app_inv n (String x a) b) in H as [H|H].
      * left. by rewrite H.
      * right. by right.
    + apply IH in H as [H|H]; [|by right].
      left. rewrite H. apply orb_true_r.
Qed.

End Substrings.

(** ** The hub *)

Section Hub.
Context {RT : Runtime}.
Import Background.

Lemma isIgnored_false (ignored : list string) (ty : string) :
  isIgnored ignored ty = false <-> ty ∉ ignored.
Proof.
  unfold isIgnored. rewrite andb_false_iff, !bool_decide_eq_false. split.
  - intros [H|H]; [|done]. destruct ignored; [apply not_elem_of_nil|simpl in H; lia].
  - by right.
Qed.

Lemma skipped_true (connection : Connection) :
  skipped connection = true <->
  (forall s, name connection <> NameString s) \/
  exists n, name connection = NameString n /\ includes "vuex-webextensions" n = false.
Proof.
  unfold skipped. destruct (name connection) as [n| |v].
  - rewrite negb_true_iff. split.
    + intros H. right. eauto.
    + intros [H|(m & [= <-] & H)]; [by destruct (H n)|done].
  - split; [by left|done].
  - split; [by left|done].
Qed.

Lemma afterRelayMutation_skipped (r : ChangeRecord) (connection : Connection) :
  skipped connection = true -> afterRelayMutation r connection = connection.
Proof. intros H. unfold afterRelayMutation. by rewrite H. Qed.

Lemma afterRelayAction_skipped (r : ChangeRecord) (connection : Connection) :
  skipped connection = true -> afterRelayAction r connection = connection.
Proof. intros H. unfold afterRelayAction. by rewrite H. Qed.

Lemma updateAll_lookup_fixed (f : Connection -> Connection) (cs : list nat)
    (b : BackgroundScript) (c : nat) (connection : Connection) :
  heap b !! c = Some connection -> f connection = connection ->
  heap (updateAll f cs b) !! c = Some connection.
Proof.
  intros Hc Hf. revert b Hc. induction cs as [|d cs IH]; intros b Hc; simpl; [done|].
  apply IH. simpl. destruct (decide (d = c)) as [->|Hne].
  - by rewrite list_lookup_alter_eq, Hc; simpl; rewrite Hf.
  - by rewrite list_lookup_alter_ne.
Qed.

Lemma updateAll_id (f : Connection -> Connection) (cs : list nat) (b : BackgroundScript) :
  (forall c connection, heap b !! c = Some connection -> f connection = connection) ->
  updateAll f cs b = b.
Proof.
  intros Hf. induction cs as [|d cs IH]; simpl; [done|].
  rewrite updateConnection_id; [done|]. intros connection. apply Hf.
Qed.

Lemma updateAll_set_settings (f : Connection -> Connection) (g : Settings -> Settings)
    (cs : list nat) (b : BackgroundScript) :
  updateAll f cs (set_settings g b) = set_settings g (updateAll f cs b).
Proof. revert b. induction cs as [|d cs IH]; intros b; simpl; [done|]. by rewrite <- IH. Qed.

Lemma peer_name_unmarked (s : Settings) (id : string) :
  includes "vuex-webextensions" (connectionName s) = false ->
  String.length id <= 9 ->
  includes "vuex-webextensions" (Content.connectionNameOf s id) = false.
Proof.
  intros Hcn Hid. unfold Content.connectionNameOf.
  destruct (includes _ (_ +:+ _)) eqn:E; [|done]. exfalso.
  apply includes_app_inv in E as [E|[E|(c & rest & Hc & Hin)]].
  - congruence.
  - change ("_" +:+ id) with (String "_"%char id) in E. cbn [includes] in E.
    apply orb_true_iff in E as [E|E]; [by vm_compute in E|].
    apply includes_length in E. simpl in E. lia.
  - injection Hc as <- _. vm_compute in Hin. intuition discriminate.
Qed.

(** C9.  In the relay pass for a mutation and in the relay pass for an
    action, a connection whose name is not a string, or does not contain
    the literal [vuex-webextensions], is left exactly as it was: nothing
    is posted on it.  The test never reads [settings.connectionName]:
    changing it changes nothing else in the outcome of a pass.  Hence,
    when [connectionName] does not contain the literal and the connections
    are those of peers, which connect under [connectionName_scriptId]
    with a script id of at most nine characters, a pass posts nothing at
    all. *)
Theorem relay_skips_unmarked_connections :
  (forall (b : BackgroundScript) (r : ChangeRecord) (c : nat) (connection : Connection),
     heap b !! c = Some connection ->
     ((forall s, name connection <> NameString s) \/
      exists n, name connection = NameString n /\
                includes "vuex-webextensions" n = false) ->
     heap (hookMutation r b).2 !! c = Some connection /\
     heap (hookAction r b).2 !! c = Some connection) /\
  (forall (b : BackgroundScript) (r : ChangeRecord) (cn : string),
     hookMutation r (set_settings (withConnectionName cn) b)
       = (Returned tt, set_settings (withConnectionName cn) (hookMutation r b).2) /\
     hookAction r (set_settings (withConnectionName cn) b)
       = (Returned tt, set_settings (withConnectionName cn) (hookAction r b).2)) /\
  (forall (b : BackgroundScript) (r : ChangeRecord),
     includes "vuex-webextensions" (connectionName (settings b)) = false ->
     (forall c connection, heap b !! c = Some connection ->
        exists id, String.length id <= 9 /\
          name connection = NameString (Content.connectionNameOf (settings b) id)) ->
     heap (hookMutation r b).2 = heap b /\ heap (hookAction r b).2 = heap b).
Proof.
  split; [|split].
  - intros b r c connection Hc Hname. apply skipped_true in Hname.
    rewrite hookMutation_run, hookAction_run. simpl. split.
    + destruct (isIgnored _ _); [done|]. simpl.
      apply updateAll_lookup_fixed; [done|]. by apply afterRelayMutation_skipped.
    + destruct (isIgnored _ _); [done|].
      apply updateAll_lookup_fixed; [done|]. by apply afterRelayAction_skipped.
  - intros b r cn. rewrite !hookMutation_run, !hookAction_run. simpl. split.
    + destruct (isIgnored _ _); [done|]. by rewrite updateAll_set_settings.
    + destruct (isIgnored _ _); [done|]. by rewrite updateAll_set_settings.
  - intros b r Hcn Hpeers.
    assert (forall c connection, heap b !! c = Some connection ->
              skipped connection = true) as Hskip.
    { intros c connection Hc. destruct (Hpeers c connection Hc) as (id & Hid & Hn).
      apply skipped_true. right. eexists. split; [done|].
      by apply peer_name_unmarked. }
    rewrite hookMutation_run, hookAction_run. simpl. split.
    + destruct (isIgnored _ _); [done|]. simpl. rewrite updateAll_id; [done|].
      intros c connection Hc. apply afterRelayMutation_skipped. eauto.
    + destruct (isIgnored _ _); [done|]. rewrite updateAll_id; [done|].
      intros c connection Hc. apply afterRelayAction_skipped. eauto.
Qed.

(** C5, as the code has it.  For every mutation committed at the hub
    whose type is not ignored, the hook calls
    [browser.savePersistentStates] once, after the relay pass, with the
    [persistentStates]-filtered state as the mutation left it; it does so
    whether [persistentStates] is empty or not, and whatever the
    connections and their received lists are. *)
Theorem hub_saves_after_every_relayed_mutation
    (b : BackgroundScript) (ty : string) (pl : Value) :
  ty ∉ ignoredMutations (settings b) ->
  exists b',
    commit ty pl b = (Returned tt, b') /\
    state (store b') = Store_apply ty pl (state (store b)) /\
    savedStates b' =
      savedStates b ++
      [filterObject (Store_apply ty pl (state (store b))) (persistentStates (settings b))] /\
    forall (h : list Connection) (cs : list nat),
      savedStates (commit ty pl (set_heap (fun _ => h) (set_connections (fun _ => cs) b))).2
      = savedStates b'.
Proof.
  intros Hig. apply isIgnored_false in Hig.
  unfold commit, bind, modify. rewrite hookMutation_run. simpl.
  rewrite Hig. eexists. split; [done|]. simpl.
  destruct (updateAll_fields (afterRelayMutation {| type := ty; payload := pl |})
              (connections b) (set_store (Store_commit ty pl) b)) as (-> & _ & _ & -> & _).
  simpl. split; [done|]. split; [done|].
  intros h cs. rewrite hookMutation_run. simpl. rewrite Hig. simpl.
  match goal with |- context [updateAll ?f ?l ?x] =>
    destruct (updateAll_fields f l x) as (_ & _ & _ & -> & _) end.
  done.
Qed.

Lemma sameTypeAndPayload_refl (r : ChangeRecord) : sameTypeAndPayload r r = true.
Proof. unfold sameTypeAndPayload. by rewrite !bool_decide_eq_true_2. Qed.

Lemma scanDown_snoc {A} (p : A -> bool) (l : list A) (x : A) :
  p x = true -> scanDown p (l ++ [x]) (length (l ++ [x])) = Some (length l).
Proof.
  intros Hp. rewrite length_app, Nat.add_1_r. simpl.
  by rewrite lookup_app_r, Nat.sub_diag; simpl; [rewrite Hp|].
Qed.

Lemma afterRelayMutation_echo (r : ChangeRecord) (connection : Connection) :
  skipped connection = false ->
  afterRelayMutation r (set_receivedMutations (fun l => l ++ [r]) connection) = connection.
Proof.
  intros Hs. unfold afterRelayMutation. simpl.
  change (skipped (set_receivedMutations _ connection)) with (skipped connection).
  rewrite Hs, scanDown_snoc by apply sameTypeAndPayload_refl.
  destruct connection as [n rm ra p]. unfold set_receivedMutations; simpl.
  f_equal. by rewrite delete_middle, app_nil_r.
Qed.

Lemma afterRelayMutation_fresh (r : ChangeRecord) (connection : Connection) :
  skipped connection = false ->
  (forall e, e ∈ receivedMutations connection -> sameTypeAndPayload r e = false) ->
  afterRelayMutation r connection = posted (SyncMutation r) connection.
Proof.
  intros Hs Hno. unfold afterRelayMutation. rewrite Hs.
  by rewrite (proj2 (scanDown_all_None _ _) Hno).
Qed.

(** What the hub's handler of [@@STORE_SYNC_MUTATION] leaves, for a type
    that is not ignored. *)
Lemma onMessage_mutation_run (c : nat) (r : ChangeRecord) (b : BackgroundScript) :
  type r ∉ ignoredMutations (settings b) ->
  onMessage c (SyncMutation r) b =
  (Returned tt,
   set_savedStates
     (fun l => l ++ [filterObject (Store_apply (type r) (payload r) (state (store b)))
                       (persistentStates (settings b))])
     (updateAll (afterRelayMutation r) (connections b)
        (set_store (Store_commit (type r) (payload r))
           (updateConnection c (set_receivedMutations (fun l => l ++ [r])) b)))).
Proof.
  intros Hig. apply isIgnored_false in Hig.
  unfold onMessage, bind, modify, commit, bind, modify.
  rewrite hookMutation_run. simpl. rewrite Hig. by destruct r.
Qed.

Lemma hub_round_fields (c : nat) (r : ChangeRecord) (b : BackgroundScript) :
  type r ∉ ignoredMutations (settings b) ->
  settings (onMessage c (SyncMutation r) b).2 = settings b /\
  connections (onMessage c (SyncMutation r) b).2 = connections b /\
  commits (store (onMessage c (SyncMutation r) b).2)
    = commits (store b) ++ [(type r, payload r)].
Proof.
  intros Hig. rewrite onMessage_mutation_run by done. simpl.
  match goal with |- context [updateAll ?f ?l ?x] =>
    destruct (updateAll_fields f l x) as (-> & -> & -> & _) end.
  done.
Qed.

(** The origin of the round: its record is consumed again. *)
Lemma hub_round_origin (c : nat) (C : Connection) (r : ChangeRecord) (b : BackgroundScript) :
  NoDup (connections b) ->
  c ∈ connections b ->
  heap b !! c = Some C ->
  skipped C = false ->
  type r ∉ ignoredMutations (settings b) ->
  heap (onMessage c (SyncMutation r) b).2 !! c = Some C.
Proof.
  intros Hnd Hc HC Hs Hig. rewrite onMessage_mutation_run by done. simpl.
  rewrite updateAll_lookup_in by done. simpl.
  rewrite list_lookup_alter_eq, HC. simpl. f_equal.
  by apply afterRelayMutation_echo.
Qed.

(** Another connection of the round: one [postMessage]. *)
Lemma hub_round_other (c d : nat) (D : Connection) (r : ChangeRecord) (b : BackgroundScript) :
  NoDup (connections b) ->
  d ∈ connections b ->
  d <> c ->
  heap b !! d = Some D ->
  skipped D = false ->
  type r ∉ ignoredMutations (settings b) ->
  (forall e, e ∈ receivedMutations D -> sameTypeAndPayload r e = false) ->
  heap (onMessage c (SyncMutation r) b).2 !! d = Some (posted (SyncMutation r) D).
Proof.
  intros Hnd Hd Hdc HD Hs Hig Hno. rewrite onMessage_mutation_run by done. simpl.
  rewrite updateAll_lookup_in by done. simpl.
  rewrite list_lookup_alter_ne, HD by done. simpl.
  by rewrite afterRelayMutation_fresh.
Qed.

Lemma posted_connected (msg : Message) (D : Connection) :
  disconnected (port D) = false ->
  outbox (port (posted msg D)) = outbox (port D) ++ [msg].
Proof. intros Hopen. unfold posted, Port_postMessage. by rewrite Hopen. Qed.

End Hub.

(** ** The records a hub holds *)

Section HubInvariant.
Context {RT : Runtime}.
Import Background.

Lemma shrunk_refl (D : Connection) : shrunk D D.
Proof. by split. Qed.

Lemma shrunk_trans (D1 D2 D3 : Connection) :
  shrunk D1 D2 -> shrunk D2 D3 -> shrunk D1 D3.
Proof. intros [Hn1 Hs1] [Hn2 Hs2]. split; [congruence|]. by etrans. Qed.

Lemma shrunk_skipped (D' D : Connection) : shrunk D' D -> skipped D' = skipped D.
Proof. intros [Hn _]. unfold skipped. by rewrite Hn. Qed.

Lemma refines_refl (b : BackgroundScript) : refines b b.
Proof. repeat split. intros d D HD. exists D. split; [done|apply shrunk_refl]. Qed.

Lemma refines_trans (b1 b2 b3 : BackgroundScript) :
  refines b1 b2 -> refines b2 b3 -> refines b1 b3.
Proof.
  intros (Hc1 & Hs1 & Hl1 & H1) (Hc2 & Hs2 & Hl2 & H2).
  repeat split; try congruence.
  intros d D1 HD1. destruct (H1 d D1 HD1) as (D2 & HD2 & Hsh1).
  destruct (H2 d D2 HD2) as (D3 & HD3 & Hsh2).
  exists D3. split; [done|]. by eapply shrunk_trans.
Qed.

Lemma consistent_refines (b' b : BackgroundScript) :
  consistent b -> refines b' b -> consistent b'.
Proof.
  intros (Hnd & Hin & Hrec) (Hc & Hs & Hl & Hheap).
  unfold consistent. rewrite Hc, Hs, Hl. repeat split; auto.
  intros d D' e Hd HD' Hsk He.
  destruct (Hheap d D' HD') as (D & HD & Hsh).
  apply (Hrec d D e); auto.
  - by rewrite <- (shrunk_skipped D' D).
  - by apply Hsh.
Qed.

Lemma refines_updateConnection (c : nat) (f : Connection -> Connection)
    (b : BackgroundScript) :
  (forall D, shrunk (f D) D) -> refines (updateConnection c f b) b.
Proof.
  intros Hf. repeat split; simpl.
  - by rewrite length_alter.
  - intros d D'. destruct (decide (c = d)) as [->|Hne].
    + rewrite list_lookup_alter_eq. destruct (heap b !! d) as [D|]; simpl; [|done].
      intros [= <-]. eauto.
    + rewrite list_lookup_alter_ne by done. intros HD. exists D'.
      split; [done|apply shrunk_refl].
Qed.

Lemma refines_updateAll (f : Connection -> Connection) (cs : list nat)
    (b : BackgroundScript) :
  (forall D, shrunk (f D) D) -> refines (updateAll f cs b) b.
Proof.
  intros Hf. revert b. induction cs as [|c cs IH]; intros b; simpl.
  - apply refines_refl.
  - eapply refines_trans; [apply IH|]. by apply refines_updateConnection.
Qed.

Lemma refines_set_store (f : Store -> Store) (b : BackgroundScript) :
  refines (set_store f b) b.
Proof. repeat split. intros d D HD. exists D. split; [done|apply shrunk_refl]. Qed.

Lemma refines_set_savedStates (f : list Value -> list Value) (b : BackgroundScript) :
  refines (set_savedStates f b) b.
Proof. repeat split. intros d D HD. exists D. split; [done|apply shrunk_refl]. Qed.

Lemma shrunk_posted (msg : Message) (D : Connection) : shrunk (posted msg D) D.
Proof. by split. Qed.

Lemma shrunk_afterRelayMutation (r : ChangeRecord) (D : Connection) :
  shrunk (afterRelayMutation r D) D.
Proof.
  unfold afterRelayMutation. destruct (skipped D); [apply shrunk_refl|].
  destruct (scanDown _ _ _) as [j|]; [|apply shrunk_posted].
  split; [done|]. simpl. apply sublist_subseteq, sublist_delete.
Qed.

Lemma shrunk_afterRelayAction (r : ChangeRecord) (D : Connection) :
  shrunk (afterRelayAction r D) D.
Proof.
  unfold afterRelayAction. destruct (skipped D); [apply shrunk_refl|].
  destruct (scanDown _ _ _) as [j|]; [|apply shrunk_posted].
  by split.
Qed.

Lemma refines_hookMutation (r : ChangeRecord) (b : BackgroundScript) :
  refines (hookMutation r b).2 b.
Proof.
  rewrite hookMutation_run. simpl. destruct (isIgnored _ _); [apply refines_refl|].
  eapply refines_trans; [apply refines_set_savedStates|].
  apply refines_updateAll, shrunk_afterRelayMutation.
Qed.

Lemma refines_hookAction (r : ChangeRecord) (b : BackgroundScript) :
  refines (hookAction r b).2 b.
Proof.
  rewrite hookAction_run. simpl. destruct (isIgnored _ _); [apply refines_refl|].
  apply refines_updateAll, shrunk_afterRelayAction.
Qed.

Lemma commit_run (ty : string) (pl : Value) (b : BackgroundScript) :
  commit ty pl b
  = (Returned tt,
     (hookMutation {| type := ty; payload := pl |} (set_store (Store_commit ty pl) b)).2).
Proof. unfold commit, bind, modify. by rewrite hookMutation_run. Qed.

Lemma refines_commit (ty : string) (pl : Value) (b : BackgroundScript) :
  refines (commit ty pl b).2 b.
Proof.
  rewrite commit_run. simpl.
  eapply refines_trans; [apply refines_hookMutation|apply refines_set_store].
Qed.

Lemma forEach_commit_run (ms : list (string * Value)) (b : BackgroundScript) :
  forEach ms (fun m => commit m.1 m.2) b = (Returned tt, committed ms b).
Proof.
  revert b. induction ms as [|m ms IH]; intros b; [done|].
  assert (commit m.1 m.2 b = (Returned tt, (commit m.1 m.2 b).2)) as E
    by (by rewrite commit_run).
  cbn [forEach]. unfold bind at 1. rewrite E. cbv beta iota. by rewrite IH.
Qed.

Lemma handlerCommits_run (handler : Value -> Value -> list (string * Value))
    (pl : Value) (b : BackgroundScript) :
  handlerCommits handler pl b
  = (Returned tt, committed (handler pl (state (store b))) b).
Proof. unfold handlerCommits, bind, gets. apply forEach_commit_run. Qed.

Lemma afterSubscriber_store (a : ChangeRecord) (b : BackgroundScript) :
  store (afterSubscriber a b) = store b.
Proof.
  unfold afterSubscriber. destruct (syncActions _ && _); [|done].
  rewrite hookAction_run. simpl. destruct (isIgnored _ _); [done|].
  by destruct (updateAll_fields (afterRelayAction a) (connections b) b) as (-> & _).
Qed.

(** What [dispatch] does, the hook of the hub never throwing. *)
Lemma dispatch_run (call : DispatchCall) (b : BackgroundScript) :
  dispatch call b
  = (Returned tt,
     match actionHandler (type (dispatchedAction call)) with
     | None => set_store (Store_recordDispatch call) b
     | Some handler =>
         committed (handler (payload (dispatchedAction call)) (state (store b)))
           (afterSubscriber (dispatchedAction call)
              (set_store (Store_recordDispatch call) b))
     end).
Proof.
  unfold dispatch, bind, modify.
  destruct (actionHandler _) as [handler|]; [|done].
  unfold gets, try_catch.
  assert ((if syncActions (settings (set_store (Store_recordDispatch call) b))
              && hasSubscribeAction
           then hookAction (dispatchedAction call)
           else ret tt) (set_store (Store_recordDispatch call) b)
          = (Returned tt,
             afterSubscriber (dispatchedAction call)
               (set_store (Store_recordDispatch call) b))) as ->.
  { unfold afterSubscriber. destruct (syncActions _ && _); [|done].
    by rewrite hookAction_run. }
  by rewrite handlerCommits_run, afterSubscriber_store.
Qed.

Lemma refines_committed (ms : list (string * Value)) (b : BackgroundScript) :
  refines (committed ms b) b.
Proof.
  revert b. induction ms as [|m ms IH]; intros b; [apply refines_refl|].
  eapply refines_trans; [apply IH|apply refines_commit].
Qed.

Lemma refines_afterSubscriber (a : ChangeRecord) (b : BackgroundScript) :
  refines (afterSubscriber a b) b.
Proof.
  unfold afterSubscriber. destruct (syncActions _ && _); [|apply refines_refl].
  apply refines_hookAction.
Qed.

Lemma refines_dispatch (call : DispatchCall) (b : BackgroundScript) :
  refines (dispatch call b).2 b.
Proof.
  rewrite dispatch_run. simpl.
  destruct (actionHandler _); [|apply refines_set_store].
  eapply refines_trans; [apply refines_committed|].
  eapply refines_trans; [apply refines_afterSubscriber|apply refines_set_store].
Qed.

Lemma syncAllDown_step (n : nat) (b : BackgroundScript) :
  syncAllDown (S n) b =
  match connections b !! n with
  | Some c =>
      syncAllDown n (updateConnection c (posted (SyncState (state (store b)))) b)
  | None => syncAllDown n b
  end.
Proof.
  simpl. unfold bind, gets. destruct (connections b !! n) as [c|]; [|done].
  by rewrite syncCurrentState_run.
Qed.

Lemma syncAllDown_run (n : nat) (b : BackgroundScript) :
  (syncAllDown n b).1 = Returned tt /\ refines (syncAllDown n b).2 b.
Proof.
  revert b. induction n as [|n IH]; intros b.
  - split; [done|apply refines_refl].
  - rewrite syncAllDown_step. destruct (connections b !! n) as [c|]; [|apply IH].
    destruct (IH (updateConnection c (posted (SyncState (state (store b)))) b))
      as [Hret Href].
    split; [done|]. eapply refines_trans; [exact Href|].
    apply refines_updateConnection. intros D. apply shrunk_posted.
Qed.

Lemma refines_onPersistentStates (saved : option Value) (b : BackgroundScript) :
  refines (onPersistentStates saved b).2 b.
Proof.
  unfold onPersistentStates, bind, gets.
  destruct (bool_decide _); [apply refines_refl|].
  destruct saved as [v|]; [|apply refines_refl].
  rewrite commit_run.
  set (b1 := (hookMutation _ _).2).
  assert (refines b1 b) as H1.
  { eapply refines_trans; [apply refines_hookMutation|apply refines_set_store]. }
  destruct (bool_decide _); [|done].
  eapply refines_trans; [apply syncAllDown_run|done].
Qed.

Lemma removeByName_sublist (h : list Connection) (n : Name)
    (cs : list nat) (i : nat) :
  removeByName h n cs i `sublist_of` cs.
Proof.
  revert cs. induction i as [|i IH]; intros cs; simpl; [done|].
  destruct (cs !! i) as [d|]; [|apply IH].
  destruct (hasName _ _ _); [|apply IH].
  etrans; [apply IH|apply sublist_delete].
Qed.

Lemma consistent_onConnection (n : Name) (p : Port) (b : BackgroundScript) :
  consistent b -> consistent (onConnection n p b).2.
Proof.
  intros (Hnd & Hin & Hrec).
  unfold onConnection, bind, gets, modify. rewrite syncCurrentState_run. simpl.
  repeat split; simpl.
  - apply NoDup_app. repeat split; [done| |apply NoDup_singleton].
    intros d Hd Hd'. apply list_elem_of_singleton in Hd' as ->. apply Hin in Hd. lia.
  - intros d Hd. rewrite length_alter, length_app. simpl.
    apply elem_of_app in Hd as [Hd|Hd].
    + apply Hin in Hd. lia.
    + apply list_elem_of_singleton in Hd as ->. lia.
  - intros d D e Hd HD Hsk He.
    apply elem_of_app in Hd as [Hd|Hd];
      [|apply list_elem_of_singleton in Hd as ->].
    + rewrite list_lookup_alter_ne in HD by (apply Hin in Hd; lia).
      rewrite lookup_app_l in HD by by apply Hin.
      by apply (Hrec d D e).
    + rewrite list_lookup_alter_eq, lookup_app_r, Nat.sub_diag in HD by done.
      simpl in HD. injection HD as <-. simpl in He. by apply elem_of_nil in He.
Qed.

Lemma consistent_onDisconnect (c : nat) (b : BackgroundScript) :
  consistent b -> consistent (onDisconnect c b).2.
Proof.
  intros (Hnd & Hin & Hrec). unfold onDisconnect, bind, gets, modify.
  destruct (heap b !! c) as [connection|]; [|done]. simpl.
  pose proof (removeByName_sublist (heap b) (name connection) (connections b)
                (length (connections b))) as Hsub.
  repeat split; simpl.
  - by eapply sublist_NoDup.
  - intros d Hd. apply Hin. by eapply elem_of_sublist.
  - intros d D e Hd. apply Hrec. by eapply elem_of_sublist.
Qed.

Lemma consistent_receive_mutation (c : nat) (r : ChangeRecord) (b : BackgroundScript) :
  consistent b -> consistent (onMessage c (SyncMutation r) b).2.
Proof.
  intros Hcons. pose proof Hcons as (Hnd & Hin & Hrec).
  destruct (isIgnored (ignoredMutations (settings b)) (type r)) eqn:Hig.
  - unfold onMessage, bind, modify, commit, bind, modify.
    rewrite hookMutation_run. simpl. rewrite Hig.
    repeat split; simpl; auto.
    + intros d Hd. rewrite length_alter. by apply Hin.
    + intros d D e Hd HD Hsk He.
      destruct (decide (c = d)) as [->|Hne].
      * rewrite list_lookup_alter_eq in HD.
        destruct (heap b !! d) as [D0|] eqn:HD0; simpl in HD; [|done].
        injection HD as <-. simpl in He.
        apply elem_of_app in He as [He|He];
          [|apply list_elem_of_singleton in He as ->].
        -- by apply (Hrec d D0 e).
        -- unfold isIgnored in Hig. apply andb_true_iff in Hig as [_ Hig].
           by apply bool_decide_eq_true in Hig.
      * rewrite list_lookup_alter_ne in HD by done. by apply (Hrec d D e).
  - apply isIgnored_false in Hig.
    pose proof (hub_round_fields c r b Hig) as (Hse & Hcs & _).
    unfold consistent. rewrite Hse, Hcs.
    split; [done|]. split.
    + intros d Hd. rewrite onMessage_mutation_run by done. simpl.
      match goal with |- context [updateAll ?f ?l ?x] =>
        destruct (updateAll_fields f l x) as (_ & _ & _ & _ & ->) end.
      simpl. rewrite length_alter. by apply Hin.
    + intros d D e Hd HD Hsk He.
      destruct (heap b !! d) as [D0|] eqn:HD0;
        [|apply Hin, lookup_lt_is_Some in Hd; rewrite HD0 in Hd; by destruct Hd].
      destruct (decide (d = c)) as [->|Hne].
      * destruct (skipped D0) eqn:Hsk0.
        -- rewrite onMessage_mutation_run in HD by done. simpl in HD.
           rewrite updateAll_lookup_in in HD by done. simpl in HD.
           rewrite list_lookup_alter_eq, HD0 in HD. simpl in HD.
           injection HD as <-.
           rewrite afterRelayMutation_skipped in Hsk by done. simpl in Hsk.
           change (skipped D0 = false) in Hsk. congruence.
        -- rewrite (hub_round_origin c D0 r b) in HD by done.
           injection HD as <-. by apply (Hrec c D0 e).
      * rewrite onMessage_mutation_run in HD by done. simpl in HD.
        rewrite updateAll_lookup_in in HD by done. simpl in HD.
        rewrite list_lookup_alter_ne, HD0 in HD by done. simpl in HD.
        injection HD as <-.
        pose proof (shrunk_afterRelayMutation r D0) as Hsh.
        apply (Hrec d D0 e); auto.
        -- by rewrite <- (shrunk_skipped _ _ Hsh).
        -- by apply Hsh.
Qed.

Lemma consistent_onMessage (c : nat) (message : Message) (b : BackgroundScript) :
  consistent b -> consistent (onMessage c message b).2.
Proof.
  intros Hcons. destruct message as [|data|r|r|ty]; try done.
  - by apply consistent_receive_mutation.
  - unfold onMessage, bind, modify.
    eapply consistent_refines; [exact Hcons|].
    eapply refines_trans; [apply refines_dispatch|].
    apply refines_updateConnection. intros D. by split.
Qed.

Lemma consistent_handle (e : Event) (b : BackgroundScript) :
  consistent b -> consistent (handle e b).2.
Proof.
  intros Hcons. destruct e as [n p|c|c message|ty pl|call|saved|c]; simpl.
  - by apply consistent_onConnection.
  - by apply consistent_onDisconnect.
  - by apply consistent_onMessage.
  - eapply consistent_refines; [done|apply refines_commit].
  - eapply consistent_refines; [done|apply refines_dispatch].
  - eapply consistent_refines; [done|apply refines_onPersistentStates].
  - eapply consistent_refines; [done|].
    apply refines_updateConnection. intros D. by split.
Qed.

(** Every hub is consistent, whatever happened to it since its
    construction. *)
Lemma reachable_consistent (b : BackgroundScript) : reachable b -> consistent b.
Proof.
  induction 1 as [st s|e b Hreach IH].
  - repeat split; simpl.
    + apply NoDup_nil_2.
    + intros d Hd. by apply elem_of_nil in Hd.
    + intros d D e Hd. by apply elem_of_nil in Hd.
  - by apply consistent_handle.
Qed.

(** No handler of the hub throws, and none needs fuel. *)
Lemma handle_returns (e : Event) (b : BackgroundScript) :
  (handle e b).1 = Returned tt.
Proof.
  destruct e as [n p|c|c message|ty pl|call|saved|c]; simpl.
  - unfold onConnection, bind, gets, modify. by rewrite syncCurrentState_run.
  - unfold onDisconnect, bind, gets, modify. by destruct (heap b !! c).
  - destruct message; simpl; auto.
    + unfold bind, modify. by rewrite commit_run.
    + unfold bind, modify. by rewrite dispatch_run.
  - by rewrite commit_run.
  - by rewrite dispatch_run.
  - unfold onPersistentStates, bind, gets.
    destruct (bool_decide _); [done|]. destruct saved as [v|]; [|done].
    rewrite commit_run. destruct (bool_decide _); [|done].
    apply syncAllDown_run.
  - done.
Qed.

(** A record of an ignored type matches no mutation that is relayed. *)
Lemma consistent_no_match (b : BackgroundScript) (d : nat) (D : Connection)
    (r : ChangeRecord) :
  consistent b ->
  d ∈ connections b -> heap b !! d = Some D -> skipped D = false ->
  type r ∉ ignoredMutations (settings b) ->
  forall e, e ∈ receivedMutations D -> sameTypeAndPayload r e = false.
Proof.
  intros (_ & _ & Hrec) Hd HD Hsk Hig e He.
  unfold sameTypeAndPayload. rewrite andb_false_iff, bool_decide_eq_false. left.
  intros Hty. apply Hig. rewrite <- Hty. by apply (Hrec d D e).
Qed.

End HubInvariant.

(** ** A round of the hub *)

Section HubRound.
Context {RT : Runtime}.
Import Background.

(** C2, as the code has it.  In every state a hub can reach: when it
    receives a mutation of a type that is not ignored from a registered
    connection [C] that carries the protocol marker, it appends the
    record to [C]'s received list and commits it; the relay pass this
    commit triggers finds that very record (the last of the list) and
    removes it, so [C] is what it was before the message and nothing is
    posted to [C]; on every other registered connection with the marker,
    [postMessage] is called exactly once, with the mutation-sync
    envelope, which reaches the wire when the port is connected. *)
Theorem hub_round_consumes_echo_and_relays_once
    (b : BackgroundScript) (c : nat) (C : Connection) (r : ChangeRecord) :
  reachable b ->
  c ∈ connections b ->
  heap b !! c = Some C ->
  skipped C = false ->
  type r ∉ ignoredMutations (settings b) ->
  exists b',
    onMessage c (SyncMutation r) b = (Returned tt, b') /\
    commits (store b') = commits (store b) ++ [(type r, payload r)] /\
    scanDown (sameTypeAndPayload r) (receivedMutations C ++ [r])
      (length (receivedMutations C ++ [r])) = Some (length (receivedMutations C)) /\
    heap b' !! c = Some C /\
    forall (d : nat) (D : Connection),
      d <> c -> d ∈ connections b -> heap b !! d = Some D -> skipped D = false ->
      heap b' !! d = Some (posted (SyncMutation r) D) /\
      receivedMutations (posted (SyncMutation r) D) = receivedMutations D /\
      port (posted (SyncMutation r) D)
        = (Port_postMessage (SyncMutation r) (port D)).2 /\
      (disconnected (port D) = false ->
       outbox (port (posted (SyncMutation r) D)) = outbox (port D) ++ [SyncMutation r]).
Proof.
  intros Hreach Hc HC Hs Hig.
  pose proof (reachable_consistent b Hreach) as Hcons.
  pose proof Hcons as (Hnd & _).
  exists (onMessage c (SyncMutation r) b).2.
  split; [by rewrite onMessage_mutation_run|].
  split; [by apply hub_round_fields|].
  split; [apply scanDown_snoc, sameTypeAndPayload_refl|].
  split; [by apply hub_round_origin|].
  intros d D Hdc Hd HD HsD.
  split; [|split; [done|split; [done|apply posted_connected]]].
  apply hub_round_other; auto. by eapply consistent_no_match.
Qed.

End HubRound.

(** ** The peer's hooks *)

Section PeerHooks.
Context {RT : Runtime}.
Import Content.

Lemma set_connection_same (p : ContentScript) : set_connection (connection p) p = p.
Proof. by destruct p. Qed.

Lemma postMessage_run (msg : Message) (p : ContentScript) :
  postMessage msg p =
  if disconnected (connection p) then (Thrown TransportError, p)
  else (Returned tt,
        set_connection {| disconnected := false;
                          outbox := outbox (connection p) ++ [msg] |} p).
Proof.
  unfold postMessage, Port_postMessage.
  destruct (disconnected (connection p)) eqn:D; [by rewrite set_connection_same|done].
Qed.

(** The hook of an initialized peer, for a mutation that is neither the
    reserved one nor ignored: an echo is consumed, anything else is sent. *)
Lemma hookMutation_initialized (m : ChangeRecord) (p : ContentScript) :
  initialized p = true ->
  type m <> vweReplaceState ->
  type m ∉ ignoredMutations (settings p) ->
  hookMutation m p =
  match findIndex (sameTypeAndPayload m) (receivedMutations p) with
  | Some index => (Returned tt, set_receivedMutations (delete index) p)
  | None => sendMutation m p
  end.
Proof.
  intros Hi Hr Hig. unfold hookMutation, bind, gets.
  rewrite bool_decide_eq_false_2 by done.
  rewrite (proj2 (isIgnored_false _ _) Hig), Hi. simpl.
  destruct (receivedMutations p) as [|e l] eqn:E; [done|].
  rewrite bool_decide_eq_false_2 by done. by destruct (findIndex _ _).
Qed.

Lemma hookMutation_pending (m : ChangeRecord) (p : ContentScript) :
  initialized p = false ->
  type m <> vweReplaceState ->
  type m ∉ ignoredMutations (settings p) ->
  hookMutation m p = (Returned tt, set_pendingMutations (fun l => l ++ [m]) p).
Proof.
  intros Hi Hr Hig. unfold hookMutation, bind, gets.
  rewrite bool_decide_eq_false_2 by done.
  by rewrite (proj2 (isIgnored_false _ _) Hig), Hi.
Qed.

Lemma hookAction_initialized (a : ChangeRecord) (p : ContentScript) :
  initialized p = true ->
  type a ∉ ignoredActions (settings p) ->
  hookAction a p =
  match findIndex (sameTypeAndPayload a) (receivedActions p) with
  | Some index => (Returned tt, set_receivedActions (delete index) p)
  | None => sendAction a p
  end.
Proof.
  intros Hi Hig. unfold hookAction, bind, gets.
  rewrite (proj2 (isIgnored_false _ _) Hig), Hi. simpl.
  destruct (receivedActions p) as [|e l] eqn:E; [done|].
  rewrite bool_decide_eq_false_2 by done. by destruct (findIndex _ _).
Qed.


(** *** Relations that every step of a peer preserves *)

Lemma try_catch_state {A} (c : Eff ContentScript A) (a : A) (p : ContentScript) :
  (try_catch c (fun err => ret a) p).2 = (c p).2.
Proof. unfold try_catch. by destruct (c p) as [[?|?|] ?]. Qed.

Lemma try_catch_outcome (c : Eff ContentScript unit) (p : ContentScript) :
  (c p).1 <> OutOfFuel -> (try_catch c (fun err => ret tt) p).1 = Returned tt.
Proof. unfold try_catch. by destruct (c p) as [[[]|?|] ?]. Qed.

Lemma bind_preserves {A} (R : ContentScript -> ContentScript -> Prop)
    (c : Eff ContentScript A) (k : A -> Eff ContentScript unit) (p : ContentScript) :
  (forall p1 p2 p3, R p1 p2 -> R p2 p3 -> R p1 p3) ->
  R p (c p).2 ->
  (forall a, R (c p).2 (k a (c p).2).2) ->
  R p (bind c k p).2.
Proof.
  intros Htrans Hc Hk. unfold bind.
  destruct (c p) as [[a|e|] p1]; simpl in *; [|done..].
  eapply Htrans; [exact Hc|apply Hk].
Qed.

Lemma forEach_preserves {A} (R : ContentScript -> ContentScript -> Prop)
    (l : list A) (f : A -> Eff ContentScript unit) :
  (forall p, R p p) ->
  (forall p1 p2 p3, R p1 p2 -> R p2 p3 -> R p1 p3) ->
  (forall x p, R p (f x p).2) ->
  forall p, R p (forEach l f p).2.
Proof.
  intros Hrefl Htrans Hf. induction l as [|x l IH]; intros p; [apply Hrefl|].
  cbn [forEach]. apply bind_preserves; [done|apply Hf|]. intros _. apply IH.
Qed.

Lemma dispatch_unregistered (call : DispatchCall) (p : ContentScript) :
  actionHandler (type (dispatchedAction call)) = None ->
  dispatch call p = (Returned tt, set_store (Store_recordDispatch call) p).
Proof.
  intros Hnone. unfold dispatch. unfold bind at 1. unfold modify at 1.
  by rewrite Hnone.
Qed.

Lemma dispatch_registered (call : DispatchCall) (p : ContentScript)
    (handler : Value -> Value -> list (string * Value)) :
  actionHandler (type (dispatchedAction call)) = Some handler ->
  dispatch call p
  = bind (try_catch
            (if syncActions (settings p) && hasSubscribeAction
             then actionSubscriber (dispatchedAction call)
             else ret tt)
            (fun err => ret tt))
      (fun _ => handlerCommits handler (payload (dispatchedAction call)))
      (set_store (Store_recordDispatch call) p).
Proof.
  intros Hh. unfold dispatch. unfold bind at 1. unfold modify at 1.
  by rewrite Hh.
Qed.

(** [dispatch], after the call is recorded, goes through the action
    subscriber, if it is registered, and the commits of the handler. *)
Lemma dispatch_preserves (R : ContentScript -> ContentScript -> Prop)
    (call : DispatchCall) (p : ContentScript) :
  (forall p, R p p) ->
  (forall p1 p2 p3, R p1 p2 -> R p2 p3 -> R p1 p3) ->
  (forall ty pl p, R p (commit ty pl p).2) ->
  (forall a p, syncActions (settings p) && hasSubscribeAction = true ->
               R p (actionSubscriber a p).2) ->
  R (set_store (Store_recordDispatch call) p) (dispatch call p).2.
Proof.
  intros Hrefl Htrans Hcommit Hsub.
  unfold dispatch. unfold bind at 1. unfold modify at 1.
  set (p0 := set_store _ p).
  destruct (actionHandler _) as [handler|]; [|apply Hrefl].
  unfold bind at 1. unfold gets at 1.
  apply bind_preserves; [done| |].
  - rewrite try_catch_state.
    destruct (syncActions (settings p0) && hasSubscribeAction) eqn:E;
      [by apply Hsub|apply Hrefl].
  - intros _. unfold handlerCommits. unfold bind at 1. unfold gets at 1.
    apply forEach_preserves; auto.
Qed.

Lemma hookAction_store (a : ChangeRecord) (p : Content.ContentScript) :
  Content.store (Content.hookAction a p).2 = Content.store p.
Proof.
  unfold Content.hookAction, bind, gets, ret, modify.
  destruct (isIgnored _ _); [done|].
  destruct (negb _); [done|].
  assert (Content.store (Content.sendAction a p).2 = Content.store p) as Hsend.
  { unfold Content.sendAction. rewrite postMessage_run.
    by destruct (disconnected _). }
  destruct (bool_decide _); [done|].
  by destruct (findIndex _ _).
Qed.

Lemma hookMutation_untouched (m : ChangeRecord) (p : Content.ContentScript) :
  Content.store (Content.hookMutation m p).2 = Content.store p /\
  Content.settings (Content.hookMutation m p).2 = Content.settings p /\
  Content.receivedActions (Content.hookMutation m p).2 = Content.receivedActions p.
Proof.
  unfold Content.hookMutation, bind, gets, ret, modify.
  destruct (bool_decide _); [done|].
  destruct (isIgnored _ _); [done|].
  destruct (negb _); [done|].
  assert (Content.store (Content.sendMutation m p).2 = Content.store p /\
          Content.settings (Content.sendMutation m p).2 = Content.settings p /\
          Content.receivedActions (Content.sendMutation m p).2
          = Content.receivedActions p) as Hsend.
  { unfold Content.sendMutation. rewrite postMessage_run.
    by destruct (disconnected _). }
  destruct (bool_decide _); [done|].
  by destruct (findIndex _ _).
Qed.

Lemma commit_untouched (ty : string) (pl : Value) (p : Content.ContentScript) :
  dispatches (Content.store (Content.commit ty pl p).2) = dispatches (Content.store p) /\
  Content.settings (Content.commit ty pl p).2 = Content.settings p /\
  Content.receivedActions (Content.commit ty pl p).2 = Content.receivedActions p.
Proof.
  unfold Content.commit, bind, modify.
  destruct (hookMutation_untouched {| type := ty; payload := pl |}
              (Content.set_store (Store_commit ty pl) p)) as (-> & -> & ->).
  done.
Qed.

Lemma hookAction_settings (a : ChangeRecord) (p : Content.ContentScript) :
  Content.settings (Content.hookAction a p).2 = Content.settings p.
Proof.
  unfold Content.hookAction, bind, gets, ret, modify.
  destruct (isIgnored _ _); [done|].
  destruct (negb _); [done|].
  assert (Content.settings (Content.sendAction a p).2 = Content.settings p) as Hsend.
  { unfold Content.sendAction. rewrite postMessage_run.
    by destruct (disconnected _). }
  destruct (bool_decide _); [done|].
  by destruct (findIndex _ _).
Qed.

(** [dispatch] records its call and no other. *)
Lemma dispatch_dispatches (call : DispatchCall) (p : Content.ContentScript) :
  dispatches (Content.store (Content.dispatch call p).2)
  = dispatches (Content.store p) ++ [call].
Proof.
  apply (dispatch_preserves
           (fun p p' => dispatches (Content.store p') = dispatches (Content.store p))
           call p).
  - done.
  - intros ? ? ? H1 H2. by rewrite H2.
  - intros ty pl q. apply commit_untouched.
  - intros a q _. unfold Content.actionSubscriber. by rewrite hookAction_store.
Qed.

(** Without the action hook, [dispatch] leaves [receivedActions] alone. *)
Lemma dispatch_unhooked (call : DispatchCall) (p : Content.ContentScript) :
  syncActions (Content.settings p) = false ->
  Content.receivedActions (Content.dispatch call p).2 = Content.receivedActions p.
Proof.
  intros Hsync.
  apply (dispatch_preserves
           (fun p p' => Content.settings p' = Content.settings p /\
                        (syncActions (Content.settings p) = false ->
                         Content.receivedActions p' = Content.receivedActions p))
           call p); [done| | | |done].
  - intros ? ? ? [Hs1 H1] [Hs2 H2]. split; [congruence|].
    intros Hf. rewrite H2, H1; congruence.
  - intros ty pl q. by destruct (commit_untouched ty pl q) as (_ & -> & ->).
  - intros a q Hhook. unfold Content.actionSubscriber.
    split; [apply hookAction_settings|]. intros Hf. by rewrite Hf in Hhook.
Qed.

(** With its port connected, a peer's hooks return, and so does whatever
    calls them. *)
Lemma hookMutation_connected (m : ChangeRecord) (p : ContentScript) :
  disconnected (connection p) = false ->
  (hookMutation m p).1 = Returned tt /\
  disconnected (connection (hookMutation m p).2) = false.
Proof.
  intros Hopen. unfold hookMutation, bind, gets, ret, modify.
  destruct (bool_decide _); [done|].
  destruct (isIgnored _ _); [done|].
  destruct (negb _); [done|].
  assert ((sendMutation m p).1 = Returned tt /\
          disconnected (connection (sendMutation m p).2) = false) as Hsend.
  { unfold sendMutation. by rewrite postMessage_run, Hopen. }
  destruct (bool_decide _); [done|].
  by destruct (findIndex _ _).
Qed.

Lemma commit_connected (ty : string) (pl : Value) (p : ContentScript) :
  disconnected (connection p) = false ->
  (commit ty pl p).1 = Returned tt /\
  disconnected (connection (commit ty pl p).2) = false.
Proof.
  intros Hopen. unfold commit, bind, modify.
  by apply (hookMutation_connected _ (set_store (Store_commit ty pl) p)).
Qed.

Lemma forEach_commit_connected (ms : list (string * Value)) (p : ContentScript) :
  disconnected (connection p) = false ->
  (forEach ms (fun m => commit m.1 m.2) p).1 = Returned tt /\
  disconnected (connection (forEach ms (fun m => commit m.1 m.2) p).2) = false.
Proof.
  revert p. induction ms as [|m ms IH]; intros p Hopen; [done|].
  cbn [forEach]. destruct (commit_connected m.1 m.2 p Hopen) as [Ho Hopen'].
  unfold bind. destruct (commit m.1 m.2 p) as [o p1]. simpl in Ho, Hopen'. subst o.
  by apply IH.
Qed.

Lemma hookAction_connection (a : ChangeRecord) (p : ContentScript) :
  (hookAction a p).1 <> OutOfFuel /\
  disconnected (connection (hookAction a p).2) = disconnected (connection p).
Proof.
  unfold hookAction, bind, gets, ret, modify.
  destruct (isIgnored _ _); [done|].
  destruct (negb _); [done|].
  assert ((sendAction a p).1 <> OutOfFuel /\
          disconnected (connection (sendAction a p).2)
          = disconnected (connection p)) as Hsend.
  { unfold sendAction. rewrite postMessage_run.
    by destruct (disconnected (connection p)) eqn:E. }
  destruct (bool_decide _); [done|].
  by destruct (findIndex _ _).
Qed.

(** The store catches what the action subscriber throws: [dispatch]
    returns unless a commit of the handler throws, and these return when
    the port is connected. *)
Lemma dispatch_returns (call : DispatchCall) (p : ContentScript) :
  disconnected (connection p) = false \/
  actionHandler (type (dispatchedAction call)) = None \/
  (exists handler,
     actionHandler (type (dispatchedAction call)) = Some handler /\
     handler (payload (dispatchedAction call)) (state (store p)) = []) ->
  (dispatch call p).1 = Returned tt.
Proof.
  intros Hcase. unfold dispatch. unfold bind at 1. unfold modify at 1.
  set (p0 := set_store _ p).
  destruct (actionHandler _) as [handler|] eqn:Hh; [|done].
  unfold bind at 1. unfold gets at 1. unfold bind at 1.
  set (sub := if syncActions (settings p0) && hasSubscribeAction
              then actionSubscriber (dispatchedAction call) else ret tt).
  assert ((sub p0).1 <> OutOfFuel /\
          disconnected (connection (sub p0).2) = disconnected (connection p) /\
          store (sub p0).2 = store p0) as (Hfuel & Hconn & Hstore).
  { unfold sub. destruct (syncActions _ && _); [|done].
    unfold actionSubscriber.
    match goal with |- context [hookAction ?a p0] =>
      destruct (hookAction_connection a p0) as [H1 H2];
      pose proof (hookAction_store a p0) as H3 end.
    done. }
  pose proof (try_catch_outcome sub p0 Hfuel) as Ho.
  pose proof (try_catch_state sub tt p0) as Hs.
  destruct (try_catch sub _ p0) as [o p1]. simpl in Ho, Hs. subst o p1.
  unfold handlerCommits, bind, gets. rewrite Hstore.
  destruct Hcase as [Hopen|[Hnone|(h & Hsome & Hnil)]].
  - apply forEach_commit_connected. by rewrite Hconn.
  - done.
  - injection Hsome as <-. simpl. by rewrite Hnil.
Qed.

End PeerHooks.

(** ** The peer's pending queue *)

Section PeerQueue.
Context {RT : Runtime}.
Import Content.

Lemma commitAll_commits (ms : list ChangeRecord) (s : Store) :
  commits (commitAll ms s) = commits s ++ map commitArgs ms.
Proof.
  revert s. induction ms as [|m ms IH]; intros s; simpl; [by rewrite app_nil_r|].
  unfold commitAll in *. simpl. rewrite IH. simpl. by rewrite <- app_assoc.
Qed.


Lemma commitAll_snoc (ms : list ChangeRecord) (m : ChangeRecord) (s : Store) :
  commitAll (ms ++ [m]) s = Store_commit (type m) (payload m) (commitAll ms s).
Proof. unfold commitAll. by rewrite foldl_snoc. Qed.


(** The same loop when nothing has been received yet, the port is
    connected and the queue holds relayed types only: every entry is
    committed and sent. *)
Lemma pendingMutationsLoop_sends (fuel : nat) (p : ContentScript) :
  initialized p = true ->
  receivedMutations p = [] ->
  disconnected (connection p) = false ->
  Forall (fun m => type m <> vweReplaceState /\ type m ∉ ignoredMutations (settings p))
    (pendingMutations p) ->
  length (pendingMutations p) <= fuel ->
  pendingMutationsLoop fuel p =
  (Returned tt,
   set_pendingMutations (fun _ => [])
     (set_connection
        {| disconnected := false;
           outbox := outbox (connection p) ++ map SyncMutation (pendingMutations p) |}
        (set_store (commitAll (pendingMutations p)) p))).
Proof.
  revert p. induction fuel as [|fuel IH]; intros p Hi Hrm Hd Hall Hlen.
  - destruct p as [st se id co rm ra i pm pa]; simpl in *.
    destruct pm; [|simpl in Hlen; lia]. subst. simpl. unfold bind, gets, ret; simpl.
    rewrite app_nil_r. by destruct co; simpl in *; subst.
  - destruct p as [st se id co rm ra i pm pa]; simpl in *. subst.
    destruct pm as [|m rest].
    { unfold bind, gets, ret; simpl. rewrite app_nil_r. by destruct co; simpl in *; subst. }
    apply Forall_cons in Hall as [[Hr Hig] Hall].
    unfold bind at 1. unfold gets at 1. simpl.
    unfold bind at 1. unfold modify at 1. unfold commit.
    unfold bind at 1. unfold bind at 1. unfold modify at 1.
    rewrite hookMutation_initialized by done. simpl.
    unfold sendMutation. rewrite postMessage_run. simpl. rewrite Hd.
    simpl in Hlen. rewrite IH by (simpl; auto; lia). simpl.
    unfold set_pendingMutations, set_connection, set_store; simpl.
    destruct m; simpl. by rewrite <- app_assoc.
Qed.

(** Mutations committed before the initial state arrived are queued. *)
Lemma commits_before_initialization (ms : list ChangeRecord) (p : ContentScript) :
  initialized p = false ->
  Forall (fun m => type m <> vweReplaceState /\ type m ∉ ignoredMutations (settings p)) ms ->
  forEach ms (fun m => commit (type m) (payload m)) p =
  (Returned tt,
   set_pendingMutations (fun l => l ++ ms) (set_store (commitAll ms) p)).
Proof.
  revert p. induction ms as [|m ms IH]; intros p Hi Hall.
  - destruct p; simpl. unfold ret, set_pendingMutations, set_store; simpl.
    by rewrite app_nil_r.
  - apply Forall_cons in Hall as [[Hr Hig] Hall]. simpl.
    unfold bind at 1. unfold commit. unfold bind at 1. unfold modify at 1.
    rewrite hookMutation_pending by done.
    rewrite IH by done.
    destruct p, m; unfold set_pendingMutations, set_store; simpl.
    by rewrite <- app_assoc.
Qed.

End PeerQueue.

(** ** The peer: initial state and the pending queue *)

Section PeerInitialState.
Context {RT : Runtime}.
Import Content.

Lemma commit_reserved (data : Value) (p : ContentScript) :
  commit vweReplaceState data p
  = (Returned tt, set_store (Store_commit vweReplaceState data) p).
Proof. unfold commit, bind, modify, hookMutation. by rewrite bool_decide_eq_true_2. Qed.


Lemma processPendingMutations_sends (fuel : nat) (p : ContentScript) :
  initialized p = true ->
  receivedMutations p = [] ->
  disconnected (connection p) = false ->
  Forall (fun m => type m <> vweReplaceState /\ type m ∉ ignoredMutations (settings p))
    (pendingMutations p) ->
  length (pendingMutations p) <= fuel ->
  processPendingMutations fuel p =
  (Returned tt,
   set_pendingMutations (fun _ => [])
     (set_connection
        {| disconnected := false;
           outbox := outbox (connection p) ++ map SyncMutation (pendingMutations p) |}
        (set_store (commitAll (pendingMutations p)) p))).
Proof.
  intros Hi Hrm Hd Hall Hlen. unfold processPendingMutations, bind, gets.
  destruct (pendingMutations p) as [|m rest] eqn:E.
  - simpl. unfold ret. destruct p as [? ? ? co ? ? ? ? ?]; simpl in *. subst.
    rewrite app_nil_r. by destruct co; simpl in *; subst.
  - rewrite bool_decide_eq_false_2 by done. rewrite <- E in *.
    by apply pendingMutationsLoop_sends.
Qed.


(** C1, as the code has it.  Mutations that a peer commits before its
    initial state arrived (none of the reserved type, none ignored) are
    appended to [pendingMutations] in order and nothing is posted.  When
    [@@STORE_SYNC_STATE] then arrives, each of them is committed with
    its own type and payload, in queue order, and since each of these
    commits runs the hook with [initialized] set and an empty received
    list, each is also posted to the hub as [@@STORE_SYNC_MUTATION]: the
    queued mutations appear on the wire, in queue order. *)
Theorem queued_mutations_are_replayed_and_sent
    (st : Store) (s : Settings) (id : string) (port : Port)
    (ms : list ChangeRecord) (data : Value) (fuel : nat) :
  disconnected port = false ->
  Forall (fun m => type m <> vweReplaceState /\ type m ∉ ignoredMutations s) ms ->
  length ms <= fuel ->
  exists p1 p2 : ContentScript,
    forEach ms (fun m => commit (type m) (payload m)) (new st s id port)
      = (Returned tt, p1) /\
    pendingMutations p1 = ms /\
    connection p1 = port /\
    onMessage fuel (SyncState data) p1 = (Returned tt, p2) /\
    commits (store p2) =
      commits (store p1) ++ (vweReplaceState, data) :: map commitArgs ms /\
    outbox (connection p2) = outbox port ++ map SyncMutation ms /\
    pendingMutations p2 = [] /\
    initialized p2 = true.
Proof.
  intros Hd Hall Hlen.
  rewrite commits_before_initialization by done.
  eexists. eexists. split; [done|]. simpl. split; [done|]. split; [done|].
  unfold onMessage. unfold bind at 1. rewrite commit_reserved.
  unfold bind at 1. unfold modify at 1.
  rewrite processPendingMutations_sends by (simpl; auto).
  split; [reflexivity|]. simpl.
  rewrite commitAll_commits. simpl. by rewrite <- app_assoc.
Qed.

End PeerInitialState.

(** ** Echo matching *)

Section EchoMatching.
Context {RT : Runtime}.

Lemma sameTypeAndPayload_true (b a : ChangeRecord) :
  sameTypeAndPayload b a = true <->
  type a = type b /\ JSON_stringify (payload a) = JSON_stringify (payload b).
Proof. unfold sameTypeAndPayload. by rewrite andb_true_iff, !bool_decide_eq_true. Qed.

Lemma sameTypeAndPayload_false (b a : ChangeRecord) :
  sameTypeAndPayload b a = false <->
  ~ (type a = type b /\ JSON_stringify (payload a) = JSON_stringify (payload b)).
Proof. rewrite <- sameTypeAndPayload_true. by destruct (sameTypeAndPayload b a). Qed.


Lemma findIndex_exists {A} (p : A -> bool) (l : list A) (x : A) :
  x ∈ l -> p x = true -> exists i, findIndex p l = Some i.
Proof.
  intros Hx Hp. destruct (findIndex p l) as [i|] eqn:E; [eauto|].
  rewrite findIndex_None in E. rewrite (E x Hx) in Hp. done.
Qed.

Lemma findIndex_snoc_bound {A} (f : A -> bool) (l : list A) (x : A) :
  f x = true ->
  exists i, findIndex f (l ++ [x]) = Some i /\ i <= length l /\
    ((forall e, e ∈ l -> f e = false) -> i = length l).
Proof.
  intros Hx.
  destruct (findIndex_exists f (l ++ [x]) x) as [i Hi]; [|done|].
  { apply elem_of_app. right. by apply list_elem_of_singleton. }
  exists i. split; [done|].
  destruct (findIndex_Some _ _ _ Hi) as (y & Hy & Hfy & _).
  pose proof (lookup_lt_Some _ _ _ Hy) as Hlt. rewrite length_app in Hlt. simpl in Hlt.
  split; [lia|]. intros Hno.
  destruct (decide (i = length l)) as [|Hne]; [done|]. exfalso.
  rewrite lookup_app_l in Hy by lia.
  rewrite (Hno y) in Hfy; [done|]. apply list_elem_of_lookup. eauto.
Qed.



Lemma length_delete_one {A} (l : list A) (i : nat) (x : A) :
  l !! i = Some x -> S (length (delete i l)) = length l.
Proof.
  intros H. rewrite length_delete by eauto.
  apply lookup_lt_Some in H. lia.
Qed.


(** The peer removes the first record that matches a hooked action; a
    record matches when its type and its serialised payload are those of
    the action. *)
Lemma peer_action_first_match (a : ChangeRecord) (p : Content.ContentScript) :
  Content.initialized p = true ->
  type a ∉ ignoredActions (Content.settings p) ->
  (exists e, e ∈ Content.receivedActions p /\ sameTypeAndPayload a e = true) ->
  exists i e,
    Content.receivedActions p !! i = Some e /\
    sameTypeAndPayload a e = true /\
    (forall j y, j < i -> Content.receivedActions p !! j = Some y ->
                 sameTypeAndPayload a y = false) /\
    Content.hookAction a p
      = (Returned tt, Content.set_receivedActions (delete i) p) /\
    S (length (delete i (Content.receivedActions p)))
      = length (Content.receivedActions p).
Proof.
  intros Hi Hig (e & He & Hm).
  destruct (findIndex_exists _ _ _ He Hm) as [i Hfind].
  destruct (findIndex_Some _ _ _ Hfind) as (x & Hx & Hpx & Hfirst).
  exists i, x. rewrite hookAction_initialized, Hfind by done.
  repeat split; auto. by eapply length_delete_one.
Qed.

(** A hooked action without a record of its type and serialised payload
    is sent, whatever records of its type the list holds. *)
Lemma peer_action_no_match (a : ChangeRecord) (p : Content.ContentScript) :
  Content.initialized p = true ->
  type a ∉ ignoredActions (Content.settings p) ->
  (forall e, e ∈ Content.receivedActions p -> sameTypeAndPayload a e = false) ->
  Content.hookAction a p = Content.sendAction a p.
Proof.
  intros Hi Hig Hno. rewrite hookAction_initialized by done.
  by rewrite (proj2 (findIndex_None _ _) Hno).
Qed.

Lemma peer_mutation_no_match (m : ChangeRecord) (p : Content.ContentScript) :
  Content.initialized p = true ->
  type m <> vweReplaceState ->
  type m ∉ ignoredMutations (Content.settings p) ->
  (forall e, e ∈ Content.receivedMutations p -> sameTypeAndPayload m e = false) ->
  Content.hookMutation m p = Content.sendMutation m p.
Proof.
  intros Hi Hr Hig Hno. rewrite hookMutation_initialized by done.
  by rewrite (proj2 (findIndex_None _ _) Hno).
Qed.



End EchoMatching.

(** ** The claims on echo matching, sending and dispatching *)

Section Protocol.
Context {RT : Runtime}.

(** C3, as the code has it.  At an initialized peer, [hookAction]
    matches a hooked action (of a type that is not ignored) against
    [receivedActions] by type and by serialised payload, as [hookMutation]
    does for mutations: when some record has the action's type and a
    payload with the same [JSON.stringify], the first such record is
    removed and nothing is posted; when the records of the action's type
    all have payloads that serialise differently, no record is removed
    and the action is sent. *)
Theorem peer_action_echo_needs_equal_payload
    (a : ChangeRecord) (p : Content.ContentScript) :
  Content.initialized p = true ->
  type a ∉ ignoredActions (Content.settings p) ->
  ((exists e, e ∈ Content.receivedActions p /\ type e = type a /\
              JSON_stringify (payload e) = JSON_stringify (payload a)) ->
   exists i e,
     Content.receivedActions p !! i = Some e /\
     type e = type a /\
     JSON_stringify (payload e) = JSON_stringify (payload a) /\
     (forall j y, j < i -> Content.receivedActions p !! j = Some y ->
        ~ (type y = type a /\
           JSON_stringify (payload y) = JSON_stringify (payload a))) /\
     Content.hookAction a p
       = (Returned tt, Content.set_receivedActions (delete i) p)) /\
  ((forall e, e ∈ Content.receivedActions p -> type e = type a ->
              JSON_stringify (payload e) <> JSON_stringify (payload a)) ->
   Content.hookAction a p = Content.sendAction a p /\
   Content.receivedActions (Content.hookAction a p).2 = Content.receivedActions p /\
   (disconnected (Content.connection p) = false ->
    outbox (Content.connection (Content.hookAction a p).2)
      = outbox (Content.connection p) ++ [SyncAction a])).
Proof.
  intros Hi Hig. split.
  - intros (e & He & Hty & Hpl).
    destruct (peer_action_first_match a p Hi Hig) as (i & x & Hx & Hm & Hfirst & Hrun & _).
    { exists e. split; [done|]. by apply sameTypeAndPayload_true. }
    apply sameTypeAndPayload_true in Hm as [Hty' Hpl'].
    exists i, x. repeat split; auto.
    intros j y Hj Hy. apply sameTypeAndPayload_false. by eapply Hfirst.
  - intros Hno. rewrite peer_action_no_match; auto.
    + split; [done|]. unfold Content.sendAction. rewrite postMessage_run.
      destruct (disconnected (Content.connection p)); [done|]. simpl. by split.
    + intros e He. apply sameTypeAndPayload_false. intros [Hty Hpl].
      by apply (Hno e).
Qed.

(** C4, as the code has it.  The hub wraps every [postMessage] in a
    [try]/[catch]: [sendMutation], [sendAction] and [syncCurrentState]
    always return, and so do the hub's hooks, its message handler and
    whatever else the hub does in answer to an event.
    The peer's [sendMutation] and [sendAction] call [postMessage] bare:
    on a disconnected port they throw, and the exception leaves the
    hook.  From the mutation hook it leaves the [commit] that ran the
    hook, and the handler of [@@STORE_SYNC_STATE] when the replay of the
    first queued mutation runs into it.  From the action hook it reaches
    the store, which catches what its action subscribers throw: a
    [dispatch], and the handler of [@@STORE_SYNC_ACTION], return when the
    store has no action of the type or the handler of the action commits
    nothing. *)
Theorem hub_sends_catch_peer_sends_throw :
  (forall (b : Background.BackgroundScript) (c : nat) (r : ChangeRecord) (msg : Message),
     (Background.sendMutation c r b).1 = Returned tt /\
     (Background.sendAction c r b).1 = Returned tt /\
     (Background.syncCurrentState c b).1 = Returned tt /\
     (Background.hookMutation r b).1 = Returned tt /\
     (Background.hookAction r b).1 = Returned tt /\
     (Background.onMessage c msg b).1 = Returned tt) /\
  (forall (b : Background.BackgroundScript) (e : Background.Event),
     (Background.handle e b).1 = Returned tt) /\
  (forall (p : Content.ContentScript) (r : ChangeRecord),
     disconnected (Content.connection p) = true ->
     Content.sendMutation r p = (Thrown TransportError, p) /\
     Content.sendAction r p = (Thrown TransportError, p) /\
     (Content.initialized p = true ->
      type r <> vweReplaceState ->
      type r ∉ ignoredMutations (Content.settings p) ->
      (forall e, e ∈ Content.receivedMutations p -> sameTypeAndPayload r e = false) ->
      Content.hookMutation r p = (Thrown TransportError, p) /\
      (Content.commit (type r) (payload r) p).1 = Thrown TransportError) /\
     (Content.initialized p = true ->
      type r ∉ ignoredActions (Content.settings p) ->
      (forall e, e ∈ Content.receivedActions p -> sameTypeAndPayload r e = false) ->
      Content.hookAction r p = (Thrown TransportError, p))) /\
  (forall (fuel : nat) (data : Value) (p : Content.ContentScript)
          (r : ChangeRecord) (rest : list ChangeRecord),
     disconnected (Content.connection p) = true ->
     Content.pendingMutations p = r :: rest ->
     type r <> vweReplaceState ->
     type r ∉ ignoredMutations (Content.settings p) ->
     (forall e, e ∈ Content.receivedMutations p -> sameTypeAndPayload r e = false) ->
     (Content.onMessage (S fuel) (SyncState data) p).1 = Thrown TransportError) /\
  (forall (call : DispatchCall) (p : Content.ContentScript),
     actionHandler (type (dispatchedAction call)) = None \/
     (exists handler,
        actionHandler (type (dispatchedAction call)) = Some handler /\
        handler (payload (dispatchedAction call)) (state (Content.store p)) = []) ->
     (Content.dispatch call p).1 = Returned tt) /\
  (forall (fuel : nat) (r : ChangeRecord) (p : Content.ContentScript),
     actionHandler (type r) = None \/
     (exists handler,
        actionHandler (type r) = Some handler /\
        handler (objectStylePayload (type r) (payload r))
          (state (Content.store p)) = []) ->
     (Content.onMessage fuel (SyncAction r) p).1 = Returned tt).
Proof.
  split; [|split; [|split; [|split; [|split]]]].
  - intros b c r msg.
    rewrite sendMutation_run, sendAction_run, syncCurrentState_run,
      hookMutation_run, hookAction_run.
    repeat split; auto.
    apply (handle_returns (Background.Received c msg)).
  - intros b e. apply handle_returns.
  - intros p r Hd.
    assert (Content.sendMutation r p = (Thrown TransportError, p)) as Hsm.
    { unfold Content.sendMutation. by rewrite postMessage_run, Hd. }
    assert (Content.sendAction r p = (Thrown TransportError, p)) as Hsa.
    { unfold Content.sendAction. by rewrite postMessage_run, Hd. }
    repeat split; auto.
    + by rewrite peer_mutation_no_match.
    + unfold Content.commit, bind, modify.
      destruct r as [ty pl]; simpl in *.
      rewrite peer_mutation_no_match by done.
      unfold Content.sendMutation. rewrite postMessage_run. simpl. by rewrite Hd.
    + intros. by rewrite peer_action_no_match.
  - intros fuel data p r rest Hd Hq Hr Hig Hno.
    unfold Content.onMessage. unfold bind at 1. rewrite commit_reserved.
    unfold bind at 1. unfold modify at 1.
    unfold Content.processPendingMutations. unfold bind at 1. unfold gets at 1.
    simpl. rewrite Hq. simpl.
    unfold bind at 1. unfold gets at 1. simpl. rewrite Hq.
    unfold bind at 1. unfold modify at 1.
    unfold bind at 1. unfold Content.commit. unfold bind at 1. unfold modify at 1.
    rewrite peer_mutation_no_match by done.
    unfold Content.sendMutation. rewrite postMessage_run. simpl. by rewrite Hd.
  - intros call p Hcase. apply dispatch_returns. by right.
  - intros fuel r p Hcase. unfold Content.onMessage, bind, gets.
    destruct (Content.initialized p); simpl; [|done].
    apply (dispatch_returns (DispatchObject r)). by right.
Qed.

End Protocol.

(** ** Payloads, and the shape of [dispatch] *)

Section PayloadsAndDispatch.
Context {RT : Runtime}.

Lemma posted_fields (msg : Message) (D : Background.Connection) :
  Background.skipped (Background.posted msg D) = Background.skipped D /\
  Background.receivedMutations (Background.posted msg D)
    = Background.receivedMutations D /\
  disconnected (Background.port (Background.posted msg D))
    = disconnected (Background.port D).
Proof.
  unfold Background.posted, Port_postMessage.
  by destruct (disconnected (Background.port D)) eqn:E.
Qed.

(** C7.  Two mutations of one type whose payloads serialise differently
    are told apart by the echo check of the peer and by that of the hub.
    A received list whose records all carry the first payload does not
    stop the second mutation: the peer removes no record and posts the
    mutation on its port, and the hub posts it to that connection.  A
    peer that commits the two, one after the other, posts both, in that
    order.  In every state a hub can reach, when it receives the two,
    one after the other, from one connection, every other registered
    connection with the marker and a connected port is posted both, in
    that order, and the origin, if it is registered with the marker, is
    posted neither and is left as it was. *)
Theorem same_type_other_payload_is_no_echo (m1 m2 : ChangeRecord) :
  type m1 = type m2 ->
  JSON_stringify (payload m1) <> JSON_stringify (payload m2) ->
  sameTypeAndPayload m2 m1 = false /\
  (forall p : Content.ContentScript,
     Content.initialized p = true ->
     type m2 <> vweReplaceState ->
     type m2 ∉ ignoredMutations (Content.settings p) ->
     (forall e, e ∈ Content.receivedMutations p ->
        JSON_stringify (payload e) = JSON_stringify (payload m1)) ->
     Content.hookMutation m2 p = Content.sendMutation m2 p /\
     Content.receivedMutations (Content.hookMutation m2 p).2
       = Content.receivedMutations p /\
     (disconnected (Content.connection p) = false ->
      Content.hookMutation m2 p
      = (Returned tt,
         Content.set_connection
           {| disconnected := false;
              outbox := outbox (Content.connection p) ++ [SyncMutation m2] |} p))) /\
  (forall p : Content.ContentScript,
     Content.initialized p = true ->
     disconnected (Content.connection p) = false ->
     Content.receivedMutations p = [] ->
     type m1 <> vweReplaceState ->
     type m1 ∉ ignoredMutations (Content.settings p) ->
     exists p1 p2,
       Content.commit (type m1) (payload m1) p = (Returned tt, p1) /\
       Content.commit (type m2) (payload m2) p1 = (Returned tt, p2) /\
       Content.receivedMutations p2 = [] /\
       outbox (Content.connection p2)
       = outbox (Content.connection p) ++ [SyncMutation m1; SyncMutation m2]) /\
  (forall (b : Background.BackgroundScript) (d : nat) (D : Background.Connection),
     NoDup (Background.connections b) ->
     d ∈ Background.connections b ->
     Background.heap b !! d = Some D ->
     Background.skipped D = false ->
     type m2 ∉ ignoredMutations (Background.settings b) ->
     (forall e, e ∈ Background.receivedMutations D ->
        JSON_stringify (payload e) = JSON_stringify (payload m1)) ->
     Background.heap (Background.hookMutation m2 b).2 !! d
       = Some (Background.posted (SyncMutation m2) D)) /\
  (forall (b : Background.BackgroundScript) (c d : nat) (D : Background.Connection),
     Background.reachable b ->
     d ∈ Background.connections b ->
     d <> c ->
     Background.heap b !! d = Some D ->
     Background.skipped D = false ->
     disconnected (Background.port D) = false ->
     type m1 ∉ ignoredMutations (Background.settings b) ->
     exists b1 b2 D2,
       Background.onMessage c (SyncMutation m1) b = (Returned tt, b1) /\
       Background.onMessage c (SyncMutation m2) b1 = (Returned tt, b2) /\
       Background.heap b2 !! d = Some D2 /\
       outbox (Background.port D2)
         = outbox (Background.port D) ++ [SyncMutation m1; SyncMutation m2] /\
       forall C, c ∈ Background.connections b ->
         Background.heap b !! c = Some C ->
         Background.skipped C = false ->
         Background.heap b2 !! c = Some C).
Proof.
  intros Hty Hpl.
  assert (forall e, JSON_stringify (payload e) = JSON_stringify (payload m1) ->
            sameTypeAndPayload m2 e = false) as Hdiff.
  { intros e He. apply sameTypeAndPayload_false. intros [_ H]. congruence. }
  split; [by apply Hdiff|]. split; [|split; [|split]].
  - intros p Hi Hr Hig Hall.
    assert (Content.hookMutation m2 p = Content.sendMutation m2 p) as Hsend
      by (apply peer_mutation_no_match; auto).
    rewrite Hsend. unfold Content.sendMutation. rewrite postMessage_run.
    split; [done|]. destruct (disconnected (Content.connection p)); by split.
  - intros p Hi Hopen Hrm Hr Hig.
    assert (forall (m : ChangeRecord) (q : Content.ContentScript),
              Content.initialized q = true ->
              disconnected (Content.connection q) = false ->
              Content.receivedMutations q = [] ->
              type m <> vweReplaceState ->
              type m ∉ ignoredMutations (Content.settings q) ->
              Content.commit (type m) (payload m) q
              = (Returned tt,
                 Content.set_connection
                   {| disconnected := false;
                      outbox := outbox (Content.connection q) ++ [SyncMutation m] |}
                   (Content.set_store (Store_commit (type m) (payload m)) q)))
      as Hcommit.
    { intros m q Hi' Hopen' Hrm' Hr' Hig'. unfold Content.commit, bind, modify.
      rewrite hookMutation_initialized by done. simpl. rewrite Hrm'. simpl.
      unfold Content.sendMutation. rewrite postMessage_run. simpl. rewrite Hopen'.
      by destruct m. }
    rewrite (Hcommit m1 p) by done.
    eexists. eexists. split; [done|].
    rewrite Hcommit by (simpl; auto; congruence).
    split; [done|]. simpl. split; [done|]. by rewrite <- app_assoc.
  - intros b d D Hnd Hd HD Hs Hig Hall.
    rewrite hookMutation_run. simpl.
    rewrite (proj2 (isIgnored_false _ _) Hig). simpl.
    rewrite updateAll_lookup_in, HD by done. simpl.
    rewrite afterRelayMutation_fresh; auto.
  - intros b c d D Hreach Hd Hdc HD Hs Hopen Hig.
    pose proof (reachable_consistent _ Hreach) as Hcons.
    pose proof (consistent_onMessage c (SyncMutation m1) b Hcons) as Hcons1.
    pose proof Hcons as (Hnd & _).
    set (b1 := (Background.onMessage c (SyncMutation m1) b).2) in *.
    set (D1 := Background.posted (SyncMutation m1) D).
    destruct (hub_round_fields c m1 b Hig) as (Hse & Hcs & _). fold b1 in Hse, Hcs.
    destruct (posted_fields (SyncMutation m1) D) as (Hs1 & Hrm1 & Hd1).
    fold D1 in Hs1, Hrm1, Hd1.
    assert (Background.heap b1 !! d = Some D1) as HD1.
    { apply hub_round_other; auto. by apply (consistent_no_match b d D m1). }
    assert (type m2 ∉ ignoredMutations (Background.settings b1)) as Hig2.
    { by rewrite Hse, <- Hty. }
    exists b1, (Background.onMessage c (SyncMutation m2) b1).2,
      (Background.posted (SyncMutation m2) D1).
    split; [by unfold b1; rewrite onMessage_mutation_run|].
    split; [by rewrite onMessage_mutation_run|].
    split.
    { apply hub_round_other; auto; try congruence.
      apply (consistent_no_match b1 d D1 m2); auto; congruence. }
    split.
    { rewrite posted_connected by congruence. unfold D1.
      rewrite posted_connected by done. by rewrite <- app_assoc. }
    intros C Hc HC HsC.
    apply hub_round_origin; auto; try congruence.
    by apply hub_round_origin.
Qed.

Lemma updateAll_lookup_fmap {X} (g : Background.Connection -> X)
    (f : Background.Connection -> Background.Connection) (cs : list nat)
    (b : Background.BackgroundScript) (d : nat) :
  (forall D, g (f D) = g D) ->
  g <$> Background.heap (Background.updateAll f cs b) !! d
  = g <$> Background.heap b !! d.
Proof.
  intros Hg. revert b. induction cs as [|c cs IH]; intros b; [done|].
  unfold Background.updateAll in *. simpl. rewrite IH. simpl.
  destruct (decide (c = d)) as [->|Hne].
  - rewrite list_lookup_alter_eq. destruct (Background.heap b !! d); simpl; [|done].
    by rewrite Hg.
  - by rewrite list_lookup_alter_ne.
Qed.

Lemma afterRelayMutation_receivedActions (r : ChangeRecord) (D : Background.Connection) :
  Background.receivedActions (Background.afterRelayMutation r D)
  = Background.receivedActions D.
Proof.
  unfold Background.afterRelayMutation. destruct (Background.skipped D); [done|].
  by destruct (scanDown _ _ _).
Qed.

(** The commits of a handler leave the action records of the hub where
    they are, and the record of the calls of [dispatch]. *)
Lemma committed_receivedActions (ms : list (string * Value))
    (b : Background.BackgroundScript) (d : nat) :
  Background.receivedActions <$> Background.heap (Background.committed ms b) !! d
  = Background.receivedActions <$> Background.heap b !! d.
Proof.
  revert b. induction ms as [|m ms IH]; intros b; [done|].
  unfold Background.committed in *. simpl. rewrite IH, commit_run.
  rewrite hookMutation_run. simpl. destruct (isIgnored _ _); [done|]. simpl.
  etrans; [apply updateAll_lookup_fmap|done].
  intros D. apply afterRelayMutation_receivedActions.
Qed.

Lemma committed_commits (ms : list (string * Value))
    (b : Background.BackgroundScript) :
  commits (Background.store (Background.committed ms b))
  = commits (Background.store b) ++ ms.
Proof.
  revert b. induction ms as [|[ty pl] ms IH]; intros b; [by rewrite app_nil_r|].
  unfold Background.committed in *. simpl. rewrite IH, commit_run.
  rewrite hookMutation_run. simpl.
  destruct (isIgnored _ _); simpl; [by rewrite <- app_assoc|].
  match goal with |- context [Background.updateAll ?f ?l ?x] =>
    destruct (updateAll_fields f l x) as (-> & _) end.
  simpl. by rewrite <- app_assoc.
Qed.

Lemma committed_dispatches (ms : list (string * Value))
    (b : Background.BackgroundScript) :
  dispatches (Background.store (Background.committed ms b))
  = dispatches (Background.store b).
Proof.
  revert b. induction ms as [|m ms IH]; intros b; [done|].
  unfold Background.committed in *. simpl. rewrite IH, commit_run.
  rewrite hookMutation_run. simpl. destruct (isIgnored _ _); [done|]. simpl.
  match goal with |- context [Background.updateAll ?f ?l ?x] =>
    destruct (updateAll_fields f l x) as (-> & _) end.
  done.
Qed.

(** C10.  An initialized peer that receives [@@STORE_SYNC_ACTION]
    appends the record to [receivedActions] and calls [dispatch] with the
    record object as its one argument; the hub, for the same message,
    appends the record to the connection's [receivedActions] and calls
    [dispatch] with the type and the payload as two arguments.  The two
    calls do not have the same shape.  Each side records its call and no
    other; without the action hook the appended record stays where it
    is.  The hub's handler always returns; the peer's returns unless a
    commit of the action's handler runs into a disconnected port. *)
Theorem action_sync_dispatch_shapes (r : ChangeRecord) :
  (forall (fuel : nat) (p : Content.ContentScript),
     Content.initialized p = true ->
     Content.onMessage fuel (SyncAction r) p
       = Content.dispatch (DispatchObject r)
           (Content.set_receivedActions (fun l => l ++ [r]) p) /\
     dispatches (Content.store (Content.onMessage fuel (SyncAction r) p).2)
       = dispatches (Content.store p) ++ [DispatchObject r] /\
     (syncActions (Content.settings p) = false ->
      Content.receivedActions (Content.onMessage fuel (SyncAction r) p).2
        = Content.receivedActions p ++ [r]) /\
     (disconnected (Content.connection p) = false \/
      actionHandler (type r) = None \/
      (exists handler,
         actionHandler (type r) = Some handler /\
         handler (objectStylePayload (type r) (payload r))
           (state (Content.store p)) = []) ->
      (Content.onMessage fuel (SyncAction r) p).1 = Returned tt)) /\
  (forall (c : nat) (b : Background.BackgroundScript),
     Background.onMessage c (SyncAction r) b
       = Background.dispatch (DispatchTypePayload (type r) (payload r))
           (Background.updateConnection c
              (Background.set_receivedActions (fun l => l ++ [r])) b) /\
     (Background.onMessage c (SyncAction r) b).1 = Returned tt /\
     dispatches (Background.store (Background.onMessage c (SyncAction r) b).2)
       = dispatches (Background.store b)
         ++ [DispatchTypePayload (type r) (payload r)] /\
     (syncActions (Background.settings b) = false ->
      Background.receivedActions
        <$> Background.heap (Background.onMessage c (SyncAction r) b).2 !! c
      = (fun D => Background.receivedActions D ++ [r])
        <$> Background.heap b !! c)) /\
  DispatchObject r <> DispatchTypePayload (type r) (payload r).
Proof.
  split; [|split; [|done]].
  - intros fuel p Hi.
    assert (Content.onMessage fuel (SyncAction r) p
            = Content.dispatch (DispatchObject r)
                (Content.set_receivedActions (fun l => l ++ [r]) p)) as ->.
    { unfold Content.onMessage, bind, gets, modify. by rewrite Hi. }
    split; [done|]. split; [by rewrite dispatch_dispatches|]. split.
    + intros Hsync. by rewrite dispatch_unhooked.
    + intros Hcase. by apply dispatch_returns.
  - intros c b.
    assert (Background.onMessage c (SyncAction r) b
            = Background.dispatch (DispatchTypePayload (type r) (payload r))
                (Background.updateConnection c
                   (Background.set_receivedActions (fun l => l ++ [r])) b)) as ->.
    { done. }
    split; [done|]. rewrite dispatch_run. split; [done|]. simpl. split.
    + destruct (actionHandler (type r)); [|done].
      by rewrite committed_dispatches, afterSubscriber_store.
    + intros Hsync.
      assert (Background.receivedActions
                <$> Background.heap
                      (Background.set_store
                         (Store_recordDispatch
                            (DispatchTypePayload (type r) (payload r)))
                         (Background.updateConnection c
                            (Background.set_receivedActions (fun l => l ++ [r])) b)) !! c
              = (fun D => Background.receivedActions D ++ [r])
                <$> Background.heap b !! c) as Hpush.
      { simpl. rewrite list_lookup_alter_eq. by destruct (Background.heap b !! c). }
      destruct (actionHandler (type r)); [|done].
      rewrite committed_receivedActions. unfold Background.afterSubscriber. simpl.
      by rewrite Hsync.
Qed.

End PayloadsAndDispatch.

(** ** The claims at concrete inputs *)

Section Examples.
Import Json.

(** C1 does not hold as stated.  A fresh peer commits [inc] before its
    initial state arrived: the mutation is queued and nothing is posted.
    When [@@STORE_SYNC_STATE] arrives, the replay commits [inc] again,
    and the hook of that commit posts it: the queued mutation is on the
    wire. *)
Lemma queued_mutation_reaches_the_wire :
  Content.pendingMutations queuedPeer = [inc] /\
  outbox (Content.connection queuedPeer) = [] /\
  (Content.onMessage 1 (SyncState initialState) queuedPeer).1 = Returned tt /\
  commits (Content.store (Content.onMessage 1 (SyncState initialState) queuedPeer).2)
    = [("inc", JNull); (vweReplaceState, initialState); ("inc", JNull)] /\
  outbox (Content.connection (Content.onMessage 1 (SyncState initialState) queuedPeer).2)
    = [SyncMutation inc].
Proof. repeat split; reflexivity. Qed.

Lemma queued_mutations_are_replayed_and_sent_witness :
  disconnected openPort = false /\
  Forall (fun m => type m <> vweReplaceState /\ type m ∉ ignoredMutations noSettings)
    [inc; x1] /\
  length [inc; x1] <= 2 /\
  exists p1 p2 : Content.ContentScript,
    forEach [inc; x1] (fun m => Content.commit (type m) (payload m))
      (Content.new emptyStore noSettings "k3j9x0q2a" openPort) = (Returned tt, p1) /\
    Content.pendingMutations p1 = [inc; x1] /\
    Content.connection p1 = openPort /\
    Content.onMessage 2 (SyncState initialState) p1 = (Returned tt, p2) /\
    commits (Content.store p2) =
      commits (Content.store p1) ++
      (vweReplaceState, initialState) :: map commitArgs [inc; x1] /\
    outbox (Content.connection p2) = outbox openPort ++ map SyncMutation [inc; x1] /\
    Content.pendingMutations p2 = [] /\
    Content.initialized p2 = true.
Proof.
  assert (Forall (fun m => type m <> vweReplaceState /\
                           type m ∉ ignoredMutations noSettings) [inc; x1]) as Hall.
  { repeat constructor; try done; apply not_elem_of_nil. }
  split; [reflexivity|]. split; [exact Hall|]. split; [simpl; lia|].
  apply (queued_mutations_are_replayed_and_sent emptyStore noSettings "k3j9x0q2a"
           openPort [inc; x1] initialState 2);
    [reflexivity | exact Hall | simpl; lia].
Defined.

(** C2 does not hold as stated.  With [inc] ignored, the hub appends the
    record received from the first tab to its list and commits it, but
    the hook returns before any relay pass: the record stays in the list
    and the second tab is posted nothing.  And when the record comes
    from a connection without the marker, the relay pass posts it to the
    tab but skips the sender: its record stays in its list. *)
Lemma ignored_mutation_neither_consumed_nor_relayed :
  Background.reachable (connectTwoTabs ignoringInc) /\
  Background.heap (connectTwoTabs ignoringInc) = [greeted tabA; greeted tabB] /\
  Background.skipped (greeted tabA) = false /\
  Background.skipped (greeted tabB) = false /\
  Background.onMessage 0 (SyncMutation inc) (connectTwoTabs ignoringInc)
  = (Returned tt,
     {| Background.store :=
          {| state := JObj [("counter", JNum 1)];
             commits := [("inc", JNull)]; dispatches := [] |};
        Background.settings := ignoringInc;
        Background.heap :=
          [Background.set_receivedMutations (fun _ => [inc]) (greeted tabA);
           greeted tabB];
        Background.connections := [0; 1];
        Background.savedStates := [] |}) /\
  Background.reachable devtoolsAndTab /\
  Background.heap devtoolsAndTab = [greeted devtools; greeted tabA] /\
  Background.heap (Background.onMessage 0 (SyncMutation inc) devtoolsAndTab).2
  = [Background.set_receivedMutations (fun _ => [inc]) (greeted devtools);
     Background.posted (SyncMutation inc) (greeted tabA)].
Proof.
  split; [|split; [|split; [|split; [|split; [|split]]]]]; try reflexivity.
  - unfold connectTwoTabs. do 2 apply Background.reachable_step.
    apply Background.reachable_new.
  - unfold devtoolsAndTab. do 2 apply Background.reachable_step.
    apply Background.reachable_new.
  - split; reflexivity.
Qed.

Lemma hub_round_consumes_echo_and_relays_once_witness :
  Background.reachable twoTabs /\
  0 ∈ Background.connections twoTabs /\
  Background.heap twoTabs !! 0 = Some (greeted tabA) /\
  Background.skipped (greeted tabA) = false /\
  (type inc ∉ ignoredMutations (Background.settings twoTabs)) /\
  Background.heap (Background.onMessage 0 (SyncMutation inc) twoTabs).2 !! 0
    = Some (greeted tabA) /\
  Background.heap (Background.onMessage 0 (SyncMutation inc) twoTabs).2 !! 1
    = Some (Background.posted (SyncMutation inc) (greeted tabB)) /\
  outbox (Background.port (Background.posted (SyncMutation inc) (greeted tabB)))
    = [SyncState (state emptyStore); SyncMutation inc].
Proof.
  assert (Background.reachable twoTabs) as Hreach.
  { unfold twoTabs. do 2 apply Background.reachable_step.
    apply Background.reachable_new. }
  assert (0 ∈ Background.connections twoTabs) as H0 by compute_done.
  assert (type inc ∉ ignoredMutations (Background.settings twoTabs)) as Hig
    by apply not_elem_of_nil.
  destruct (hub_round_consumes_echo_and_relays_once
              twoTabs 0 (greeted tabA) inc Hreach H0 eq_refl eq_refl Hig)
    as (b' & Hrun & _ & _ & HA & Hothers).
  rewrite Hrun.
  destruct (Hothers 1 (greeted tabB)) as (HB & _ & _ & Hout);
    [done | compute_done | done | done |].
  repeat split; auto.
Defined.

(** C3 does not hold as stated.  An initialized peer holds the record of
    the action [open] with payload [1] and hooks the action [open] with
    payload [2]: the types are equal, yet no record is removed and the
    action is sent. *)
Lemma peer_action_of_same_type_is_sent :
  type open1 = type open2 /\
  Content.hookAction open2 (syncedPeer openPort [] [open1])
  = (Returned tt,
     Content.set_connection {| disconnected := false; outbox := [SyncAction open2] |}
       (syncedPeer openPort [] [open1])) /\
  Content.receivedActions
    (Content.hookAction open2 (syncedPeer openPort [] [open1])).2 = [open1].
Proof. repeat split; reflexivity. Qed.

Lemma peer_action_echo_needs_equal_payload_witness :
  Content.initialized (syncedPeer openPort [] [open1; open2]) = true /\
  (type open2 ∉ ignoredActions (Content.settings (syncedPeer openPort [] [open1; open2]))) /\
  exists i e,
    Content.receivedActions (syncedPeer openPort [] [open1; open2]) !! i = Some e /\
    type e = type open2 /\
    JSON_stringify (payload e) = JSON_stringify (payload open2) /\
    (forall j y, j < i ->
       Content.receivedActions (syncedPeer openPort [] [open1; open2]) !! j = Some y ->
       ~ (type y = type open2 /\
          JSON_stringify (payload y) = JSON_stringify (payload open2))) /\
    Content.hookAction open2 (syncedPeer openPort [] [open1; open2])
      = (Returned tt,
         Content.set_receivedActions (delete i) (syncedPeer openPort [] [open1; open2])).
Proof.
  split; [reflexivity|]. split; [apply not_elem_of_nil|].
  apply (peer_action_echo_needs_equal_payload open2
           (syncedPeer openPort [] [open1; open2]) eq_refl (not_elem_of_nil _)).
  exists open2. split; [apply list_elem_of_further, list_elem_of_here|]. by split.
Defined.

(** C4 does not hold as stated.  On a peer whose port is disconnected,
    the [postMessage] of [sendMutation] throws and nothing catches it:
    the exception leaves the [commit] that ran the hook, and it leaves
    the handler of [@@STORE_SYNC_STATE] when the replay of a queued
    mutation runs into it. *)
Lemma peer_send_failure_propagates :
  (Content.sendMutation inc (syncedPeer closedPort [] [])).1 = Thrown TransportError /\
  (Content.commit "inc" JNull (syncedPeer closedPort [] [])).1 = Thrown TransportError /\
  (Content.onMessage 1 (SyncState initialState) cutOffPeer).1 = Thrown TransportError.
Proof. repeat split; reflexivity. Qed.

Lemma hub_sends_catch_peer_sends_throw_witness :
  disconnected (Content.connection (syncedPeer closedPort [] [])) = true /\
  Content.sendMutation inc (syncedPeer closedPort [] [])
    = (Thrown TransportError, syncedPeer closedPort [] []) /\
  Content.sendAction open1 (syncedPeer closedPort [] [])
    = (Thrown TransportError, syncedPeer closedPort [] []) /\
  Content.hookAction open1 (syncedPeer closedPort [] [])
    = (Thrown TransportError, syncedPeer closedPort [] []) /\
  (Content.commit (type inc) (payload inc) (syncedPeer closedPort [] [])).1
    = Thrown TransportError /\
  (Content.onMessage 1 (SyncState initialState) cutOffPeer).1 = Thrown TransportError /\
  (Content.dispatch (DispatchObject open1) (syncedPeer closedPort [] [])).1
    = Returned tt /\
  (Content.onMessage 0 (SyncAction open1) (syncedPeer closedPort [] [])).1
    = Returned tt /\
  (Background.sendMutation 0 inc (hub noSettings [tabA])).1 = Returned tt.
Proof.
  destruct (hub_sends_catch_peer_sends_throw (RT:=runtime))
    as (Hhub & _ & Hpeer & Hreplay & Hdispatch & Haction).
  assert (forall e : ChangeRecord, e ∈ [] -> sameTypeAndPayload inc e = false) as Hno
    by (intros e He; by apply elem_of_nil in He).
  assert (forall e : ChangeRecord, e ∈ [] -> sameTypeAndPayload open1 e = false) as Hno'
    by (intros e He; by apply elem_of_nil in He).
  destruct (Hpeer (syncedPeer closedPort [] []) inc eq_refl) as (Hm & _ & Hc & _).
  destruct (Hpeer (syncedPeer closedPort [] []) open1 eq_refl) as (_ & Ha & _ & Hh).
  destruct (Hc eq_refl) as (_ & Hcommit); [done | apply not_elem_of_nil | exact Hno |].
  destruct (Hhub (hub noSettings [tabA]) 0 inc NoType) as (Hs & _).
  split; [reflexivity|]. split; [exact Hm|]. split; [exact Ha|].
  split; [apply (Hh eq_refl (not_elem_of_nil _) Hno')|].
  split; [exact Hcommit|].
  split; [apply (Hreplay 0 initialState cutOffPeer inc [] eq_refl eq_refl);
          [done | apply not_elem_of_nil | exact Hno]|].
  split; [apply Hdispatch; right; by eexists|].
  split; [apply Haction; right; by eexists|].
  exact Hs.
Defined.

(** C5 does not hold as stated.  With an empty [persistentStates] the
    hook of a relayed mutation still calls [browser.savePersistentStates],
    with the empty filtered object. *)
Lemma hub_saves_with_no_persistent_states :
  persistentStates (Background.settings twoTabs) = [] /\
  ("inc" ∉ ignoredMutations (Background.settings twoTabs)) /\
  Background.savedStates twoTabs = [] /\
  Background.savedStates (Background.commit "inc" JNull twoTabs).2 = [JObj []].
Proof. repeat split; try reflexivity. apply not_elem_of_nil. Qed.

Lemma hub_saves_after_every_relayed_mutation_witness :
  ("inc" ∉ ignoredMutations (Background.settings twoTabs)) /\
  Background.savedStates (Background.commit "inc" JNull twoTabs).2
    = Background.savedStates twoTabs ++
      [filterObject
         (Store_apply "inc" JNull (state (Background.store twoTabs)))
         (persistentStates (Background.settings twoTabs))].
Proof.
  split; [apply not_elem_of_nil|].
  destruct (hub_saves_after_every_relayed_mutation twoTabs "inc" JNull
              (not_elem_of_nil _)) as (b' & Hrun & _ & Hsaved & _).
  rewrite Hrun. exact Hsaved.
Defined.



Lemma same_type_other_payload_is_no_echo_witness :
  type x1 = type x2 /\
  JSON_stringify (payload x1) <> JSON_stringify (payload x2) /\
  sameTypeAndPayload x2 x1 = false /\
  Content.hookMutation x2 (syncedPeer openPort [x1] [])
    = (Returned tt,
       Content.set_connection
         {| disconnected := false;
            outbox := outbox (Content.connection (syncedPeer openPort [x1] []))
                      ++ [SyncMutation x2] |}
         (syncedPeer openPort [x1] [])) /\
  (exists p1 p2,
     Content.commit (type x1) (payload x1) (syncedPeer openPort [] []) = (Returned tt, p1) /\
     Content.commit (type x2) (payload x2) p1 = (Returned tt, p2) /\
     Content.receivedMutations p2 = [] /\
     outbox (Content.connection p2)
     = outbox (Content.connection (syncedPeer openPort [] []))
       ++ [SyncMutation x1; SyncMutation x2]) /\
  Background.heap (Background.hookMutation x2 (hub noSettings [tabWithX1])).2 !! 0
    = Some (Background.posted (SyncMutation x2) tabWithX1) /\
  exists b1 b2 D2,
    Background.onMessage 0 (SyncMutation x1) twoTabs = (Returned tt, b1) /\
    Background.onMessage 0 (SyncMutation x2) b1 = (Returned tt, b2) /\
    Background.heap b2 !! 1 = Some D2 /\
    outbox (Background.port D2)
      = outbox (Background.port (greeted tabB)) ++ [SyncMutation x1; SyncMutation x2] /\
    forall C, 0 ∈ Background.connections twoTabs ->
      Background.heap twoTabs !! 0 = Some C ->
      Background.skipped C = false ->
      Background.heap b2 !! 0 = Some C.
Proof.
  assert (JSON_stringify (payload x1) <> JSON_stringify (payload x2)) as Hne
    by (intros H; vm_compute in H; discriminate).
  assert (Background.reachable twoTabs) as Hreach.
  { unfold twoTabs. do 2 apply Background.reachable_step.
    apply Background.reachable_new. }
  destruct (same_type_other_payload_is_no_echo x1 x2 eq_refl Hne)
    as (Hdiff & Hpeer & Horigin & Hconn & Hseq).
  split; [reflexivity|]. split; [exact Hne|]. split; [exact Hdiff|].
  split; [|split; [|split]].
  - apply (Hpeer (syncedPeer openPort [x1] []));
      [reflexivity | done | apply not_elem_of_nil | | reflexivity].
    intros e He. apply list_elem_of_singleton in He as ->. reflexivity.
  - apply (Horigin (syncedPeer openPort [] []));
      [reflexivity | reflexivity | reflexivity | done | apply not_elem_of_nil].
  - apply Hconn; [compute_done | compute_done | reflexivity | reflexivity
                  | apply not_elem_of_nil |].
    intros e He. apply list_elem_of_singleton in He as ->. reflexivity.
  - apply (Hseq twoTabs 0 1 (greeted tabB));
      [exact Hreach | compute_done | lia | reflexivity | reflexivity | reflexivity
       | apply not_elem_of_nil].
Defined.

Lemma relay_skips_unmarked_connections_witness :
  Background.heap (hub noSettings [devtools; tabA]) !! 0 = Some devtools /\
  ((forall s, Background.name devtools <> Background.NameString s) \/
   exists n, Background.name devtools = Background.NameString n /\
             includes "vuex-webextensions" n = false) /\
  Background.heap (Background.hookMutation inc (hub noSettings [devtools; tabA])).2 !! 0
    = Some devtools /\
  Background.heap (Background.hookAction open1 (hub noSettings [devtools; tabA])).2 !! 0
    = Some devtools /\
  includes "vuex-webextensions" (connectionName (Background.settings (hub renamed [renamedTab])))
    = false /\
  Background.heap (Background.hookMutation inc (hub renamed [renamedTab])).2
    = Background.heap (hub renamed [renamedTab]).
Proof.
  destruct relay_skips_unmarked_connections as (Hskip & _ & Hnone).
  assert ((forall s, Background.name devtools <> Background.NameString s) \/
          exists n, Background.name devtools = Background.NameString n /\
                    includes "vuex-webextensions" n = false) as Hname.
  { right. exists "devtools-page". split; reflexivity. }
  split; [reflexivity|]. split; [exact Hname|].
  split; [exact (proj1 (Hskip (hub noSettings [devtools; tabA]) inc 0 devtools
                          eq_refl Hname))|].
  split; [exact (proj2 (Hskip (hub noSettings [devtools; tabA]) open1 0 devtools
                          eq_refl Hname))|].
  split; [reflexivity|].
  apply (Hnone (hub renamed [renamedTab]) inc); [reflexivity|].
  intros c connection Hc. exists "k3j9x0q2a". split; [simpl; lia|].
  destruct c as [|c]; simpl in Hc; [by injection Hc as <-|].
  by destruct c.
Defined.

Lemma action_sync_dispatch_shapes_witness :
  Content.initialized (syncedPeer openPort [] []) = true /\
  dispatches
    (Content.store
       (Content.onMessage 0 (SyncAction open1) (syncedPeer openPort [] [])).2)
    = dispatches (Content.store (syncedPeer openPort [] [])) ++ [DispatchObject open1] /\
  dispatches
    (Background.store
       (Background.onMessage 0 (SyncAction open1) (hub noSettings [tabA])).2)
    = dispatches (Background.store (hub noSettings [tabA]))
      ++ [DispatchTypePayload (type open1) (payload open1)].
Proof.
  destruct (action_sync_dispatch_shapes open1) as (Hpeer & Hhub & _).
  split; [reflexivity|]. split.
  - exact (proj1 (proj2 (Hpeer 0 (syncedPeer openPort [] []) eq_refl))).
  - exact (proj1 (proj2 (proj2 (Hhub 0 (hub noSettings [tabA]))))).
Defined.

End Examples.

(** * Further properties of the two classes *)

(** ** Connections of the hub *)

Section HubConnections.
Context {RT : Runtime}.
Import Background.

(** X1.  [onConnection] never throws.  It gives the connection the next
    handle, registers it last, with empty received lists, and posts the
    hub's current state to it, whatever its name is: a connection without
    the protocol marker is registered and sent the state like any other.
    When the port throws, the connection is registered all the same. *)
Theorem onConnection_registers_and_greets
    (n : Name) (p : Port) (b : BackgroundScript) :
  exists connection,
    onConnection n p b
    = (Returned tt,
       {| store := store b; settings := settings b;
          heap := heap b ++ [connection];
          connections := connections b ++ [length (heap b)];
          savedStates := savedStates b |}) /\
    name connection = n /\
    receivedMutations connection = [] /\
    receivedActions connection = [] /\
    disconnected (port connection) = disconnected p /\
    outbox (port connection)
      = if disconnected p then outbox p
        else outbox p ++ [SyncState (state (store b))].
Proof.
  exists (posted (SyncState (state (store b)))
            {| name := n; receivedMutations := []; receivedActions := []; port := p |}).
  unfold onConnection, bind, gets, modify. rewrite syncCurrentState_run.
  split.
  - f_equal. destruct b as [st se h cs sv]. unfold updateConnection, set_heap; simpl.
    f_equal. apply list_eq. intros i.
    destruct (decide (i = length h)) as [->|Hne].
    + rewrite list_lookup_alter_eq, !lookup_app_r by lia. by rewrite Nat.sub_diag.
    + rewrite list_lookup_alter_ne by done.
      destruct (decide (i < length h)).
      * by rewrite !lookup_app_l.
      * rewrite !lookup_ge_None_2; [done|rewrite length_app; simpl; lia..].
  - unfold posted, Port_postMessage. simpl.
    destruct (disconnected p) eqn:E; simpl; repeat split; auto.
Qed.

Lemma strictEquals_refl (n : Name) : n <> NameNaN -> strictEquals n n = true.
Proof. destruct n; simpl; [by rewrite bool_decide_eq_true_2|done|by rewrite bool_decide_eq_true_2]. Qed.

Lemma strictEquals_NaN (n : Name) : strictEquals n NameNaN = false.
Proof. by destruct n. Qed.

Lemma removeByName_filter (h : list Connection) (n : Name)
    (cs : list nat) (i : nat) :
  removeByName h n cs i = filter (namedOtherwise h n) (take i cs) ++ drop i cs.
Proof.
  revert cs. induction i as [|i IH]; intros cs; simpl.
  - done.
  - destruct (cs !! i) as [d|] eqn:Hd.
    + rewrite (take_S_r cs i d Hd), filter_app.
      destruct (hasName h n d) eqn:Hn.
      * rewrite IH, filter_cons_False, filter_nil, app_nil_r
          by (unfold namedOtherwise; congruence).
        rewrite delete_take_drop.
        rewrite take_app_le by (rewrite length_take; apply lookup_lt_Some in Hd; lia).
        rewrite take_take, Nat.min_id.
        rewrite drop_app_ge by (rewrite length_take; apply lookup_lt_Some in Hd; lia).
        rewrite length_take. apply lookup_lt_Some in Hd.
        replace (i - i `min` length cs) with 0 by lia. by rewrite drop_0.
      * rewrite IH, filter_cons_True, filter_nil by done.
        rewrite <- app_assoc. simpl. by rewrite (drop_S cs d i Hd).
    + apply lookup_ge_None in Hd.
      rewrite IH, !take_ge, !drop_ge by lia. done.
Qed.

Lemma onDisconnect_run (c : nat) (connection : Connection) (b : BackgroundScript) :
  heap b !! c = Some connection ->
  onDisconnect c b
  = (Returned tt,
     set_connections
       (fun cs => filter (namedOtherwise (heap b) (name connection)) cs) b).
Proof.
  intros Hc. unfold onDisconnect, bind, gets, modify. rewrite Hc.
  unfold set_connections. do 2 f_equal.
  rewrite removeByName_filter, take_ge, drop_ge by lia. apply app_nil_r.
Qed.

Lemma onDisconnect_unregisters (c : nat) (connection : Connection) (b : BackgroundScript) :
  heap b !! c = Some connection ->
  name connection <> NameNaN ->
  c ∉ connections (onDisconnect c b).2.
Proof.
  intros Hc Hname. rewrite (onDisconnect_run c connection) by done. simpl.
  intros Hin. apply list_elem_of_filter in Hin as [Hn _].
  unfold namedOtherwise, hasName in Hn. rewrite Hc in Hn.
  by rewrite strictEquals_refl in Hn.
Qed.

(** X2.  [onDisconnect] leaves in the registry exactly the connections
    whose name is not [===] to that of the disconnected one, in their
    order, and changes nothing else of the hub.  The connection itself
    goes, and with it every other registered connection of an equal
    name, unless its name is [NaN]: [NaN] is not [===] to itself, so the
    loop removes nothing and the connection stays registered. *)
Theorem onDisconnect_removes_by_name
    (c : nat) (connection : Connection) (b : BackgroundScript) :
  heap b !! c = Some connection ->
  onDisconnect c b
  = (Returned tt,
     set_connections
       (fun cs => filter (namedOtherwise (heap b) (name connection)) cs) b) /\
  (forall d, d ∈ connections (onDisconnect c b).2 <->
             d ∈ connections b /\
             forall D, heap b !! d = Some D ->
                       strictEquals (name D) (name connection) = false) /\
  (name connection <> NameNaN -> c ∉ connections (onDisconnect c b).2) /\
  (name connection = NameNaN -> (onDisconnect c b).2 = b).
Proof.
  intros Hc. split; [by apply onDisconnect_run|]. split; [|split].
  - intros d. rewrite (onDisconnect_run c connection) by done. simpl.
    rewrite list_elem_of_filter. unfold namedOtherwise, hasName.
    destruct (heap b !! d) as [D|]; split.
    + intros [Hn Hd]. split; [done|]. by intros ? [= <-].
    + intros [Hd Hn]. split; [|done]. by apply Hn.
    + intros [_ Hd]. by split.
    + intros [Hd _]. by split.
  - by apply onDisconnect_unregisters.
  - intros Hnan. rewrite (onDisconnect_run c connection) by done. simpl.
    destruct b as [st se h cs sv]. unfold set_connections. simpl. f_equal.
    induction cs as [|d cs IH]; [done|].
    rewrite filter_cons_True; [by rewrite IH|].
    unfold namedOtherwise, hasName. rewrite Hnan.
    destruct (h !! d); [apply strictEquals_NaN|done].
Qed.

(** X3.  After [onDisconnect], no relay pass touches the connection any
    more: whatever mutation or action the hub hooks, the disconnected
    connection object is left as it was and nothing is posted to it. *)
Theorem relay_after_disconnect
    (c : nat) (connection : Connection) (r : ChangeRecord) (b : BackgroundScript) :
  heap b !! c = Some connection ->
  heap (hookMutation r (onDisconnect c b).2).2 !! c = Some connection /\
  heap (hookAction r (onDisconnect c b).2).2 !! c = Some connection.
Proof.
  intros Hc.
  assert (heap (onDisconnect c b).2 !! c = Some connection) as Hc'.
  { by rewrite (onDisconnect_run c connection). }
  rewrite hookMutation_run, hookAction_run. simpl.
  destruct (skipped connection) eqn:Hskip.
  - split.
    + destruct (isIgnored _ _); [done|]. simpl.
      apply updateAll_lookup_fixed; [done|]. by apply afterRelayMutation_skipped.
    + destruct (isIgnored _ _); [done|].
      apply updateAll_lookup_fixed; [done|]. by apply afterRelayAction_skipped.
  - assert (c ∉ connections (onDisconnect c b).2) as Hnot.
    { apply (onDisconnect_unregisters c connection b Hc).
      intros Hnan. unfold skipped in Hskip. by rewrite Hnan in Hskip. }
    split.
    + destruct (isIgnored _ _); [done|]. simpl.
      by rewrite updateAll_lookup_notin.
    + destruct (isIgnored _ _); [done|].
      by rewrite updateAll_lookup_notin.
Qed.

End HubConnections.

(** ** Changes made at the hub *)

Section HubChanges.
Context {RT : Runtime}.
Import Background.

Lemma afterRelayMutation_consistent (b : BackgroundScript) (d : nat) (D : Connection)
    (r : ChangeRecord) :
  consistent b ->
  d ∈ connections b -> heap b !! d = Some D ->
  type r ∉ ignoredMutations (settings b) ->
  afterRelayMutation r D = if skipped D then D else posted (SyncMutation r) D.
Proof.
  intros Hcons Hd HD Hig. destruct (skipped D) eqn:Hsk.
  - by apply afterRelayMutation_skipped.
  - apply afterRelayMutation_fresh; [done|]. by eapply consistent_no_match.
Qed.

(** What a commit of a relayed type leaves of a consistent hub. *)
Lemma commit_relays (ty : string) (pl : Value) (b : BackgroundScript) :
  consistent b ->
  ty ∉ ignoredMutations (settings b) ->
  store (commit ty pl b).2 = Store_commit ty pl (store b) /\
  settings (commit ty pl b).2 = settings b /\
  connections (commit ty pl b).2 = connections b /\
  savedStates (commit ty pl b).2 =
    savedStates b ++
    [filterObject (Store_apply ty pl (state (store b))) (persistentStates (settings b))] /\
  length (heap (commit ty pl b).2) = length (heap b) /\
  (forall d D, d ∈ connections b -> heap b !! d = Some D ->
     heap (commit ty pl b).2 !! d
     = Some (if skipped D then D
             else posted (SyncMutation {| type := ty; payload := pl |}) D)) /\
  (forall d, d ∉ connections b -> heap (commit ty pl b).2 !! d = heap b !! d).
Proof.
  intros Hcons Hig. pose proof Hcons as (Hnd & _).
  rewrite commit_run, hookMutation_run. simpl.
  rewrite (proj2 (isIgnored_false _ _) Hig). simpl.
  match goal with |- context [updateAll ?f ?l ?x] =>
    destruct (updateAll_fields f l x) as (Hst & Hse & Hcs & Hsv & Hlen) end.
  rewrite Hst, Hse, Hcs, Hsv, Hlen. simpl.
  repeat split; auto.
  - intros d D Hd HD. rewrite updateAll_lookup_in by done. simpl. rewrite HD. simpl.
    f_equal. by eapply afterRelayMutation_consistent.
  - intros d Hd. by rewrite updateAll_lookup_notin.
Qed.

Lemma skipped_posted (msg : Message) (D : Connection) :
  skipped (posted msg D) = skipped D.
Proof. done. Qed.

(** What the commits of a handler leave of a consistent hub. *)
Lemma committed_relays (ms : list (string * Value)) (b : BackgroundScript) :
  consistent b ->
  settings (committed ms b) = settings b /\
  connections (committed ms b) = connections b /\
  (forall d D, d ∈ connections b -> heap b !! d = Some D -> skipped D = false ->
     heap (committed ms b) !! d = Some (relayed (settings b) ms D)) /\
  (forall d D, heap b !! d = Some D -> d ∉ connections b \/ skipped D = true ->
     heap (committed ms b) !! d = Some D).
Proof.
  revert b. induction ms as [|[ty pl] ms IH]; intros b Hcons; [done|].
  assert (consistent (commit ty pl b).2) as Hcons1.
  { eapply consistent_refines; [exact Hcons|apply refines_commit]. }
  destruct (IH _ Hcons1) as (Hse & Hcs & Hrel & Hfix).
  change (committed ((ty, pl) :: ms) b) with (committed ms (commit ty pl b).2).
  destruct (isIgnored (ignoredMutations (settings b)) ty) eqn:Hig.
  - assert ((commit ty pl b).2 = set_store (Store_commit ty pl) b) as Hrun.
    { rewrite commit_run, hookMutation_run. simpl. by rewrite Hig. }
    rewrite Hrun in *. simpl in *.
    split; [done|]. split; [done|]. split.
    + intros d D Hd HD Hsk. rewrite (Hrel d D) by done.
      unfold relayed. simpl. by rewrite Hig.
    + done.
  - apply isIgnored_false in Hig.
    destruct (commit_relays ty pl b Hcons Hig)
      as (_ & Hse1 & Hcs1 & _ & _ & Hin & Hout).
    rewrite Hse1, Hcs1 in *.
    split; [done|]. split; [done|]. split.
    + intros d D Hd HD Hsk.
      rewrite (Hrel d (posted (SyncMutation {| type := ty; payload := pl |}) D));
        [|done|by rewrite (Hin d D), Hsk|done].
      unfold relayed. simpl. by rewrite (proj2 (isIgnored_false _ _) Hig).
    + intros d D HD [Hd|Hsk].
      * apply Hfix; [by rewrite Hout|by left].
      * destruct (decide (d ∈ connections b)) as [Hd|Hd].
        -- apply Hfix; [by rewrite (Hin d D), Hsk|by right].
        -- apply Hfix; [by rewrite Hout|by left].
Qed.

(** X4.  In every state a hub can reach, a mutation of a type that is
    not ignored, committed on the hub's own store, is posted exactly once
    to every registered connection with the marker, leaves every other
    connection object as it was, and is followed by one call of
    [browser.savePersistentStates] with the filtered new state. *)
Theorem hub_commit_is_relayed_to_every_peer
    (ty : string) (pl : Value) (b : BackgroundScript) :
  reachable b ->
  ty ∉ ignoredMutations (settings b) ->
  exists b',
    commit ty pl b = (Returned tt, b') /\
    state (store b') = Store_apply ty pl (state (store b)) /\
    connections b' = connections b /\
    savedStates b' =
      savedStates b ++
      [filterObject (Store_apply ty pl (state (store b)))
         (persistentStates (settings b))] /\
    (forall d D, d ∈ connections b -> heap b !! d = Some D -> skipped D = false ->
       heap b' !! d = Some (posted (SyncMutation {| type := ty; payload := pl |}) D) /\
       (disconnected (port D) = false ->
        outbox (port (posted (SyncMutation {| type := ty; payload := pl |}) D))
          = outbox (port D) ++ [SyncMutation {| type := ty; payload := pl |}])) /\
    (forall d D, heap b !! d = Some D -> d ∉ connections b \/ skipped D = true ->
       heap b' !! d = Some D).
Proof.
  intros Hreach Hig. pose proof (reachable_consistent b Hreach) as Hcons.
  destruct (commit_relays ty pl b Hcons Hig) as (Hst & Hse & Hcs & Hsv & _ & Hin & Hout).
  exists (commit ty pl b).2. split; [by rewrite commit_run|].
  split; [by rewrite Hst|]. split; [done|]. split; [done|]. split.
  - intros d D Hd HD Hsk. split.
    + rewrite (Hin d D Hd HD). by rewrite Hsk.
    + apply posted_connected.
  - intros d D HD [Hd|Hsk].
    + by rewrite Hout.
    + destruct (decide (d ∈ connections b)) as [Hd|Hd].
      * rewrite (Hin d D Hd HD). by rewrite Hsk.
      * by rewrite Hout.
Qed.

(** The loop of the restore posts the state to the registered
    connections, the last one first. *)
Lemma syncAllDown_updates (n : nat) (b : BackgroundScript) :
  syncAllDown n b
  = (Returned tt,
     updateAll (posted (SyncState (state (store b))))
       (reverse (take n (connections b))) b).
Proof.
  revert b. induction n as [|n IH]; intros b.
  - by rewrite take_0.
  - rewrite syncAllDown_step. destruct (connections b !! n) as [c|] eqn:Hc.
    + rewrite IH. simpl. rewrite (take_S_r _ _ _ Hc), reverse_snoc. done.
    + rewrite IH. apply lookup_ge_None in Hc. by rewrite !take_ge by lia.
Qed.

(** X5.  When the persisted states are read at startup: with no
    [persistentStates] configured, or with nothing in storage, the hub is
    left as it is.  Otherwise, in every state a hub can reach (and with
    the reserved type not ignored), the hub overwrites its state with
    the spread of the old state and the filtered persisted states, and
    every registered connection is then posted the new state as
    [@@STORE_SYNC_STATE]; since the hub's own hook has no exception for
    the reserved type, a connection with the marker is first posted the
    same state as a [vweReplaceState] mutation, and the filtered state
    is saved again. *)
Theorem persisted_states_are_restored_and_pushed
    (saved : option Value) (b : BackgroundScript) :
  (persistentStates (settings b) = [] \/ saved = None ->
   onPersistentStates saved b = (Returned tt, b)) /\
  (forall v,
     saved = Some v ->
     persistentStates (settings b) <> [] ->
     reachable b ->
     vweReplaceState ∉ ignoredMutations (settings b) ->
     let restored :=
       spread (state (store b)) (filterObject v (persistentStates (settings b))) in
     exists b',
       onPersistentStates saved b = (Returned tt, b') /\
       state (store b') = restored /\
       connections b' = connections b /\
       savedStates b' =
         savedStates b ++ [filterObject restored (persistentStates (settings b))] /\
       forall d D, d ∈ connections b -> heap b !! d = Some D ->
         heap b' !! d =
           Some (posted (SyncState restored)
                   (if skipped D then D
                    else posted (SyncMutation
                                   {| type := vweReplaceState; payload := restored |}) D))).
Proof.
  split.
  - intros H. unfold onPersistentStates, bind, gets.
    destruct H as [H| ->].
    + by rewrite H.
    + by destruct (bool_decide _).
  - intros v -> Hps Hreach Hig restored.
    pose proof (reachable_consistent b Hreach) as Hcons.
    pose proof Hcons as (Hnd & _).
    destruct (commit_relays vweReplaceState restored b Hcons Hig)
      as (Hst & Hse & Hcs & Hsv & Hlen & Hin & Hout).
    unfold onPersistentStates, bind, gets.
    rewrite bool_decide_eq_false_2 by (by destruct (persistentStates (settings b))).
    fold restored.
    set (b1 := (commit vweReplaceState restored b).2) in *.
    assert (commit vweReplaceState restored b = (Returned tt, b1)) as ->
      by (by rewrite commit_run).
    assert (state (store b1) = restored) as Hstate.
    { rewrite Hst. simpl. unfold Store_apply. by rewrite bool_decide_eq_true_2. }
    assert (onPersistentStates_tail :
      (if bool_decide (0 < length (connections b1))
       then syncAllDown (length (connections b1)) else ret tt) b1
      = (Returned tt,
         updateAll (posted (SyncState restored)) (reverse (connections b1)) b1)).
    { destruct (connections b1) as [|c cs] eqn:E.
      - by rewrite bool_decide_eq_false_2 by (simpl; lia).
      - rewrite bool_decide_eq_true_2 by (simpl; lia).
        rewrite syncAllDown_updates, Hstate, E. by rewrite take_ge by lia. }
    simpl. rewrite onPersistentStates_tail.
    eexists. split; [done|].
    destruct (updateAll_fields (posted (SyncState restored))
                (reverse (connections b1)) b1) as (-> & _ & -> & -> & _).
    split; [done|]. split; [done|].
    split; [rewrite Hsv; unfold Store_apply;
            by rewrite bool_decide_eq_true_2|].
    intros d D Hd HD.
    rewrite updateAll_lookup_in.
    + by rewrite (Hin d D Hd HD).
    + rewrite Hcs. by rewrite reverse_Permutation.
    + rewrite Hcs. by apply elem_of_reverse.
Qed.

End HubChanges.

(** ** Actions at the hub *)

Section HubActions.
Context {RT : Runtime}.
Import Background.

Lemma shrunkActions_refl (D : Connection) : shrunkActions D D.
Proof. by split. Qed.

Lemma shrunkActions_trans (D1 D2 D3 : Connection) :
  shrunkActions D1 D2 -> shrunkActions D2 D3 -> shrunkActions D1 D3.
Proof. intros [Hn1 Hs1] [Hn2 Hs2]. split; [congruence|]. by etrans. Qed.

Lemma shrunkActions_skipped (D' D : Connection) :
  shrunkActions D' D -> skipped D' = skipped D.
Proof. intros [Hn _]. unfold skipped. by rewrite Hn. Qed.

Lemma refinesActions_refl (b : BackgroundScript) : refinesActions b b.
Proof. repeat split. intros d D HD. exists D. split; [done|apply shrunkActions_refl]. Qed.

Lemma refinesActions_trans (b1 b2 b3 : BackgroundScript) :
  refinesActions b1 b2 -> refinesActions b2 b3 -> refinesActions b1 b3.
Proof.
  intros (Hc1 & Hs1 & Hl1 & H1) (Hc2 & Hs2 & Hl2 & H2).
  repeat split; try congruence.
  intros d D1 HD1. destruct (H1 d D1 HD1) as (D2 & HD2 & Hsh1).
  destruct (H2 d D2 HD2) as (D3 & HD3 & Hsh2).
  exists D3. split; [done|]. by eapply shrunkActions_trans.
Qed.

Lemma consistentActions_refines (b' b : BackgroundScript) :
  consistentActions b -> refinesActions b' b -> consistentActions b'.
Proof.
  intros Hrec (Hc & Hs & Hl & Hheap).
  unfold consistentActions. rewrite Hc, Hs.
  intros d D' e Hd HD' Hsk He.
  destruct (Hheap d D' HD') as (D & HD & Hsh).
  apply (Hrec d D e); auto.
  - by rewrite <- (shrunkActions_skipped D' D).
  - by apply Hsh.
Qed.

Lemma refinesActions_updateConnection (c : nat) (f : Connection -> Connection)
    (b : BackgroundScript) :
  (forall D, shrunkActions (f D) D) -> refinesActions (updateConnection c f b) b.
Proof.
  intros Hf. repeat split; simpl.
  - by rewrite length_alter.
  - intros d D'. destruct (decide (c = d)) as [->|Hne].
    + rewrite list_lookup_alter_eq. destruct (heap b !! d) as [D|]; simpl; [|done].
      intros [= <-]. eauto.
    + rewrite list_lookup_alter_ne by done. intros HD. exists D'.
      split; [done|apply shrunkActions_refl].
Qed.

Lemma refinesActions_updateAll (f : Connection -> Connection) (cs : list nat)
    (b : BackgroundScript) :
  (forall D, shrunkActions (f D) D) -> refinesActions (updateAll f cs b) b.
Proof.
  intros Hf. revert b. induction cs as [|c cs IH]; intros b; simpl.
  - apply refinesActions_refl.
  - eapply refinesActions_trans; [apply IH|].
    by apply refinesActions_updateConnection.
Qed.

Lemma refinesActions_set_store (f : Store -> Store) (b : BackgroundScript) :
  refinesActions (set_store f b) b.
Proof. repeat split. intros d D HD. exists D. split; [done|apply shrunkActions_refl]. Qed.

Lemma refinesActions_set_savedStates (f : list Value -> list Value)
    (b : BackgroundScript) :
  refinesActions (set_savedStates f b) b.
Proof. repeat split. intros d D HD. exists D. split; [done|apply shrunkActions_refl]. Qed.

Lemma shrunkActions_afterRelayMutation (r : ChangeRecord) (D : Connection) :
  shrunkActions (afterRelayMutation r D) D.
Proof.
  unfold afterRelayMutation. destruct (skipped D); [apply shrunkActions_refl|].
  by destruct (scanDown _ _ _) as [j|].
Qed.

Lemma shrunkActions_afterRelayAction (r : ChangeRecord) (D : Connection) :
  shrunkActions (afterRelayAction r D) D.
Proof.
  unfold afterRelayAction. destruct (skipped D); [apply shrunkActions_refl|].
  destruct (scanDown _ _ _) as [j|]; [|done].
  split; [done|]. simpl. apply sublist_subseteq, sublist_delete.
Qed.

Lemma refinesActions_hookMutation (r : ChangeRecord) (b : BackgroundScript) :
  refinesActions (hookMutation r b).2 b.
Proof.
  rewrite hookMutation_run. simpl. destruct (isIgnored _ _); [apply refinesActions_refl|].
  eapply refinesActions_trans; [apply refinesActions_set_savedStates|].
  apply refinesActions_updateAll, shrunkActions_afterRelayMutation.
Qed.

Lemma refinesActions_hookAction (r : ChangeRecord) (b : BackgroundScript) :
  refinesActions (hookAction r b).2 b.
Proof.
  rewrite hookAction_run. simpl. destruct (isIgnored _ _); [apply refinesActions_refl|].
  apply refinesActions_updateAll, shrunkActions_afterRelayAction.
Qed.

Lemma refinesActions_commit (ty : string) (pl : Value) (b : BackgroundScript) :
  refinesActions (commit ty pl b).2 b.
Proof.
  rewrite commit_run. simpl.
  eapply refinesActions_trans;
    [apply refinesActions_hookMutation|apply refinesActions_set_store].
Qed.

Lemma refinesActions_committed (ms : list (string * Value)) (b : BackgroundScript) :
  refinesActions (committed ms b) b.
Proof.
  revert b. induction ms as [|m ms IH]; intros b; [apply refinesActions_refl|].
  eapply refinesActions_trans; [apply IH|apply refinesActions_commit].
Qed.

Lemma refinesActions_dispatch (call : DispatchCall) (b : BackgroundScript) :
  refinesActions (dispatch call b).2 b.
Proof.
  rewrite dispatch_run. simpl.
  destruct (actionHandler _); [|apply refinesActions_set_store].
  eapply refinesActions_trans; [apply refinesActions_committed|].
  eapply refinesActions_trans; [|apply refinesActions_set_store].
  unfold afterSubscriber. destruct (syncActions _ && _); [|apply refinesActions_refl].
  apply refinesActions_hookAction.
Qed.

Lemma refinesActions_syncAllDown (n : nat) (b : BackgroundScript) :
  refinesActions (syncAllDown n b).2 b.
Proof.
  revert b. induction n as [|n IH]; intros b.
  - apply refinesActions_refl.
  - rewrite syncAllDown_step. destruct (connections b !! n) as [c|]; [|apply IH].
    eapply refinesActions_trans; [apply IH|].
    apply refinesActions_updateConnection. by intros D.
Qed.

Lemma refinesActions_onPersistentStates (saved : option Value) (b : BackgroundScript) :
  refinesActions (onPersistentStates saved b).2 b.
Proof.
  unfold onPersistentStates, bind, gets.
  destruct (bool_decide _); [apply refinesActions_refl|].
  destruct saved as [v|]; [|apply refinesActions_refl].
  rewrite commit_run.
  set (b1 := (hookMutation _ _).2).
  assert (refinesActions b1 b) as H1.
  { eapply refinesActions_trans;
      [apply refinesActions_hookMutation|apply refinesActions_set_store]. }
  destruct (bool_decide _); [|done].
  eapply refinesActions_trans; [apply refinesActions_syncAllDown|done].
Qed.

Lemma sameType_refl (r : ChangeRecord) : sameType r r = true.
Proof. unfold sameType. by rewrite bool_decide_eq_true_2. Qed.

Lemma afterRelayAction_echo (r : ChangeRecord) (connection : Connection) :
  skipped connection = false ->
  afterRelayAction r (set_receivedActions (fun l => l ++ [r]) connection) = connection.
Proof.
  intros Hs. unfold afterRelayAction. simpl.
  change (skipped (set_receivedActions _ connection)) with (skipped connection).
  rewrite Hs, scanDown_snoc by apply sameType_refl.
  destruct connection as [n rm ra p]. unfold set_receivedActions; simpl.
  f_equal. by rewrite delete_middle, app_nil_r.
Qed.

Lemma afterRelayAction_fresh (r : ChangeRecord) (connection : Connection) :
  skipped connection = false ->
  (forall e, e ∈ receivedActions connection -> type e <> type r) ->
  afterRelayAction r connection = posted (SyncAction r) connection.
Proof.
  intros Hs Hno. unfold afterRelayAction. rewrite Hs.
  rewrite (proj2 (scanDown_all_None _ _)); [done|].
  intros e He. unfold sameType. rewrite bool_decide_eq_false. by apply Hno.
Qed.

(** The hub when the action hook has run for a record received on [c]
    and the handler has not started. *)
Lemma onMessage_action_run (c : nat) (r : ChangeRecord) (b : BackgroundScript)
    (handler : Value -> Value -> list (string * Value)) :
  actionsHooked (settings b) = true ->
  type r ∉ ignoredActions (settings b) ->
  actionHandler (type r) = Some handler ->
  onMessage c (SyncAction r) b =
  (Returned tt,
   committed (handler (payload r) (state (store b)))
     (updateAll (afterRelayAction r) (connections b)
        (set_store (Store_recordDispatch (DispatchTypePayload (type r) (payload r)))
           (updateConnection c (set_receivedActions (fun l => l ++ [r])) b)))).
Proof.
  intros Hon Hig Hh. apply isIgnored_false in Hig.
  unfold onMessage, bind, modify. rewrite dispatch_run. simpl. rewrite Hh.
  unfold afterSubscriber. simpl. unfold actionsHooked in Hon.
  rewrite Hon, hookAction_run. simpl. rewrite Hig. by destruct r.
Qed.

(** A record that stays: its type is ignored, or the store has no action
    of its type. *)
Lemma onMessage_action_stays (c : nat) (r : ChangeRecord) (b : BackgroundScript) :
  isIgnored (ignoredActions (settings b)) (type r) = true \/
  actionHandler (type r) = None ->
  refinesActions (onMessage c (SyncAction r) b).2
    (updateConnection c (set_receivedActions (fun l => l ++ [r])) b) /\
  forall d, heap (onMessage c (SyncAction r) b).2 !! d = None -> heap b !! d = None.
Proof.
  intros Hcase. unfold onMessage, bind, modify. split.
  - apply refinesActions_dispatch.
  - intros d Hd. apply lookup_ge_None in Hd. apply lookup_ge_None.
    destruct (refinesActions_dispatch (DispatchTypePayload (type r) (payload r))
                (updateConnection c (set_receivedActions (fun l => l ++ [r])) b))
      as (_ & _ & Hlen & _).
    rewrite Hlen in Hd. simpl in Hd. by rewrite length_alter in Hd.
Qed.

Lemma consistentActions_receive_action (c : nat) (r : ChangeRecord) (b : BackgroundScript) :
  actionsHooked (settings b) = true ->
  NoDup (connections b) ->
  (forall d, d ∈ connections b -> d < length (heap b)) ->
  consistentActions b -> consistentActions (onMessage c (SyncAction r) b).2.
Proof.
  intros Hon Hnd Hin Hrec.
  assert (forall b1,
            refinesActions b1
              (updateConnection c (set_receivedActions (fun l => l ++ [r])) b) ->
            type r ∈ ignoredActions (settings b) \/ actionHandler (type r) = None ->
            consistentActions b1) as Hstays.
  { intros b1 Href Hty. eapply consistentActions_refines; [|exact Href].
    intros d D e Hd HD Hsk He. simpl in *.
    destruct (decide (c = d)) as [->|Hne].
    - rewrite list_lookup_alter_eq in HD.
      destruct (heap b !! d) as [D0|] eqn:HD0; simpl in HD; [|done].
      injection HD as <-. simpl in He.
      apply elem_of_app in He as [He|He];
        [|apply list_elem_of_singleton in He as ->].
      + by apply (Hrec d D0 e).
      + done.
    - rewrite list_lookup_alter_ne in HD by done. by apply (Hrec d D e). }
  destruct (actionHandler (type r)) as [handler|] eqn:Hh.
  2:{ apply Hstays; [|by right]. apply onMessage_action_stays. by right. }
  destruct (isIgnored (ignoredActions (settings b)) (type r)) eqn:Hig.
  { apply Hstays.
    - apply onMessage_action_stays. by left.
    - left. unfold isIgnored in Hig. apply andb_true_iff in Hig as [_ Hig].
      by apply bool_decide_eq_true in Hig. }
  apply isIgnored_false in Hig.
  rewrite (onMessage_action_run c r b handler) by done. simpl.
  eapply consistentActions_refines; [|apply refinesActions_committed].
  match goal with |- consistentActions (updateAll ?f ?l ?x) =>
    destruct (updateAll_fields f l x) as (_ & Hse & Hcs & _) end.
  unfold consistentActions. rewrite Hse, Hcs. simpl.
  intros d D e Hd HD Hsk He.
  rewrite updateAll_lookup_in in HD by done. simpl in HD.
  destruct (heap b !! d) as [D0|] eqn:HD0;
    [|apply Hin, lookup_lt_is_Some in Hd; rewrite HD0 in Hd; by destruct Hd].
  destruct (decide (d = c)) as [->|Hne].
  + rewrite list_lookup_alter_eq, HD0 in HD. simpl in HD. injection HD as <-.
    destruct (skipped D0) eqn:Hsk0.
    * rewrite afterRelayAction_skipped in Hsk by done. simpl in Hsk.
      change (skipped D0 = false) in Hsk. congruence.
    * rewrite afterRelayAction_echo in He, Hsk by done.
      by apply (Hrec c D0 e).
  + rewrite list_lookup_alter_ne, HD0 in HD by done. simpl in HD.
    injection HD as <-.
    pose proof (shrunkActions_afterRelayAction r D0) as Hsh.
    apply (Hrec d D0 e); auto.
    * by rewrite <- (shrunkActions_skipped _ _ Hsh).
    * by apply Hsh.
Qed.

Lemma settings_handle (e : Event) (b : BackgroundScript) :
  settings (handle e b).2 = settings b.
Proof.
  destruct e as [n p|c|c message|ty pl|call|saved|c]; simpl.
  - unfold onConnection, bind, gets, modify. by rewrite syncCurrentState_run.
  - unfold onDisconnect, bind, gets, modify. by destruct (heap b !! c).
  - destruct message as [|data|r|r|ty]; try done.
    + unfold onMessage, bind, modify.
      pose proof (refines_commit (type r) (payload r)
                    (updateConnection c (set_receivedMutations (fun l => l ++ [r])) b))
        as (_ & Hs & _).
      by rewrite Hs.
    + unfold onMessage, bind, modify.
      pose proof (refines_dispatch (DispatchTypePayload (type r) (payload r))
                    (updateConnection c (set_receivedActions (fun l => l ++ [r])) b))
        as (_ & Hs & _).
      by rewrite Hs.
  - apply refines_commit.
  - apply refines_dispatch.
  - apply refines_onPersistentStates.
  - done.
Qed.

Lemma consistentActions_handle (e : Event) (b : BackgroundScript) :
  actionsHooked (settings b) = true ->
  consistent b ->
  consistentActions b -> consistentActions (handle e b).2.
Proof.
  intros Hon (Hnd & Hin & _) Hrec.
  destruct e as [n p|c|c message|ty pl|call|saved|c]; simpl.
  - unfold onConnection, bind, gets, modify. rewrite syncCurrentState_run. simpl.
    intros d D e Hd HD Hsk He. simpl in *.
    apply elem_of_app in Hd as [Hd|Hd];
      [|apply list_elem_of_singleton in Hd as ->].
    + rewrite list_lookup_alter_ne in HD by (apply Hin in Hd; lia).
      rewrite lookup_app_l in HD by by apply Hin.
      by apply (Hrec d D e).
    + rewrite list_lookup_alter_eq, lookup_app_r, Nat.sub_diag in HD by done.
      simpl in HD. injection HD as <-. simpl in He. by apply elem_of_nil in He.
  - unfold onDisconnect, bind, gets, modify.
    destruct (heap b !! c) as [connection|]; [|done]. simpl.
    intros d D e Hd. apply Hrec.
    eapply elem_of_sublist; [exact Hd|apply removeByName_sublist].
  - destruct message as [|data|r|r|ty]; try done.
    + unfold onMessage, bind, modify.
      eapply consistentActions_refines; [exact Hrec|].
      eapply refinesActions_trans; [apply refinesActions_commit|].
      apply refinesActions_updateConnection. by intros D.
    + by apply consistentActions_receive_action.
  - eapply consistentActions_refines; [done|apply refinesActions_commit].
  - eapply consistentActions_refines; [done|apply refinesActions_dispatch].
  - eapply consistentActions_refines; [done|apply refinesActions_onPersistentStates].
  - eapply consistentActions_refines; [done|].
    apply refinesActions_updateConnection. by intros D.
Qed.

(** With the action hook registered, every hub holds action records of
    ignored types only, whatever happened to it since its construction. *)
Lemma reachable_consistentActions (b : BackgroundScript) :
  reachable b -> actionsHooked (settings b) = true -> consistentActions b.
Proof.
  induction 1 as [st s|e b Hreach IH]; intros Hon.
  - intros d D e Hd. by apply elem_of_nil in Hd.
  - rewrite settings_handle in Hon.
    apply consistentActions_handle; auto. by apply reachable_consistent.
Qed.

(** X6.  In every state a hub can reach, with the action hook
    registered: the hub that receives an action of a type that is not
    ignored from a registered connection [C] with the marker appends the
    record to [C]'s list and dispatches the action on its store with the
    type and the payload.  When the store has no action of that type, it
    calls no subscriber: the record stays in [C]'s list and nothing is
    posted.  Otherwise the hook of the dispatch removes that record
    again, posts nothing to [C] and posts the action exactly once to
    every other registered connection with the marker; the mutations
    that the handler then commits are relayed, those of ignored types
    apart, to every one of these connections, [C] included. *)
Theorem hub_action_round
    (b : BackgroundScript) (c : nat) (C : Connection) (r : ChangeRecord) :
  reachable b ->
  actionsHooked (settings b) = true ->
  c ∈ connections b ->
  heap b !! c = Some C ->
  skipped C = false ->
  type r ∉ ignoredActions (settings b) ->
  (actionHandler (type r) = None ->
   onMessage c (SyncAction r) b
   = (Returned tt,
      set_store (Store_recordDispatch (DispatchTypePayload (type r) (payload r)))
        (updateConnection c (set_receivedActions (fun l => l ++ [r])) b))) /\
  (forall handler,
     actionHandler (type r) = Some handler ->
     exists b',
       onMessage c (SyncAction r) b = (Returned tt, b') /\
       dispatches (store b')
         = dispatches (store b) ++ [DispatchTypePayload (type r) (payload r)] /\
       commits (store b')
         = commits (store b) ++ handler (payload r) (state (store b)) /\
       heap b' !! c
         = Some (relayed (settings b) (handler (payload r) (state (store b))) C) /\
       forall (d : nat) (D : Connection),
         d <> c -> d ∈ connections b -> heap b !! d = Some D -> skipped D = false ->
         heap b' !! d
           = Some (relayed (settings b) (handler (payload r) (state (store b)))
                     (posted (SyncAction r) D)) /\
         (disconnected (port D) = false ->
          outbox (port (posted (SyncAction r) D)) = outbox (port D) ++ [SyncAction r])).
Proof.
  intros Hreach Hon Hc HC Hs Hig.
  pose proof (reachable_consistent b Hreach) as Hcons.
  pose proof Hcons as (Hnd & _).
  pose proof (reachable_consistentActions b Hreach Hon) as Hrec.
  split.
  { intros Hnone. unfold onMessage, bind, modify. rewrite dispatch_run. simpl.
    by rewrite Hnone. }
  intros handler Hh.
  rewrite (onMessage_action_run c r b handler) by done.
  set (ms := handler (payload r) (state (store b))).
  set (b1 := updateAll _ _ _).
  assert (store b1
          = Store_recordDispatch (DispatchTypePayload (type r) (payload r)) (store b)
          /\ settings b1 = settings b /\ connections b1 = connections b)
    as (Hst1 & Hse1 & Hcs1).
  { unfold b1.
    match goal with |- context [updateAll ?f ?l ?x] =>
      destruct (updateAll_fields f l x) as (-> & -> & -> & _) end.
    done. }
  assert (consistent b1) as Hcons1.
  { eapply consistent_refines; [exact Hcons|].
    eapply refines_trans; [apply refines_updateAll, shrunk_afterRelayAction|].
    eapply refines_trans; [apply refines_set_store|].
    apply refines_updateConnection. intros D. by split. }
  assert (heap b1 !! c = Some C) as HC1.
  { unfold b1. rewrite updateAll_lookup_in by done. simpl.
    rewrite list_lookup_alter_eq, HC. simpl. f_equal.
    by apply afterRelayAction_echo. }
  destruct (committed_relays ms b1 Hcons1) as (_ & _ & Hrel & _).
  rewrite Hse1, Hcs1 in Hrel.
  eexists. split; [done|]. split; [|split; [|split]].
  - by rewrite committed_dispatches, Hst1.
  - rewrite committed_commits, Hst1. done.
  - by apply Hrel.
  - intros d D Hdc Hd HD HsD. split; [|by apply posted_connected].
    apply Hrel; [done| |done].
    unfold b1. rewrite updateAll_lookup_in by done. simpl.
    rewrite list_lookup_alter_ne, HD by done. simpl. f_equal.
    apply afterRelayAction_fresh; [done|].
    intros e He Hty.
    destruct (Hrec d D e Hd HD HsD He) as [Hin|Hnone].
    + apply Hig. by rewrite <- Hty.
    + rewrite Hty in Hnone. congruence.
Qed.

End HubActions.

(** ** Which record a hook removes *)

Section EchoOrder.
Context {RT : Runtime}.




End EchoOrder.

(** ** What a peer keeps *)

Section PeerKeeps.
Context {RT : Runtime}.
Import Content.

Lemma keeps_refl (p : ContentScript) : keeps p p.
Proof. repeat split; auto. Qed.

Lemma keeps_trans (p1 p2 p3 : ContentScript) :
  keeps p1 p2 -> keeps p2 p3 -> keeps p1 p3.
Proof.
  intros (Hs1 & Hid1 & Hi1 & Hpa1 & He1 & Hst1) (Hs2 & Hid2 & Hi2 & Hpa2 & He2 & Hst2).
  rewrite Hs1 in Hst2.
  repeat split; try congruence; auto.
  - by etrans.
  - intros Hi. rewrite He2, He1; auto.
  - by etrans.
Qed.

(** A change of the fields that [keeps] does not speak of. *)
Lemma keeps_same (p p' : ContentScript) :
  settings p' = settings p -> scriptId p' = scriptId p ->
  initialized p' = initialized p -> pendingActions p' = pendingActions p ->
  receivedMutations p' = receivedMutations p ->
  keeps p p'.
Proof.
  intros Hs Hid Hi Hpa Hrm. unfold keeps. rewrite Hs, Hid, Hi, Hpa, Hrm.
  repeat split; auto.
Qed.

Lemma stuckType_spec (s : Settings) (ty : string) :
  stuckType s ty = false <-> ty <> vweReplaceState /\ ty ∉ ignoredMutations s.
Proof.
  unfold stuckType. rewrite orb_false_iff, bool_decide_eq_false, isIgnored_false. tauto.
Qed.

Lemma stuckRecords_delete (s : Settings) (l : list ChangeRecord) (i : nat)
    (x : ChangeRecord) :
  l !! i = Some x -> stuckType s (type x) = false ->
  stuckRecords s (delete i l) = stuckRecords s l.
Proof.
  intros Hx Hst. unfold stuckRecords.
  rewrite <- (take_drop_middle l i x Hx) at 2.
  rewrite delete_take_drop, !filter_app, filter_cons_False; [done|].
  by rewrite Hst.
Qed.

Lemma sendMutation_keeps (m : ChangeRecord) (p : ContentScript) :
  keeps p (sendMutation m p).2.
Proof.
  unfold sendMutation. rewrite postMessage_run.
  destruct (disconnected _); [apply keeps_refl|by apply keeps_same].
Qed.

Lemma sendAction_keeps (a : ChangeRecord) (p : ContentScript) :
  keeps p (sendAction a p).2.
Proof.
  unfold sendAction. rewrite postMessage_run.
  destruct (disconnected _); [apply keeps_refl|by apply keeps_same].
Qed.

Lemma hookMutation_keeps (m : ChangeRecord) (p : ContentScript) :
  keeps p (hookMutation m p).2.
Proof.
  unfold hookMutation, bind, gets, ret, modify.
  destruct (bool_decide (type m = vweReplaceState)) eqn:Hr; [apply keeps_refl|].
  destruct (isIgnored _ _) eqn:Hig; [apply keeps_refl|].
  destruct (initialized p) eqn:Hi; simpl.
  - destruct (bool_decide (length _ = 0)); [apply sendMutation_keeps|].
    destruct (findIndex _ _) as [i|] eqn:Hfind; [|apply sendMutation_keeps].
    destruct (findIndex_Some _ _ _ Hfind) as (x & Hx & Hm & _).
    apply sameTypeAndPayload_true in Hm as [Hty _].
    unfold keeps. simpl. rewrite Hi. repeat split; auto.
    rewrite (stuckRecords_delete _ _ i x); [done..|].
    unfold stuckType. by rewrite Hty, Hr, Hig.
  - by apply keeps_same.
Qed.

Lemma hookAction_keeps (a : ChangeRecord) (p : ContentScript) :
  keeps p (hookAction a p).2.
Proof.
  unfold hookAction, bind, gets, ret, modify.
  destruct (isIgnored _ _) eqn:Hig; [apply keeps_refl|].
  destruct (initialized p) eqn:Hi; simpl.
  - destruct (bool_decide (length _ = 0)); [apply sendAction_keeps|].
    destruct (findIndex _ _) as [i|] eqn:Hfind; [|apply sendAction_keeps].
    by apply keeps_same.
  - unfold keeps. simpl. rewrite Hi. repeat split; auto; try done.
    by apply prefix_app_r.
Qed.

Lemma commit_keeps (ty : string) (pl : Value) (p : ContentScript) :
  keeps p (commit ty pl p).2.
Proof.
  unfold commit, bind, modify.
  eapply keeps_trans; [|apply hookMutation_keeps]. by apply keeps_same.
Qed.

Lemma dispatch_keeps (call : DispatchCall) (p : ContentScript) :
  keeps p (dispatch call p).2.
Proof.
  eapply keeps_trans; [by apply (keeps_same p (set_store (Store_recordDispatch call) p))|].
  apply (dispatch_preserves keeps).
  - apply keeps_refl.
  - apply keeps_trans.
  - apply commit_keeps.
  - intros a q _. apply hookAction_keeps.
Qed.

Lemma bind_keeps {A} (c : Eff ContentScript A) (k : A -> Eff ContentScript unit)
    (p : ContentScript) :
  keeps p (c p).2 ->
  (forall a, keeps (c p).2 (k a (c p).2).2) ->
  keeps p (bind c k p).2.
Proof.
  intros Hc Hk. unfold bind. destruct (c p) as [[a|e|] p1]; simpl in *; [|done..].
  eapply keeps_trans; [exact Hc|apply Hk].
Qed.

Lemma pendingMutationsLoop_keeps (fuel : nat) (p : ContentScript) :
  keeps p (pendingMutationsLoop fuel p).2.
Proof.
  revert p. induction fuel as [|fuel IH]; intros p; simpl.
  - unfold bind, gets. destruct (pendingMutations p); apply keeps_refl.
  - unfold bind at 1. unfold gets at 1.
    destruct (pendingMutations p) as [|m rest]; [apply keeps_refl|].
    apply bind_keeps; [by apply keeps_same|]. intros _.
    apply bind_keeps; [apply commit_keeps|]. intros _. apply IH.
Qed.

Lemma processPendingMutations_keeps (fuel : nat) (p : ContentScript) :
  keeps p (processPendingMutations fuel p).2.
Proof.
  unfold processPendingMutations, bind, gets.
  destruct (bool_decide _); [apply keeps_refl|apply pendingMutationsLoop_keeps].
Qed.

Lemma onMessage_keeps (fuel : nat) (message : Message) (p : ContentScript) :
  keeps p (onMessage fuel message p).2.
Proof.
  destruct message as [|data|r|r|ty]; simpl; try apply keeps_refl.
  - apply bind_keeps; [apply commit_keeps|]. intros _.
    apply bind_keeps; [|intros _; apply processPendingMutations_keeps].
    unfold keeps. simpl. repeat split; auto.
  - unfold bind at 1. unfold gets at 1.
    destruct (initialized p) eqn:Hi; simpl; [|apply keeps_refl].
    apply bind_keeps; [|intros _; apply commit_keeps].
    unfold keeps. simpl. rewrite Hi. repeat split; auto.
    unfold stuckRecords. rewrite filter_app. by apply prefix_app_r.
  - unfold bind at 1. unfold gets at 1.
    destruct (initialized p) eqn:Hi; simpl; [|apply keeps_refl].
    apply bind_keeps; [by apply keeps_same|intros _; apply dispatch_keeps].
Qed.

Lemma handle_keeps (fuel : nat) (e : Event) (p : ContentScript) :
  keeps p (handle fuel e p).2.
Proof.
  destruct e as [message|ty pl|call|]; simpl.
  - apply onMessage_keeps.
  - apply commit_keeps.
  - apply dispatch_keeps.
  - by apply keeps_same.
Qed.

Lemma evolves_keeps (p p' : ContentScript) : evolves p p' -> keeps p p'.
Proof.
  induction 1 as [|fuel e p' Hev IH Hfuel]; [apply keeps_refl|].
  eapply keeps_trans; [exact IH|apply handle_keeps].
Qed.

(** X7.  Whatever happens to a peer: its settings and script id stay;
    once [initialized] it stays so; the actions queued in
    [pendingActions] stay there, in their order, and none is added once
    the peer is initialized, so the queue is never drained; and
    the received records of the reserved type or of an ignored type stay
    in [receivedMutations], in their order: no hook ever removes one. *)
Theorem peer_never_undoes (p p' : ContentScript) :
  evolves p p' ->
  settings p' = settings p /\
  scriptId p' = scriptId p /\
  (initialized p = true -> initialized p' = true) /\
  pendingActions p `prefix_of` pendingActions p' /\
  (initialized p = true -> pendingActions p' = pendingActions p) /\
  stuckRecords (settings p) (receivedMutations p)
    `prefix_of` stuckRecords (settings p) (receivedMutations p').
Proof. apply evolves_keeps. Qed.

End PeerKeeps.

(** ** A peer before its initial state *)

Section PeerBeforeInitialState.
Context {RT : Runtime}.
Import Content.

Lemma hookMutation_uninitialized (m : ChangeRecord) (p : ContentScript) :
  initialized p = false ->
  hookMutation m p =
  (Returned tt,
   if stuckType (settings p) (type m) then p
   else set_pendingMutations (fun l => l ++ [m]) p).
Proof.
  intros Hi. unfold hookMutation, stuckType, bind, gets, ret, modify.
  destruct (bool_decide _); [done|].
  destruct (isIgnored _ _); [done|]. by rewrite Hi.
Qed.

Lemma hookAction_uninitialized (a : ChangeRecord) (p : ContentScript) :
  initialized p = false ->
  hookAction a p =
  (Returned tt,
   if isIgnored (ignoredActions (settings p)) (type a) then p
   else set_pendingActions (fun l => l ++ [a]) p).
Proof.
  intros Hi. unfold hookAction, bind, gets, ret, modify.
  destruct (isIgnored _ _); [done|]. by rewrite Hi.
Qed.

Lemma initialized_after_state (fuel : nat) (data : Value) (p : ContentScript) :
  initialized (onMessage fuel (SyncState data) p).2 = true.
Proof.
  unfold onMessage. unfold bind at 1. rewrite commit_reserved.
  unfold bind at 1. unfold modify at 1.
  by apply processPendingMutations_keeps.
Qed.

Lemma waits_refl (p : ContentScript) : waits p p.
Proof.
  intros Hi. repeat split; auto. exists []. by rewrite !app_nil_r.
Qed.

Lemma waits_trans (p1 p2 p3 : ContentScript) :
  waits p1 p2 -> waits p2 p3 -> waits p1 p3.
Proof.
  intros H1 H2 Hi.
  destruct (H1 Hi) as (Hi2 & Hs2 & Ho2 & Hm2 & Ha2 & ys & Hc2 & Hq2).
  destruct (H2 Hi2) as (Hi3 & Hs3 & Ho3 & Hm3 & Ha3 & zs & Hc3 & Hq3).
  repeat split; try congruence.
  exists (ys ++ zs). rewrite Hc3, Hc2, Hq3, Hq2, Hs2, filter_app, !app_assoc. done.
Qed.

Lemma waits_commit (ty : string) (pl : Value) (p : ContentScript) :
  waits p (commit ty pl p).2.
Proof.
  intros Hi. unfold commit, bind, modify.
  rewrite hookMutation_uninitialized by done. simpl.
  destruct (stuckType (settings p) ty) eqn:Hst; simpl; repeat split; auto.
  - exists [(ty, pl)]. split; [done|].
    rewrite filter_cons_False, filter_nil, app_nil_r by (simpl; congruence). done.
  - exists [(ty, pl)]. split; [done|].
    rewrite filter_cons_True, filter_nil by done. by rewrite map_app.
Qed.

Lemma waits_hookAction (a : ChangeRecord) (p : ContentScript) :
  waits p (hookAction a p).2.
Proof.
  intros Hi. rewrite hookAction_uninitialized by done. simpl.
  destruct (isIgnored _ _); simpl; repeat split; auto;
    exists []; by rewrite !app_nil_r.
Qed.

Lemma waits_dispatch (call : DispatchCall) (p : ContentScript) :
  waits p (dispatch call p).2.
Proof.
  eapply waits_trans; [|apply (dispatch_preserves waits)].
  - intros Hi. simpl. repeat split; auto. exists []. by rewrite !app_nil_r.
  - apply waits_refl.
  - apply waits_trans.
  - apply waits_commit.
  - intros a q _. apply waits_hookAction.
Qed.

(** What holds of a peer as long as it is not initialized. *)
Lemma uninitialized_step (st : Store) (s : Settings) (port : Port)
    (fuel : nat) (e : Event) (p : ContentScript) :
  settings p = s ->
  initialized p = false ->
  outbox (connection p) = outbox port ->
  receivedMutations p = [] ->
  receivedActions p = [] ->
  (exists xs, commits (store p) = commits st ++ xs /\
     map commitArgs (pendingMutations p)
     = filter (fun a => stuckType s a.1 = false) xs) ->
  initialized (handle fuel e p).2 = false ->
  outbox (connection (handle fuel e p).2) = outbox port /\
  receivedMutations (handle fuel e p).2 = [] /\
  receivedActions (handle fuel e p).2 = [] /\
  (exists xs, commits (store (handle fuel e p).2) = commits st ++ xs /\
     map commitArgs (pendingMutations (handle fuel e p).2)
     = filter (fun a => stuckType s a.1 = false) xs).
Proof.
  intros Hs Hi Hout Hrm Hra (xs & Hxs & Hq) Hi'.
  assert (waits p (handle fuel e p).2 ->
          outbox (connection (handle fuel e p).2) = outbox port /\
          receivedMutations (handle fuel e p).2 = [] /\
          receivedActions (handle fuel e p).2 = [] /\
          (exists xs, commits (store (handle fuel e p).2) = commits st ++ xs /\
             map commitArgs (pendingMutations (handle fuel e p).2)
             = filter (fun a => stuckType s a.1 = false) xs)) as Hwaits.
  { intros Hw. destruct (Hw Hi) as (_ & _ & Ho & Hm & Ha & ys & Hc & Hp).
    repeat split; try congruence.
    exists (xs ++ ys). rewrite Hc, Hxs, Hp, Hq, Hs, filter_app, app_assoc. done. }
  destruct e as [message|ty pl|call|].
  - destruct message as [|data|r|r|ty].
    + simpl. eauto 10.
    + exfalso. change (initialized (onMessage fuel (SyncState data) p).2 = false) in Hi'.
      by rewrite initialized_after_state in Hi'.
    + assert (handle fuel (Received (SyncMutation r)) p = (Returned tt, p)) as ->
        by (simpl; unfold bind, gets; by rewrite Hi).
      simpl. eauto 10.
    + assert (handle fuel (Received (SyncAction r)) p = (Returned tt, p)) as ->
        by (simpl; unfold bind, gets; by rewrite Hi).
      simpl. eauto 10.
    + simpl. eauto 10.
  - apply Hwaits. apply waits_commit.
  - apply Hwaits. apply waits_dispatch.
  - simpl. eauto 10.
Qed.

(** X8.  As long as a peer has not received its initial state, it posts
    nothing and its received lists are empty; the mutations its
    application committed so far are all on the store, and those of them
    that are neither of the reserved type nor ignored are exactly the
    queue [pendingMutations], in the order of their commits. *)
Theorem nothing_leaves_an_uninitialized_peer
    (st : Store) (s : Settings) (id : string) (port : Port) (p : ContentScript) :
  evolves (new st s id port) p ->
  initialized p = false ->
  outbox (connection p) = outbox port /\
  receivedMutations p = [] /\
  receivedActions p = [] /\
  exists xs,
    commits (store p) = commits st ++ xs /\
    map commitArgs (pendingMutations p)
    = filter (fun a => stuckType s a.1 = false) xs.
Proof.
  intros Hev. induction Hev as [|fuel e p' Hev IH Hfuel]; intros Hi.
  - simpl. repeat split; auto. exists []. by rewrite app_nil_r.
  - assert (initialized p' = false) as Hi0.
    { destruct (initialized p') eqn:E; [|done].
      pose proof (handle_keeps fuel e p') as (_ & _ & Hmono & _).
      rewrite Hmono in Hi by done. done. }
    destruct (IH Hi0) as (Hout & Hrm & Hra & Hxs).
    apply (uninitialized_step st s port fuel e p'); auto.
    clear -Hev. induction Hev as [|fuel e p' Hev IH Hfuel]; [done|].
    pose proof (handle_keeps fuel e p') as (Hs & _). congruence.
Qed.

(** X9.  [processPendingMutations] depends on [initialized] being set
    first, as [onMessage] does: called on a peer that is not initialized,
    with a queue of mutations that are neither reserved nor ignored, the
    loop never ends, because the hook of every commit puts the mutation
    back into the queue.  Whatever the bound on the number of iterations,
    the loop exhausts it. *)
Theorem draining_before_initialization_never_ends
    (fuel : nat) (p : ContentScript) :
  initialized p = false ->
  pendingMutations p <> [] ->
  Forall (fun m => stuckType (settings p) (type m) = false) (pendingMutations p) ->
  (processPendingMutations fuel p).1 = OutOfFuel.
Proof.
  intros Hi Hne Hall.
  unfold processPendingMutations, bind, gets.
  rewrite bool_decide_eq_false_2 by (by destruct (pendingMutations p)).
  revert p Hi Hne Hall. induction fuel as [|fuel IH]; intros p Hi Hne Hall.
  - simpl. unfold bind, gets. by destruct (pendingMutations p).
  - simpl. unfold bind at 1. unfold gets at 1.
    destruct (pendingMutations p) as [|m rest] eqn:E; [done|].
    apply Forall_cons in Hall as [Hm Hall].
    unfold bind at 1. unfold modify at 1. unfold commit.
    unfold bind at 1. unfold bind at 1. unfold modify at 1.
    rewrite hookMutation_uninitialized by done. simpl. rewrite Hm.
    apply IH; simpl; auto.
    + by destruct rest.
    + apply Forall_app. split; [done|]. by apply Forall_singleton.
Qed.

End PeerBeforeInitialState.

(** ** Messages that reach a peer *)

Section PeerReceives.
Context {RT : Runtime}.
Import Content.

(** The handler of [@@STORE_SYNC_MUTATION] on an initialized peer, for a
    type that is neither reserved nor ignored. *)
Lemma peer_receive_mutation_run (fuel : nat) (r : ChangeRecord) (p : ContentScript) :
  initialized p = true ->
  stuckType (settings p) (type r) = false ->
  exists i,
    findIndex (sameTypeAndPayload r) (receivedMutations p ++ [r]) = Some i /\
    i <= length (receivedMutations p) /\
    ((forall e, e ∈ receivedMutations p -> sameTypeAndPayload r e = false) ->
     i = length (receivedMutations p)) /\
    onMessage fuel (SyncMutation r) p
    = (Returned tt,
       set_receivedMutations (fun l => delete i (l ++ [r]))
         (set_store (Store_commit (type r) (payload r)) p)).
Proof.
  intros Hi Hst. apply stuckType_spec in Hst as [Hr Hig].
  destruct (findIndex_snoc_bound (sameTypeAndPayload r) (receivedMutations p) r
              (sameTypeAndPayload_refl r)) as (i & Hfind & Hle & Hlast).
  exists i. repeat split; auto.
  unfold onMessage, bind, gets, modify. rewrite Hi. simpl.
  unfold commit, bind, modify.
  rewrite hookMutation_initialized by (simpl; done). simpl.
  destruct r as [ty pl]; simpl in *. rewrite Hfind. by destruct p.
Qed.

(** X10.  An initialized peer that receives a mutation of a type that is
    neither reserved nor ignored commits it and never sends it back: the
    handler returns even when the port is disconnected, nothing is
    posted, and the hook of the commit removes the first record that
    matches from [receivedMutations], which is as long afterwards as it
    was before and, when it held no matching record, is what it was. *)
Theorem peer_commits_received_mutation_without_echo
    (fuel : nat) (r : ChangeRecord) (p : ContentScript) :
  initialized p = true ->
  type r <> vweReplaceState ->
  type r ∉ ignoredMutations (settings p) ->
  exists p',
    onMessage fuel (SyncMutation r) p = (Returned tt, p') /\
    connection p' = connection p /\
    commits (store p') = commits (store p) ++ [(type r, payload r)] /\
    state (store p') = mutationHandler (type r) (payload r) (state (store p)) /\
    length (receivedMutations p') = length (receivedMutations p) /\
    pendingMutations p' = pendingMutations p /\
    ((forall e, e ∈ receivedMutations p -> sameTypeAndPayload r e = false) ->
     receivedMutations p' = receivedMutations p).
Proof.
  intros Hi Hr Hig.
  destruct (peer_receive_mutation_run fuel r p Hi) as (i & Hfind & Hle & Hlast & Hrun).
  { by apply stuckType_spec. }
  rewrite Hrun. eexists. split; [done|]. simpl.
  repeat split; auto.
  - unfold Store_apply. by rewrite bool_decide_eq_false_2.
  - rewrite length_delete.
    + rewrite length_app. simpl. lia.
    + apply lookup_lt_is_Some. rewrite length_app. simpl. lia.
  - intros Hno. rewrite (Hlast Hno). by rewrite delete_middle, app_nil_r.
Qed.

(** X11.  A record of the reserved type is never consumed.  When the hub
    relays its own [vweReplaceState] (it does when it restores persisted
    states), an initialized peer overwrites its state with the payload,
    posts nothing, and appends the record to [receivedMutations]: the
    hook returns on the reserved type before it looks at the list.  The
    record is in the list for good, whatever happens to the peer
    afterwards. *)
Theorem reserved_record_stays
    (fuel : nat) (data : Value) (p p' : ContentScript) :
  initialized p = true ->
  evolves
    (onMessage fuel (SyncMutation {| type := vweReplaceState; payload := data |}) p).2
    p' ->
  onMessage fuel (SyncMutation {| type := vweReplaceState; payload := data |}) p
  = (Returned tt,
     set_store (Store_commit vweReplaceState data)
       (set_receivedMutations
          (fun l => l ++ [{| type := vweReplaceState; payload := data |}]) p)) /\
  state (store (onMessage fuel
                  (SyncMutation {| type := vweReplaceState; payload := data |}) p).2)
  = data /\
  {| type := vweReplaceState; payload := data |} ∈ receivedMutations p'.
Proof.
  intros Hi Hev.
  assert (onMessage fuel
            (SyncMutation {| type := vweReplaceState; payload := data |}) p
          = (Returned tt,
             set_store (Store_commit vweReplaceState data)
               (set_receivedMutations
                  (fun l => l ++ [{| type := vweReplaceState; payload := data |}]) p)))
    as Hrun.
  { unfold onMessage, bind, gets, modify. rewrite Hi. simpl.
    by rewrite commit_reserved. }
  rewrite Hrun in *. split; [done|]. split.
  - simpl. unfold Store_apply. by rewrite ?bool_decide_eq_true_2.
  - apply evolves_keeps in Hev as (_ & _ & _ & _ & _ & Hpre). simpl in Hpre.
    assert ({| type := vweReplaceState; payload := data |}
              ∈ stuckRecords (settings p) (receivedMutations p')) as Hin.
    { eapply elem_of_prefix; [|exact Hpre].
      unfold stuckRecords. rewrite filter_app. apply elem_of_app. right.
      rewrite filter_cons_True; [apply list_elem_of_here|].
      unfold stuckType. by rewrite bool_decide_eq_true_2. }
    unfold stuckRecords in Hin. by apply list_elem_of_filter in Hin as [_ Hin].
Qed.

(** X12.  Whether an initialized peer sends a received action back
    depends on what the store does with the object-style call
    [dispatch(record)].  When the store has no action of the record's
    type it calls no subscriber: the record stays in [receivedActions]
    and nothing is posted.  Otherwise, with the action hook registered,
    a type that is not ignored, a payload that is no [Event] and no
    matching record already in [receivedActions]: when the store hands
    its subscribers a payload that serialises as the received one, the
    record is removed again and nothing is posted; when it hands them a
    payload that serialises differently, the record stays and the
    action, with that payload, is sent to the hub, the store catching
    the exception of a send that fails.  In either case the handler of
    the action then commits its mutations. *)
Theorem peer_action_echo_depends_on_dispatch_style
    (fuel : nat) (r : ChangeRecord) (p : ContentScript) :
  initialized p = true ->
  actionsHooked (settings p) = true ->
  type r ∉ ignoredActions (settings p) ->
  instanceofEvent (objectStylePayload (type r) (payload r)) = false ->
  (forall e, e ∈ receivedActions p ->
     sameTypeAndPayload (dispatchedAction (DispatchObject r)) e = false) ->
  (actionHandler (type r) = None ->
   onMessage fuel (SyncAction r) p
   = (Returned tt,
      set_store (Store_recordDispatch (DispatchObject r))
        (set_receivedActions (fun l => l ++ [r]) p))) /\
  (forall handler,
     actionHandler (type r) = Some handler ->
     (JSON_stringify (objectStylePayload (type r) (payload r))
        = JSON_stringify (payload r) ->
      onMessage fuel (SyncAction r) p
      = handlerCommits handler (objectStylePayload (type r) (payload r))
          (set_store (Store_recordDispatch (DispatchObject r)) p)) /\
     (JSON_stringify (objectStylePayload (type r) (payload r))
        <> JSON_stringify (payload r) ->
      onMessage fuel (SyncAction r) p
      = bind (try_catch (sendAction (dispatchedAction (DispatchObject r)))
                (fun err => ret tt))
          (fun _ => handlerCommits handler (objectStylePayload (type r) (payload r)))
          (set_store (Store_recordDispatch (DispatchObject r))
             (set_receivedActions (fun l => l ++ [r]) p)))).
Proof.
  intros Hi Hon Hig Hev Hno.
  set (a := dispatchedAction (DispatchObject r)).
  set (p1 := set_store (Store_recordDispatch (DispatchObject r))
               (set_receivedActions (fun l => l ++ [r]) p)).
  assert (onMessage fuel (SyncAction r) p
          = dispatch (DispatchObject r) (set_receivedActions (fun l => l ++ [r]) p))
    as ->.
  { unfold onMessage, bind, gets, modify. by rewrite Hi. }
  split.
  { intros Hnone. by rewrite dispatch_unregistered. }
  intros handler Hh. rewrite (dispatch_registered _ _ handler) by done.
  change (settings (set_receivedActions (fun l => l ++ [r]) p)) with (settings p).
  unfold actionsHooked in Hon. rewrite Hon.
  unfold actionSubscriber. fold a p1.
  change (payload a) with (objectStylePayload (type r) (payload r)). rewrite Hev.
  assert (hookAction a p1
          = match findIndex (sameTypeAndPayload a) (receivedActions p ++ [r]) with
            | Some index => (Returned tt, set_receivedActions (delete index) p1)
            | None => sendAction a p1
            end) as Hhook.
  { by rewrite hookAction_initialized. }
  split; intros Hpl.
  - assert (sameTypeAndPayload a r = true) as Hm.
    { apply sameTypeAndPayload_true. by split. }
    destruct (findIndex_snoc_bound (sameTypeAndPayload a) (receivedActions p) r Hm)
      as (i & Hfind & _ & Hlast).
    rewrite Hfind, (Hlast Hno) in Hhook.
    unfold bind, try_catch. rewrite Hhook.
    assert (set_receivedActions (delete (length (receivedActions p))) p1
            = set_store (Store_recordDispatch (DispatchObject r)) p) as ->; [|done].
    unfold p1, set_receivedActions, set_store. simpl.
    rewrite delete_middle, app_nil_r. by destruct p.
  - rewrite (proj2 (findIndex_None _ _)) in Hhook.
    + unfold bind, try_catch. by rewrite Hhook.
    + intros e He. apply elem_of_app in He as [He|He]; [by apply Hno|].
      apply list_elem_of_singleton in He as ->.
      apply sameTypeAndPayload_false. intros [_ H]. by apply Hpl.
Qed.

End PeerReceives.

(** ** What is posted *)

Section PeerPosts.
Context {RT : Runtime}.
Import Content.

Lemma posts_refl (p : ContentScript) : posts p p.
Proof. split; [done|]. exists []. by rewrite app_nil_r. Qed.

Lemma posts_trans (p1 p2 p3 : ContentScript) :
  posts p1 p2 -> posts p2 p3 -> posts p1 p3.
Proof.
  intros (Hs1 & x1 & Ho1 & Hx1) (Hs2 & x2 & Ho2 & Hx2).
  split; [congruence|]. exists (x1 ++ x2).
  rewrite Ho2, Ho1, app_assoc. split; [done|].
  apply Forall_app. split; [done|]. by rewrite <- Hs1.
Qed.

Lemma posts_same (p p' : ContentScript) :
  settings p' = settings p -> outbox (connection p') = outbox (connection p) ->
  posts p p'.
Proof. intros Hs Ho. split; [done|]. exists []. by rewrite app_nil_r. Qed.

Lemma postMessage_posts (msg : Message) (p : ContentScript) :
  postable (settings p) msg -> posts p (postMessage msg p).2.
Proof.
  intros Hmsg. rewrite postMessage_run.
  destruct (disconnected _); [apply posts_refl|].
  split; [done|]. exists [msg]. split; [done|]. by apply Forall_singleton.
Qed.

Lemma hookMutation_posts (m : ChangeRecord) (p : ContentScript) :
  posts p (hookMutation m p).2.
Proof.
  unfold hookMutation, bind, gets, ret, modify.
  destruct (bool_decide (type m = vweReplaceState)) eqn:Hr; [apply posts_refl|].
  destruct (isIgnored _ _) eqn:Hig; [apply posts_refl|].
  assert (posts p (sendMutation m p).2) as Hsend.
  { apply postMessage_posts. simpl. unfold stuckType. by rewrite Hr, Hig. }
  destruct (negb _); [by apply posts_same|].
  destruct (bool_decide (length _ = 0)); [done|].
  destruct (findIndex _ _); [by apply posts_same|done].
Qed.

Lemma hookAction_posts (a : ChangeRecord) (p : ContentScript) :
  actionsHooked (settings p) = true -> cleaned a ->
  posts p (hookAction a p).2.
Proof.
  intros Hhook Ha. unfold hookAction, bind, gets, ret, modify.
  destruct (isIgnored _ _) eqn:Hig; [apply posts_refl|].
  assert (posts p (sendAction a p).2) as Hsend.
  { by apply postMessage_posts. }
  destruct (negb _); [by apply posts_same|].
  destruct (bool_decide (length _ = 0)); [done|].
  destruct (findIndex _ _); [by apply posts_same|done].
Qed.

Lemma bind_posts {A} (c : Eff ContentScript A) (k : A -> Eff ContentScript unit)
    (p : ContentScript) :
  posts p (c p).2 ->
  (forall a, posts (c p).2 (k a (c p).2).2) ->
  posts p (bind c k p).2.
Proof.
  intros Hc Hk. unfold bind. destruct (c p) as [[a|e|] p1]; simpl in *; [|done..].
  eapply posts_trans; [exact Hc|apply Hk].
Qed.

Lemma commit_posts (ty : string) (pl : Value) (p : ContentScript) :
  posts p (commit ty pl p).2.
Proof.
  apply bind_posts; [by apply posts_same|]. intros _. apply hookMutation_posts.
Qed.

Lemma actionSubscriber_posts (a : ChangeRecord) (p : ContentScript) :
  syncActions (settings p) && hasSubscribeAction = true ->
  posts p (actionSubscriber a p).2.
Proof.
  intros Hhook. unfold actionSubscriber.
  apply hookAction_posts; [done|]. unfold cleaned.
  destruct (instanceofEvent (payload a)) eqn:He; [by right|by left].
Qed.

Lemma dispatch_posts (call : DispatchCall) (p : ContentScript) :
  posts p (dispatch call p).2.
Proof.
  eapply posts_trans;
    [by apply (posts_same p (set_store (Store_recordDispatch call) p))|].
  apply (dispatch_preserves posts).
  - apply posts_refl.
  - apply posts_trans.
  - apply commit_posts.
  - apply actionSubscriber_posts.
Qed.

Lemma pendingMutationsLoop_posts (fuel : nat) (p : ContentScript) :
  posts p (pendingMutationsLoop fuel p).2.
Proof.
  revert p. induction fuel as [|fuel IH]; intros p; simpl.
  - unfold bind, gets. destruct (pendingMutations p); apply posts_refl.
  - unfold bind at 1. unfold gets at 1.
    destruct (pendingMutations p) as [|m rest]; [apply posts_refl|].
    apply bind_posts; [by apply posts_same|]. intros _.
    apply bind_posts; [apply commit_posts|]. intros _. apply IH.
Qed.

Lemma onMessage_posts (fuel : nat) (message : Message) (p : ContentScript) :
  posts p (onMessage fuel message p).2.
Proof.
  destruct message as [|data|r|r|ty]; simpl; try apply posts_refl.
  - apply bind_posts; [apply commit_posts|]. intros _.
    apply bind_posts; [by apply posts_same|]. intros _.
    unfold processPendingMutations, bind, gets.
    destruct (bool_decide _); [apply posts_refl|apply pendingMutationsLoop_posts].
  - unfold bind at 1. unfold gets at 1.
    destruct (negb _); [apply posts_refl|].
    apply bind_posts; [by apply posts_same|intros _; apply commit_posts].
  - unfold bind at 1. unfold gets at 1.
    destruct (negb _); [apply posts_refl|].
    apply bind_posts; [by apply posts_same|intros _; apply dispatch_posts].
Qed.

Lemma handle_posts (fuel : nat) (e : Event) (p : ContentScript) :
  posts p (handle fuel e p).2.
Proof.
  destruct e as [message|ty pl|call|]; simpl.
  - apply onMessage_posts.
  - apply commit_posts.
  - apply dispatch_posts.
  - by apply posts_same.
Qed.

Lemma evolves_posts (p p' : ContentScript) : evolves p p' -> posts p p'.
Proof.
  induction 1 as [|fuel e p' Hev IH Hfuel]; [apply posts_refl|].
  eapply posts_trans; [exact IH|apply handle_posts].
Qed.

(** X13.  Whatever happens to a peer, what it posts is a list of
    mutation-sync and action-sync envelopes added at the end of what it
    had posted: it never posts a mutation of the reserved type or of an
    ignored type, never an action of an ignored type, no action at all
    unless [settings.syncActions] is [true], and never any other kind of
    envelope. *)
Theorem peer_posts_only_relayed_types (p p' : ContentScript) :
  evolves p p' ->
  exists extra,
    outbox (connection p') = outbox (connection p) ++ extra /\
    Forall (fun msg =>
              match msg with
              | SyncMutation m =>
                  type m <> vweReplaceState /\ type m ∉ ignoredMutations (settings p)
              | SyncAction a =>
                  syncActions (settings p) = true /\
                  type a ∉ ignoredActions (settings p)
              | _ => False
              end) extra.
Proof.
  intros Hev. destruct (evolves_posts p p' Hev) as (_ & extra & Hout & Hall).
  exists extra. split; [done|].
  eapply Forall_impl; [exact Hall|].
  intros [|data|m|a|ty]; simpl; try done.
  - apply stuckType_spec.
  - intros (Hhook & Hig & _). apply andb_true_iff in Hhook as [Hsync _].
    split; [done|]. by apply isIgnored_false.
Qed.

(** X14.  An [Event] never reaches the port of a peer: the payload of
    every action envelope that a peer posts is [null], or it is no
    instance of [Event].  The action subscriber of the constructor
    cleans the payload before the hook sees it, and nothing else calls
    the hook. *)
Theorem peer_never_posts_an_event_payload (p p' : ContentScript) :
  evolves p p' ->
  exists extra,
    outbox (connection p') = outbox (connection p) ++ extra /\
    forall a, SyncAction a ∈ extra ->
      instanceofEvent (payload a) = false \/ payload a = null.
Proof.
  intros Hev. destruct (evolves_posts p p' Hev) as (_ & extra & Hout & Hall).
  exists extra. split; [done|]. intros a Ha.
  rewrite Forall_forall in Hall. by destruct (Hall _ Ha) as (_ & _ & Hclean).
Qed.

End PeerPosts.

Section HubPosts.
Context {RT : Runtime}.
Import Background.

Lemma hub_posts_refl (b : BackgroundScript) : posts b b.
Proof.
  split; [done|]. split; [done|]. intros d D D' HD HD'.
  exists []. rewrite app_nil_r. split; [congruence|done].
Qed.

Lemma hub_posts_trans (b1 b2 b3 : BackgroundScript) :
  posts b1 b2 -> posts b2 b3 -> posts b1 b3.
Proof.
  intros (Hs1 & Hl1 & H1) (Hs2 & Hl2 & H2).
  split; [congruence|]. split; [lia|].
  intros d D1 D3 HD1 HD3.
  destruct (heap b2 !! d) as [D2|] eqn:HD2.
  - destruct (H1 d D1 D2 HD1 HD2) as (x1 & Ho1 & Hx1).
    destruct (H2 d D2 D3 HD2 HD3) as (x2 & Ho2 & Hx2).
    exists (x1 ++ x2). rewrite Ho2, Ho1, app_assoc. split; [done|].
    apply Forall_app. split; [done|]. by rewrite <- Hs1.
  - apply lookup_ge_None in HD2. apply lookup_lt_Some in HD1. lia.
Qed.

Lemma hub_bind_posts {A} (c : Eff BackgroundScript A)
    (k : A -> Eff BackgroundScript unit) (b : BackgroundScript) :
  posts b (c b).2 ->
  (forall a, posts (c b).2 (k a (c b).2).2) ->
  posts b (bind c k b).2.
Proof.
  intros Hc Hk. unfold bind. destruct (c b) as [[a|e|] b1]; simpl in *; [|done..].
  eapply hub_posts_trans; [exact Hc|apply Hk].
Qed.

Lemma hub_posts_updateConnection (c : nat) (f : Connection -> Connection)
    (b : BackgroundScript) :
  (forall D, exists extra,
     outbox (port (f D)) = outbox (port D) ++ extra /\
     Forall (postable (settings b)) extra) ->
  posts b (updateConnection c f b).
Proof.
  intros Hf. split; [done|]. split; [simpl; by rewrite length_alter|].
  intros d D D' HD. simpl. destruct (decide (c = d)) as [->|Hne].
  - rewrite list_lookup_alter_eq, HD. simpl. intros [= <-]. apply Hf.
  - rewrite list_lookup_alter_ne, HD by done. intros [= <-].
    exists []. by rewrite app_nil_r.
Qed.

Lemma hub_posts_updateAll (f : Connection -> Connection) (cs : list nat)
    (b : BackgroundScript) :
  (forall D, exists extra,
     outbox (port (f D)) = outbox (port D) ++ extra /\
     Forall (postable (settings b)) extra) ->
  posts b (updateAll f cs b).
Proof.
  intros Hf. revert b Hf. induction cs as [|c cs IH]; intros b Hf; simpl.
  - apply hub_posts_refl.
  - eapply hub_posts_trans; [by apply hub_posts_updateConnection|].
    by apply IH.
Qed.

Lemma hub_posts_same_heap (b b' : BackgroundScript) :
  settings b' = settings b -> heap b' = heap b -> posts b b'.
Proof.
  intros Hs Hh. split; [done|]. rewrite Hh. split; [done|].
  intros d D D' HD HD'. exists []. rewrite app_nil_r. split; [congruence|done].
Qed.

Lemma posted_extra (s : Settings) (msg : Message) (D : Connection) :
  postable s msg ->
  exists extra,
    outbox (port (posted msg D)) = outbox (port D) ++ extra /\
    Forall (postable s) extra.
Proof.
  intros Hmsg. unfold posted, Port_postMessage.
  destruct (disconnected (port D)); simpl.
  - exists []. by rewrite app_nil_r.
  - exists [msg]. split; [done|]. by apply Forall_singleton.
Qed.

Lemma same_extra (s : Settings) (D' D : Connection) :
  port D' = port D ->
  exists extra,
    outbox (port D') = outbox (port D) ++ extra /\ Forall (postable s) extra.
Proof. intros ->. exists []. by rewrite app_nil_r. Qed.

Lemma hub_posts_hookMutation (r : ChangeRecord) (b : BackgroundScript) :
  posts b (hookMutation r b).2.
Proof.
  rewrite hookMutation_run. simpl.
  destruct (isIgnored _ _) eqn:Hig; [apply hub_posts_refl|].
  eapply hub_posts_trans; [|by apply hub_posts_same_heap].
  apply hub_posts_updateAll. intros D. unfold afterRelayMutation.
  destruct (skipped D); [by apply same_extra|].
  destruct (scanDown _ _ _); [by apply same_extra|by apply posted_extra].
Qed.

Lemma hub_posts_hookAction (r : ChangeRecord) (b : BackgroundScript) :
  actionsHooked (settings b) = true ->
  posts b (hookAction r b).2.
Proof.
  intros Hhook. rewrite hookAction_run. simpl.
  destruct (isIgnored _ _) eqn:Hig; [apply hub_posts_refl|].
  apply hub_posts_updateAll. intros D. unfold afterRelayAction.
  destruct (skipped D); [by apply same_extra|].
  destruct (scanDown _ _ _); [by apply same_extra|by apply posted_extra].
Qed.

Lemma hub_posts_commit (ty : string) (pl : Value) (b : BackgroundScript) :
  posts b (commit ty pl b).2.
Proof.
  rewrite commit_run. simpl.
  eapply hub_posts_trans; [|apply hub_posts_hookMutation].
  by apply hub_posts_same_heap.
Qed.

Lemma hub_posts_committed (ms : list (string * Value)) (b : BackgroundScript) :
  posts b (committed ms b).
Proof.
  revert b. induction ms as [|m ms IH]; intros b; [apply hub_posts_refl|].
  eapply hub_posts_trans; [apply hub_posts_commit|apply IH].
Qed.

Lemma hub_posts_dispatch (call : DispatchCall) (b : BackgroundScript) :
  posts b (dispatch call b).2.
Proof.
  rewrite dispatch_run. simpl.
  destruct (actionHandler _); [|by apply hub_posts_same_heap].
  eapply hub_posts_trans; [|apply hub_posts_committed].
  eapply hub_posts_trans;
    [by apply (hub_posts_same_heap b (set_store (Store_recordDispatch call) b))|].
  unfold afterSubscriber. destruct (syncActions _ && _) eqn:Hhook;
    [|apply hub_posts_refl].
  by apply hub_posts_hookAction.
Qed.

Lemma hub_posts_syncAllDown (n : nat) (b : BackgroundScript) :
  posts b (syncAllDown n b).2.
Proof.
  rewrite syncAllDown_updates. simpl.
  apply hub_posts_updateAll. intros D. by apply posted_extra.
Qed.

Lemma hub_posts_handle (e : Event) (b : BackgroundScript) :
  posts b (handle e b).2.
Proof.
  destruct e as [n p|c|c message|ty pl|call|saved|c]; simpl.
  - unfold onConnection, bind, gets, modify. rewrite syncCurrentState_run. simpl.
    split; [done|]. simpl. rewrite length_alter, length_app. split; [lia|].
    intros d D D' HD. pose proof (lookup_lt_Some _ _ _ HD) as Hlt.
    rewrite list_lookup_alter_ne, lookup_app_l, HD by lia. intros [= <-].
    exists []. by rewrite app_nil_r.
  - unfold onDisconnect, bind, gets, modify.
    destruct (heap b !! c); [by apply hub_posts_same_heap|apply hub_posts_refl].
  - destruct message as [|data|r|r|ty]; try apply hub_posts_refl.
    + unfold onMessage, bind, modify.
      eapply hub_posts_trans; [|apply hub_posts_commit].
      apply hub_posts_updateConnection. intros D. by apply same_extra.
    + unfold onMessage, bind, modify.
      eapply hub_posts_trans; [|apply hub_posts_dispatch].
      apply hub_posts_updateConnection. intros D. by apply same_extra.
  - apply hub_posts_commit.
  - apply hub_posts_dispatch.
  - unfold onPersistentStates. unfold bind at 1. unfold gets at 1.
    destruct (bool_decide _); [apply hub_posts_refl|].
    destruct saved as [v|]; [|apply hub_posts_refl].
    apply hub_bind_posts; [apply hub_posts_refl|]. intros st.
    apply hub_bind_posts; [apply hub_posts_commit|]. intros _.
    apply hub_bind_posts; [apply hub_posts_refl|]. intros n.
    destruct (bool_decide _); [apply hub_posts_syncAllDown|apply hub_posts_refl].
  - apply hub_posts_updateConnection. intros D. exists []. by rewrite app_nil_r.
Qed.

(** X15.  Whatever a hub does in answer to an event, what it posts to a
    connection is added at the end of what was posted before, and it is
    the state, a mutation of a type that is not ignored or, when
    [settings.syncActions] is [true], an action of a type that is not
    ignored: no ignored type ever leaves the hub. *)
Theorem hub_posts_only_relayed_types
    (e : Event) (b : BackgroundScript) (d : nat) (D : Connection) :
  heap b !! d = Some D ->
  exists D' extra,
    heap (handle e b).2 !! d = Some D' /\
    outbox (port D') = outbox (port D) ++ extra /\
    Forall (fun msg =>
              match msg with
              | SyncState _ => True
              | SyncMutation m => type m ∉ ignoredMutations (settings b)
              | SyncAction a =>
                  syncActions (settings b) = true /\
                  type a ∉ ignoredActions (settings b)
              | _ => False
              end) extra.
Proof.
  intros HD. destruct (hub_posts_handle e b) as (_ & Hlen & Hposts).
  destruct (heap (handle e b).2 !! d) as [D'|] eqn:HD'.
  - destruct (Hposts d D D' HD HD') as (extra & Hout & Hall).
    exists D', extra. repeat split; auto.
    eapply Forall_impl; [exact Hall|].
    intros [|data|m|a|ty]; simpl; try done; [apply isIgnored_false|].
    intros (Hhook & Hig). apply andb_true_iff in Hhook as [Hsync _].
    split; [done|]. by apply isIgnored_false.
  - apply lookup_ge_None in HD'. apply lookup_lt_Some in HD. lia.
Qed.

End HubPosts.

(** ** The name a peer connects under *)

Section PeerName.
Context {RT : Runtime}.

Lemma prefix_app_l (n a b : string) :
  String.prefix n a = true -> String.prefix n (a +:+ b) = true.
Proof.
  revert a. induction n as [|y n IH]; intros a; [intros _; by destruct (a +:+ b)|].
  destruct a as [|x a]; simpl; [done|].
  destruct (Ascii.ascii_dec y x); [apply IH|done].
Qed.

Lemma includes_app_l (n a b : string) :
  includes n a = true -> includes n (a +:+ b) = true.
Proof.
  induction a as [|x a IH].
  - cbn [includes]. rewrite orb_false_r. intros H.
    destruct n as [|y n]; [|done]. by destruct b.
  - change (String x a +:+ b) with (String x (a +:+ b)). cbn [includes].
    intros H. apply orb_true_iff in H as [H|H]; apply orb_true_iff.
    + left. by apply (prefix_app_l n (String x a) b).
    + right. by apply IH.
Qed.

(** X16.  Whether the hub relays to a peer is decided by the peer's
    [settings.connectionName] alone: the peer connects under
    [connectionName + "_" + scriptId], the script id has at most nine
    characters, and the relay passes skip that connection exactly when
    [connectionName] does not contain [vuex-webextensions]. *)
Theorem peer_is_skipped_iff_its_connectionName_is_unmarked
    (s : Settings) (id : string) (connection : Background.Connection) :
  String.length id <= 9 ->
  Background.name connection = Background.NameString (Content.connectionNameOf s id) ->
  Background.skipped connection
  = negb (includes "vuex-webextensions" (connectionName s)).
Proof.
  intros Hid Hname. unfold Background.skipped. rewrite Hname. f_equal.
  destruct (includes "vuex-webextensions" (connectionName s)) eqn:Hcn.
  - unfold Content.connectionNameOf. by apply includes_app_l.
  - by apply peer_name_unmarked.
Qed.

End PeerName.

(** ** From one peer to another *)

Section Propagation.
Context {RT : Runtime}.

(** X17.  A mutation committed on an initialized peer reaches every other
    peer through the hub and comes back to nobody.  The sender, which
    holds no matching record, posts one mutation envelope; the hub that
    receives it on the sender's connection commits it, leaves the
    sender's connection as it was and posts the envelope once on another
    registered connection that is not skipped and whose port is open; a
    peer that receives the envelope commits it and posts nothing.  The
    three stores, built from the same mutations, have applied the same
    handler to their states. *)
Theorem mutation_propagates_and_is_not_echoed
    (fuel : nat) (ty : string) (pl : Value)
    (sender receiver : Content.ContentScript) (b : Background.BackgroundScript)
    (c d : nat) (C D : Background.Connection) :
  Content.initialized sender = true ->
  disconnected (Content.connection sender) = false ->
  (forall e, e ∈ Content.receivedMutations sender ->
     sameTypeAndPayload {| type := ty; payload := pl |} e = false) ->
  ty <> vweReplaceState ->
  (ty ∉ ignoredMutations (Content.settings sender)) ->
  Background.reachable b ->
  (ty ∉ ignoredMutations (Background.settings b)) ->
  c ∈ Background.connections b ->
  Background.heap b !! c = Some C ->
  Background.skipped C = false ->
  d ∈ Background.connections b ->
  d <> c ->
  Background.heap b !! d = Some D ->
  Background.skipped D = false ->
  disconnected (Background.port D) = false ->
  Content.initialized receiver = true ->
  (ty ∉ ignoredMutations (Content.settings receiver)) ->
  exists sender' b' D' receiver',
    Content.commit ty pl sender = (Returned tt, sender') /\
    outbox (Content.connection sender')
    = outbox (Content.connection sender) ++ [SyncMutation {| type := ty; payload := pl |}] /\
    Background.onMessage c (SyncMutation {| type := ty; payload := pl |}) b
    = (Returned tt, b') /\
    Background.heap b' !! c = Some C /\
    Background.heap b' !! d = Some D' /\
    outbox (Background.port D')
    = outbox (Background.port D) ++ [SyncMutation {| type := ty; payload := pl |}] /\
    Content.onMessage fuel (SyncMutation {| type := ty; payload := pl |}) receiver
    = (Returned tt, receiver') /\
    Content.connection receiver' = Content.connection receiver /\
    state (Content.store sender') = mutationHandler ty pl (state (Content.store sender)) /\
    state (Background.store b') = mutationHandler ty pl (state (Background.store b)) /\
    state (Content.store receiver')
    = mutationHandler ty pl (state (Content.store receiver)).
Proof.
  intros Hi Hopen Hno Hr Hig Hreach Higb Hc HC HsC Hd Hdc HD HsD HopenD Hi' Hig'.
  set (r := {| type := ty; payload := pl |}).
  assert (Store_apply ty pl = mutationHandler ty pl) as Happly.
  { unfold Store_apply. by rewrite bool_decide_eq_false_2. }
  pose proof (reachable_consistent b Hreach) as Hcons.
  pose proof Hcons as (Hnd & _ & _).
  (* the sender *)
  assert (Content.commit ty pl sender
          = (Returned tt,
             Content.set_connection
               {| disconnected := false;
                  outbox := outbox (Content.connection sender) ++ [SyncMutation r] |}
               (Content.set_store (Store_commit ty pl) sender))) as Hsend.
  { unfold Content.commit, bind, modify.
    rewrite hookMutation_initialized by done. simpl.
    rewrite (proj2 (findIndex_None _ _) Hno).
    unfold Content.sendMutation. rewrite postMessage_run. simpl. by rewrite Hopen. }
  (* the hub *)
  pose proof (hub_round_origin c C r b Hnd Hc HC HsC Higb) as Horigin.
  pose proof (hub_round_other c d D r b Hnd Hd Hdc HD HsD Higb
                (consistent_no_match b d D r Hcons Hd HD HsD Higb)) as Hother.
  pose proof (onMessage_mutation_run c r b Higb) as Hhub.
  (* the receiver *)
  destruct (peer_receive_mutation_run fuel r receiver Hi') as (i & _ & _ & _ & Hrecv).
  { by apply stuckType_spec. }
  eexists _, _, (Background.posted (SyncMutation r) D), _.
  split; [exact Hsend|]. split; [done|].
  rewrite Hhub in Horigin, Hother.
  split; [exact Hhub|].
  split; [exact Horigin|]. split; [exact Hother|].
  split; [by apply posted_connected|].
  split; [exact Hrecv|]. split; [done|].
  split; [simpl; by rewrite Happly|]. split; [|simpl; by rewrite Happly].
  simpl.
  match goal with |- context [Background.updateAll ?f ?l ?x] =>
    destruct (updateAll_fields f l x) as (-> & _) end.
  simpl. by rewrite Happly.
Qed.

End Propagation.

(** ** The queue of actions *)

Section PeerPendingActions.
Context {RT : Runtime}.
Import Content.

(** What a step of an initialized peer with a connected port leaves when
    it posts no action: the fields that the replay of the queue of
    actions depends on. *)
Lemma hookMutation_quiet (m : ChangeRecord) (p : ContentScript) :
  initialized p = true ->
  disconnected (connection p) = false ->
  exists p' extra,
    hookMutation m p = (Returned tt, p') /\
    store p' = store p /\ settings p' = settings p /\
    initialized p' = true /\
    pendingActions p' = pendingActions p /\
    receivedActions p' = receivedActions p /\
    disconnected (connection p') = false /\
    outbox (connection p') = outbox (connection p) ++ extra /\
    omap actionOf extra = [].
Proof.
  intros Hi Hopen. unfold hookMutation, bind, gets, ret, modify.
  assert (exists p' extra, (Returned tt, p) = (Returned tt, p') /\
    store p' = store p /\ settings p' = settings p /\
    initialized p' = true /\
    pendingActions p' = pendingActions p /\
    receivedActions p' = receivedActions p /\
    disconnected (connection p') = false /\
    outbox (connection p') = outbox (connection p) ++ extra /\
    omap actionOf extra = []) as Hsame.
  { exists p, []. by rewrite app_nil_r. }
  destruct (bool_decide _); [done|].
  destruct (isIgnored _ _); [done|].
  rewrite Hi. simpl.
  assert (exists p' extra, sendMutation m p = (Returned tt, p') /\
    store p' = store p /\ settings p' = settings p /\
    initialized p' = true /\
    pendingActions p' = pendingActions p /\
    receivedActions p' = receivedActions p /\
    disconnected (connection p') = false /\
    outbox (connection p') = outbox (connection p) ++ extra /\
    omap actionOf extra = []) as Hsend.
  { unfold sendMutation. rewrite postMessage_run, Hopen.
    eexists _, [SyncMutation m]. by repeat split. }
  destruct (bool_decide _); [done|].
  destruct (findIndex _ _); [|done].
  eexists _, []. rewrite app_nil_r. by repeat split.
Qed.

Lemma forEach_commit_quiet (ms : list (string * Value)) (p : ContentScript) :
  initialized p = true ->
  disconnected (connection p) = false ->
  exists p' extra,
    forEach ms (fun m => commit m.1 m.2) p = (Returned tt, p') /\
    store p' = foldl (fun s m => Store_commit m.1 m.2 s) (store p) ms /\
    settings p' = settings p /\
    initialized p' = true /\
    pendingActions p' = pendingActions p /\
    receivedActions p' = receivedActions p /\
    disconnected (connection p') = false /\
    outbox (connection p') = outbox (connection p) ++ extra /\
    omap actionOf extra = [].
Proof.
  revert p. induction ms as [|m ms IH]; intros p Hi Hopen.
  { exists p, []. by rewrite app_nil_r. }
  cbn [forEach]. unfold bind at 1. unfold commit at 1. unfold bind at 1.
  unfold modify at 1.
  destruct (hookMutation_quiet {| type := m.1; payload := m.2 |}
              (set_store (Store_commit m.1 m.2) p) Hi Hopen)
    as (p1 & x1 & -> & Hst1 & Hse1 & Hi1 & Hpa1 & Hra1 & Ho1 & Hout1 & Hx1).
  destruct (IH p1 Hi1 Ho1)
    as (p2 & x2 & -> & Hst2 & Hse2 & Hi2 & Hpa2 & Hra2 & Ho2 & Hout2 & Hx2).
  exists p2, (x1 ++ x2). simpl in *.
  rewrite Hst2, Hst1, Hout2, Hout1, omap_app, Hx1, Hx2, app_assoc.
  repeat split; auto; congruence.
Qed.

(** A dispatch on an initialized peer that has received no action and
    whose port is connected: the action is sent if the store has an
    action of its type, and the handler commits its mutations. *)
Lemma dispatch_own_action (ty : string) (pl : Value) (p : ContentScript) :
  initialized p = true ->
  actionsHooked (settings p) = true ->
  receivedActions p = [] ->
  disconnected (connection p) = false ->
  (ty ∉ ignoredActions (settings p)) ->
  instanceofEvent pl = false ->
  exists p' extra,
    dispatch (DispatchTypePayload ty pl) p = (Returned tt, p') /\
    store p' = Store_handled (DispatchTypePayload ty pl) (store p) /\
    settings p' = settings p /\
    initialized p' = true /\
    pendingActions p' = pendingActions p /\
    receivedActions p' = [] /\
    disconnected (connection p') = false /\
    outbox (connection p') = outbox (connection p) ++ extra /\
    omap actionOf extra
    = match actionHandler ty with
      | Some _ => [{| type := ty; payload := pl |}]
      | None => []
      end.
Proof.
  intros Hi Hhook Hra Hopen Hig Hev. unfold actionsHooked in Hhook.
  unfold Store_handled. cbn [dispatchedAction type payload].
  destruct (actionHandler ty) as [handler|] eqn:Hh.
  - rewrite (dispatch_registered _ _ handler) by done.
    rewrite Hhook. unfold actionSubscriber. cbn [dispatchedAction type payload].
    rewrite Hev. unfold bind at 1.
    set (p0 := set_store _ p).
    assert (hookAction {| type := ty; payload := pl |} p0
            = (Returned tt,
               set_connection
                 {| disconnected := false;
                    outbox := outbox (connection p)
                              ++ [SyncAction {| type := ty; payload := pl |}] |} p0))
      as Hhook'.
    { rewrite hookAction_initialized by done. simpl. rewrite Hra. simpl.
      unfold sendAction. rewrite postMessage_run. simpl. by rewrite Hopen. }
    unfold try_catch. rewrite Hhook'.
    unfold handlerCommits, bind, gets. simpl.
    match goal with |- context [forEach ?ms _ ?q] =>
      destruct (forEach_commit_quiet ms q)
        as (p' & x & -> & Hst & Hse & Hi' & Hpa & Hra' & Ho & Hout & Hx); [done..|]
    end.
    exists p', (SyncAction {| type := ty; payload := pl |} :: x).
    split; [done|]. split; [done|]. split; [done|]. split; [done|].
    split; [done|]. split; [rewrite Hra'; exact Hra|]. split; [done|].
    split; [rewrite Hout; simpl; by rewrite <- app_assoc|].
    simpl. f_equal. exact Hx.
  - rewrite dispatch_unregistered by done.
    eexists _, []. rewrite app_nil_r. by repeat split.
Qed.

Lemma pendingActionsLoop_sends (fuel : nat) (p : ContentScript) :
  initialized p = true ->
  actionsHooked (settings p) = true ->
  receivedActions p = [] ->
  disconnected (connection p) = false ->
  Forall (fun a => (type a ∉ ignoredActions (settings p)) /\
                   instanceofEvent (payload a) = false) (pendingActions p) ->
  length (pendingActions p) <= fuel ->
  exists p' extra,
    pendingActionsLoop fuel p = (Returned tt, p') /\
    pendingActions p' = [] /\
    store p'
    = foldl (fun s a => Store_handled (DispatchTypePayload (type a) (payload a)) s)
        (store p) (pendingActions p) /\
    outbox (connection p') = outbox (connection p) ++ extra /\
    omap actionOf extra
    = filter (fun a => is_Some (actionHandler (type a))) (pendingActions p).
Proof.
  revert p. induction fuel as [|fuel IH]; intros p Hi Hhook Hra Hopen Hall Hlen.
  - destruct (pendingActions p) as [|a rest] eqn:E; [|simpl in Hlen; lia].
    exists p, []. simpl. unfold bind, gets. rewrite E. simpl.
    by rewrite !app_nil_r.
  - simpl. unfold bind at 1. unfold gets at 1.
    destruct (pendingActions p) as [|a rest] eqn:E.
    { exists p, []. simpl. by rewrite !app_nil_r. }
    apply Forall_cons in Hall as [[Hig Hev] Hall]. simpl in Hlen.
    unfold bind at 1. unfold modify at 1.
    unfold bind at 1.
    destruct (dispatch_own_action (type a) (payload a)
                (set_pendingActions (fun _ => rest) p))
      as (p1 & x1 & -> & Hst1 & Hse1 & Hi1 & Hpa1 & Hra1 & Ho1 & Hout1 & Hx1);
      [done..|].
    simpl in Hst1, Hse1, Hpa1, Hout1.
    destruct (IH p1) as (p2 & x2 & -> & Hpa2 & Hst2 & Hout2 & Hx2);
      [done|by rewrite Hse1|done|done|by rewrite Hse1, Hpa1|rewrite Hpa1; lia|].
    exists p2, (x1 ++ x2).
    rewrite Hst2, Hst1, Hout2, Hout1, omap_app, Hx1, Hx2, Hpa1, app_assoc.
    repeat split; auto. rewrite filter_cons.
    destruct (actionHandler (type a)) as [h|]; destruct a.
    + by destruct (decide (is_Some (Some h))) as [|[]]; [|eauto].
    + by destruct (decide (is_Some (@None (Value -> Value -> list (string * Value)))))
        as [[? [=]]|].
Qed.

(** X18.  [processPendingActions], which nothing in the peer calls,
    would replay the queue: on an initialized peer with the action hook
    registered, a connected port and no received action, it returns when
    the loop is given as many iterations as the queue is long.  It has
    then dispatched every queued action in order with the arguments
    [(type, payload)], so that the store has recorded each call and run
    the handler of each action that it knows, and it has posted to the
    hub, in order, the queued actions whose type the store knows; the
    queue is empty afterwards. *)
Theorem pending_actions_would_be_dispatched_and_sent
    (fuel : nat) (p : ContentScript) :
  initialized p = true ->
  actionsHooked (settings p) = true ->
  receivedActions p = [] ->
  disconnected (connection p) = false ->
  Forall (fun a => (type a ∉ ignoredActions (settings p)) /\
                   instanceofEvent (payload a) = false) (pendingActions p) ->
  length (pendingActions p) <= fuel ->
  exists p' extra,
    processPendingActions fuel p = (Returned tt, p') /\
    pendingActions p' = [] /\
    store p'
    = foldl (fun s a => Store_handled (DispatchTypePayload (type a) (payload a)) s)
        (store p) (pendingActions p) /\
    outbox (connection p') = outbox (connection p) ++ extra /\
    omap actionOf extra
    = filter (fun a => is_Some (actionHandler (type a))) (pendingActions p).
Proof.
  intros Hi Hhook Hra Hopen Hall Hlen.
  unfold processPendingActions, bind, gets.
  destruct (pendingActions p) as [|a rest] eqn:E.
  - exists p, []. simpl. by rewrite !app_nil_r.
  - rewrite bool_decide_eq_false_2 by done. rewrite <- E in *.
    by apply pendingActionsLoop_sends.
Qed.

End PeerPendingActions.

(** ** The extra properties on concrete hubs and peers *)

Section Instances.
Import Json.


Lemma twoTabs_reachable (s : Settings) : Background.reachable (connectTwoTabs s).
Proof.
  unfold connectTwoTabs. do 2 apply Background.reachable_step.
  apply Background.reachable_new.
Qed.

Lemma queuedPeer_evolves : Content.evolves freshPeer queuedPeer.
Proof.
  apply (Content.evolves_step freshPeer 0 (@Content.Committed runtime "inc" JNull) freshPeer).
  - apply Content.evolves_refl.
  - by vm_compute.
Qed.

Lemma replayedPeer_evolves : Content.evolves freshPeer replayedPeer.
Proof.
  apply (Content.evolves_step freshPeer 1
           (@Content.Received runtime (@SyncState runtime initialState)) queuedPeer).
  - apply queuedPeer_evolves.
  - by vm_compute.
Qed.

Lemma onDisconnect_removes_by_name_witness :
  Background.heap twoTabs !! 0 = Some (greeted tabA) /\
  Background.connections (Background.onDisconnect 0 twoTabs).2 = [1] /\
  Background.heap (hub noSettings [unnamedTab; tabA; nullTab; unnamedTab]) !! 0
  = Some unnamedTab /\
  Background.connections
    (Background.onDisconnect 0 (hub noSettings [unnamedTab; tabA; nullTab; unnamedTab])).2
  = [1; 2] /\
  Background.heap (hub noSettings [nanTab; tabA]) !! 0 = Some nanTab /\
  (Background.onDisconnect 0 (hub noSettings [nanTab; tabA])).2
  = hub noSettings [nanTab; tabA].
Proof.
  split; [reflexivity|]. split.
  { rewrite (proj1 (onDisconnect_removes_by_name 0 (greeted tabA) twoTabs eq_refl)).
    reflexivity. }
  split; [reflexivity|]. split.
  { rewrite (proj1 (onDisconnect_removes_by_name 0 unnamedTab
                      (hub noSettings [unnamedTab; tabA; nullTab; unnamedTab]) eq_refl)).
    reflexivity. }
  split; [reflexivity|].
  exact (proj2 (proj2 (proj2 (onDisconnect_removes_by_name 0 nanTab
                                (hub noSettings [nanTab; tabA]) eq_refl))) eq_refl).
Defined.

Lemma relay_after_disconnect_witness :
  Background.heap twoTabs !! 0 = Some (greeted tabA) /\
  Background.heap
    (Background.hookMutation inc (Background.onDisconnect 0 twoTabs).2).2 !! 0
    = Some (greeted tabA) /\
  Background.heap
    (Background.hookAction inc (Background.onDisconnect 0 twoTabs).2).2 !! 0
    = Some (greeted tabA).
Proof.
  split; [reflexivity|].
  exact (relay_after_disconnect 0 (greeted tabA) inc twoTabs eq_refl).
Defined.

Lemma hub_commit_is_relayed_to_every_peer_witness :
  Background.reachable twoTabs /\
  ("inc" ∉ ignoredMutations (Background.settings twoTabs)) /\
  exists b',
    Background.commit "inc" JNull twoTabs = (Returned tt, b') /\
    Background.heap b' !! 0 = Some (Background.posted (SyncMutation inc) (greeted tabA)) /\
    Background.heap b' !! 1 = Some (Background.posted (SyncMutation inc) (greeted tabB)).
Proof.
  pose proof (twoTabs_reachable noSettings) as Hreach.
  assert ("inc" ∉ ignoredMutations (Background.settings twoTabs)) as Hig
    by apply not_elem_of_nil.
  split; [exact Hreach|]. split; [exact Hig|].
  destruct (hub_commit_is_relayed_to_every_peer (RT:=runtime) "inc" JNull twoTabs Hreach Hig)
    as (b' & Hrun & _ & _ & _ & Hsent & _).
  exists b'. split; [exact Hrun|]. split.
  - apply (Hsent 0 (greeted tabA)); [compute_done|reflexivity|reflexivity].
  - apply (Hsent 1 (greeted tabB)); [compute_done|reflexivity|reflexivity].
Defined.

Lemma persisted_states_are_restored_and_pushed_witness :
  Background.onPersistentStates (Some savedCounter) twoTabs = (Returned tt, twoTabs) /\
  persistentStates (Background.settings (connectTwoTabs persisting)) <> [] /\
  Background.reachable (connectTwoTabs persisting) /\
  (vweReplaceState ∉ ignoredMutations (Background.settings (connectTwoTabs persisting))) /\
  exists b',
    Background.onPersistentStates (Some savedCounter) (connectTwoTabs persisting)
    = (Returned tt, b') /\
    state (Background.store b') = JObj [("counter", JNum 7)] /\
    Background.savedStates b' = [JObj [("counter", JNum 7)]].
Proof.
  pose proof (twoTabs_reachable persisting) as Hreach.
  assert (persistentStates (Background.settings (connectTwoTabs persisting)) <> [])
    as Hne by done.
  assert (vweReplaceState
            ∉ ignoredMutations (Background.settings (connectTwoTabs persisting)))
    as Hig by apply not_elem_of_nil.
  split.
  { apply (proj1 (persisted_states_are_restored_and_pushed (RT:=runtime) (Some savedCounter) twoTabs)).
    by left. }
  split; [exact Hne|]. split; [exact Hreach|]. split; [exact Hig|].
  destruct (proj2 (persisted_states_are_restored_and_pushed (RT:=runtime)
                     (Some savedCounter) (connectTwoTabs persisting))
              savedCounter eq_refl Hne Hreach Hig)
    as (b' & Hrun & Hst & _ & Hsaved & _).
  exists b'. split; [exact Hrun|]. split; [exact Hst|exact Hsaved].
Defined.

Lemma hub_action_round_witness :
  Background.reachable twoTabs /\
  Background.actionsHooked (Background.settings twoTabs) = true /\
  0 ∈ Background.connections twoTabs /\
  Background.heap twoTabs !! 0 = Some (greeted tabA) /\
  Background.skipped (greeted tabA) = false /\
  (type bump ∉ ignoredActions (Background.settings twoTabs)) /\
  exists b',
    Background.onMessage 0 (SyncAction bump) twoTabs = (Returned tt, b') /\
    commits (Background.store b') = [("inc", JNull)] /\
    Background.heap b' !! 0
      = Some (Background.posted (SyncMutation inc) (greeted tabA)) /\
    Background.heap b' !! 1
      = Some (Background.posted (SyncMutation inc)
                (Background.posted (SyncAction bump) (greeted tabB))).
Proof.
  pose proof (twoTabs_reachable noSettings) as Hreach.
  assert (0 ∈ Background.connections twoTabs) as H0 by compute_done.
  assert (type bump ∉ ignoredActions (Background.settings twoTabs)) as Hig
    by apply not_elem_of_nil.
  split; [exact Hreach|]. split; [reflexivity|]. split; [exact H0|].
  split; [reflexivity|]. split; [reflexivity|]. split; [exact Hig|].
  destruct (proj2 (hub_action_round twoTabs 0 (greeted tabA) bump
                     Hreach eq_refl H0 eq_refl eq_refl Hig)
              (fun _ _ => [("inc", JNull)]) eq_refl)
    as (b' & Hrun & _ & Hcommits & HA & Hothers).
  exists b'. split; [exact Hrun|]. split; [exact Hcommits|]. split; [exact HA|].
  apply (Hothers 1 (greeted tabB)); [lia|compute_done|reflexivity|reflexivity].
Defined.

Lemma peer_never_undoes_witness :
  Content.evolves freshPeer replayedPeer /\
  Content.settings replayedPeer = Content.settings freshPeer /\
  Content.scriptId replayedPeer = Content.scriptId freshPeer /\
  Content.pendingActions freshPeer `prefix_of` Content.pendingActions replayedPeer.
Proof.
  split; [exact replayedPeer_evolves|].
  destruct (peer_never_undoes freshPeer replayedPeer replayedPeer_evolves)
    as (Hs & Hid & _ & Hpa & _).
  split; [exact Hs|]. split; [exact Hid|exact Hpa].
Defined.

Lemma nothing_leaves_an_uninitialized_peer_witness :
  Content.evolves (Content.new emptyStore noSettings "k3j9x0q2a" openPort) queuedPeer /\
  Content.initialized queuedPeer = false /\
  outbox (Content.connection queuedPeer) = outbox openPort /\
  Content.receivedMutations queuedPeer = [] /\
  Content.receivedActions queuedPeer = [].
Proof.
  split; [exact queuedPeer_evolves|]. split; [reflexivity|].
  destruct (nothing_leaves_an_uninitialized_peer
              emptyStore noSettings "k3j9x0q2a" openPort queuedPeer
              queuedPeer_evolves eq_refl) as (Hout & Hrm & Hra & _).
  split; [exact Hout|]. split; [exact Hrm|exact Hra].
Defined.

Lemma draining_before_initialization_never_ends_witness :
  Content.initialized cutOffPeer = false /\
  Content.pendingMutations cutOffPeer <> [] /\
  Forall (fun m => Content.stuckType (Content.settings cutOffPeer) (type m) = false)
    (Content.pendingMutations cutOffPeer) /\
  (Content.processPendingMutations 3 cutOffPeer).1 = OutOfFuel.
Proof.
  assert (Content.pendingMutations cutOffPeer <> []) as Hne by done.
  assert (Forall (fun m => Content.stuckType (Content.settings cutOffPeer) (type m) = false)
            (Content.pendingMutations cutOffPeer)) as Hall.
  { apply Forall_cons. split; [reflexivity|apply Forall_nil_2]. }
  split; [reflexivity|]. split; [exact Hne|]. split; [exact Hall|].
  exact (draining_before_initialization_never_ends 3 cutOffPeer eq_refl Hne Hall).
Defined.

Lemma peer_commits_received_mutation_without_echo_witness :
  Content.initialized (syncedPeer closedPort [] []) = true /\
  type inc <> vweReplaceState /\
  (type inc ∉ ignoredMutations (Content.settings (syncedPeer closedPort [] []))) /\
  exists p',
    Content.onMessage 0 (SyncMutation inc) (syncedPeer closedPort [] [])
    = (Returned tt, p') /\
    Content.connection p' = closedPort /\
    commits (Content.store p') = [("inc", JNull)] /\
    Content.receivedMutations p' = [].
Proof.
  assert (type inc <> vweReplaceState) as Hr by done.
  assert (type inc ∉ ignoredMutations (Content.settings (syncedPeer closedPort [] [])))
    as Hig by apply not_elem_of_nil.
  split; [reflexivity|]. split; [exact Hr|]. split; [exact Hig|].
  destruct (peer_commits_received_mutation_without_echo
              0 inc (syncedPeer closedPort [] []) eq_refl Hr Hig)
    as (p' & Hrun & Hco & Hcommits & _ & _ & _ & Hrm).
  exists p'. split; [exact Hrun|]. split; [exact Hco|]. split; [exact Hcommits|].
  apply Hrm. intros e He. by apply elem_of_nil in He.
Defined.

Lemma reserved_record_stays_witness :
  Content.initialized (syncedPeer openPort [] []) = true /\
  Content.evolves
    (Content.onMessage 0
       (SyncMutation {| type := vweReplaceState; payload := initialState |})
       (syncedPeer openPort [] [])).2
    (Content.handle 0 (@Content.Committed runtime "inc" JNull)
       (Content.onMessage 0
          (SyncMutation {| type := vweReplaceState; payload := initialState |})
          (syncedPeer openPort [] [])).2).2 /\
  {| type := vweReplaceState; payload := initialState |}
    ∈ Content.receivedMutations
        (Content.handle 0 (@Content.Committed runtime "inc" JNull)
           (Content.onMessage 0
              (SyncMutation {| type := vweReplaceState; payload := initialState |})
              (syncedPeer openPort [] [])).2).2.
Proof.
  assert (Content.evolves
            (Content.onMessage 0
               (SyncMutation {| type := vweReplaceState; payload := initialState |})
               (syncedPeer openPort [] [])).2
            (Content.handle 0 (@Content.Committed runtime "inc" JNull)
               (Content.onMessage 0
                  (SyncMutation {| type := vweReplaceState; payload := initialState |})
                  (syncedPeer openPort [] [])).2).2) as Hev.
  { apply Content.evolves_step; [apply Content.evolves_refl|by vm_compute]. }
  split; [reflexivity|]. split; [exact Hev|].
  exact (proj2 (proj2 (reserved_record_stays (RT:=runtime) 0 initialState (syncedPeer openPort [] []) _
                         eq_refl Hev))).
Defined.

Lemma peer_action_echo_depends_on_dispatch_style_witness :
  Content.initialized (syncedPeer openPort [] []) = true /\
  Content.actionsHooked (Content.settings (syncedPeer openPort [] [])) = true /\
  (type open1 ∉ ignoredActions (Content.settings (syncedPeer openPort [] []))) /\
  instanceofEvent (objectStylePayload (type open1) (payload open1)) = false /\
  JSON_stringify (objectStylePayload (type open1) (payload open1))
    <> JSON_stringify (payload open1) /\
  Content.onMessage 0 (SyncAction open1) (syncedPeer openPort [] [])
  = (Returned tt,
     Content.set_connection
       {| disconnected := false;
          outbox := [SyncAction (dispatchedAction (DispatchObject open1))] |}
       (Content.set_store (Store_recordDispatch (DispatchObject open1))
          (Content.set_receivedActions (fun l => l ++ [open1])
             (syncedPeer openPort [] [])))) /\
  Content.onMessage 0 (SyncAction stray) (syncedPeer openPort [] [])
  = (Returned tt,
     Content.set_store (Store_recordDispatch (DispatchObject stray))
       (Content.set_receivedActions (fun l => l ++ [stray])
          (syncedPeer openPort [] []))).
Proof.
  assert (type open1 ∉ ignoredActions (Content.settings (syncedPeer openPort [] [])))
    as Hig by apply not_elem_of_nil.
  assert (JSON_stringify (objectStylePayload (type open1) (payload open1))
          <> JSON_stringify (payload open1)) as Hne
    by (intros H; vm_compute in H; discriminate).
  assert (forall r (e : ChangeRecord), e ∈ [] ->
            sameTypeAndPayload (dispatchedAction (DispatchObject r)) e = false) as Hno
    by (intros r e He; by apply elem_of_nil in He).
  split; [reflexivity|]. split; [reflexivity|]. split; [exact Hig|].
  split; [reflexivity|]. split; [exact Hne|]. split.
  - rewrite (proj2 (proj2 (peer_action_echo_depends_on_dispatch_style 0 open1
                             (syncedPeer openPort [] [])
                             eq_refl eq_refl Hig eq_refl (Hno open1))
                      (fun _ _ => []) eq_refl) Hne).
    reflexivity.
  - apply (proj1 (peer_action_echo_depends_on_dispatch_style 0 stray
                    (syncedPeer openPort [] [])
                    eq_refl eq_refl (not_elem_of_nil _) eq_refl (Hno stray))).
    reflexivity.
Defined.

Lemma peer_posts_only_relayed_types_witness :
  Content.evolves freshPeer replayedPeer /\
  exists extra,
    outbox (Content.connection replayedPeer)
    = outbox (Content.connection freshPeer) ++ extra /\
    Forall (fun msg =>
              match msg with
              | SyncMutation m =>
                  type m <> vweReplaceState /\
                  type m ∉ ignoredMutations (Content.settings freshPeer)
              | SyncAction a =>
                  syncActions (Content.settings freshPeer) = true /\
                  type a ∉ ignoredActions (Content.settings freshPeer)
              | _ => False
              end) extra.
Proof.
  split; [exact replayedPeer_evolves|].
  exact (peer_posts_only_relayed_types freshPeer replayedPeer replayedPeer_evolves).
Defined.

Lemma peer_never_posts_an_event_payload_witness :
  instanceofEvent JEvent = true /\
  Content.evolves (syncedPeer openPort [] [])
    (Content.handle 0 (Content.Dispatched (DispatchTypePayload "open" JEvent))
       (syncedPeer openPort [] [])).2 /\
  outbox (Content.connection
            (Content.handle 0 (Content.Dispatched (DispatchTypePayload "open" JEvent))
               (syncedPeer openPort [] [])).2)
    = [SyncAction {| type := "open"; payload := JNull |}] /\
  exists extra,
    outbox (Content.connection
              (Content.handle 0 (Content.Dispatched (DispatchTypePayload "open" JEvent))
                 (syncedPeer openPort [] [])).2)
    = outbox (Content.connection (syncedPeer openPort [] [])) ++ extra /\
    forall a, SyncAction a ∈ extra ->
      instanceofEvent (payload a) = false \/ payload a = null.
Proof.
  assert (Content.evolves (syncedPeer openPort [] [])
            (Content.handle 0 (Content.Dispatched (DispatchTypePayload "open" JEvent))
               (syncedPeer openPort [] [])).2) as Hev.
  { apply Content.evolves_step; [apply Content.evolves_refl|by vm_compute]. }
  split; [reflexivity|]. split; [exact Hev|]. split; [reflexivity|].
  exact (peer_never_posts_an_event_payload _ _ Hev).
Defined.

Lemma hub_posts_only_relayed_types_witness :
  Background.heap twoTabs !! 1 = Some (greeted tabB) /\
  exists D' extra,
    Background.heap
      (Background.handle (Background.Received 0 (SyncMutation inc)) twoTabs).2 !! 1
    = Some D' /\
    outbox (Background.port D') = outbox (Background.port (greeted tabB)) ++ extra /\
    Forall (fun msg =>
              match msg with
              | SyncState _ => True
              | SyncMutation m => type m ∉ ignoredMutations (Background.settings twoTabs)
              | SyncAction a =>
                  syncActions (Background.settings twoTabs) = true /\
                  type a ∉ ignoredActions (Background.settings twoTabs)
              | _ => False
              end) extra.
Proof.
  split; [reflexivity|].
  exact (hub_posts_only_relayed_types
           (Background.Received 0 (SyncMutation inc)) twoTabs 1 (greeted tabB) eq_refl).
Defined.

Lemma peer_is_skipped_iff_its_connectionName_is_unmarked_witness :
  String.length "k3j9x0q2a" <= 9 /\
  Background.name renamedTab
  = Background.NameString (Content.connectionNameOf renamed "k3j9x0q2a") /\
  Background.skipped renamedTab
  = negb (includes "vuex-webextensions" (connectionName renamed)).
Proof.
  assert (String.length "k3j9x0q2a" <= 9) as Hid by (simpl; lia).
  split; [exact Hid|]. split; [reflexivity|].
  exact (peer_is_skipped_iff_its_connectionName_is_unmarked
           renamed "k3j9x0q2a" renamedTab Hid eq_refl).
Defined.

Lemma mutation_propagates_and_is_not_echoed_witness :
  Background.reachable twoTabs /\
  Background.heap twoTabs !! 0 = Some (greeted tabA) /\
  Background.heap twoTabs !! 1 = Some (greeted tabB) /\
  exists sender' b' D' receiver',
    Content.commit "inc" JNull (syncedPeer openPort [] []) = (Returned tt, sender') /\
    outbox (Content.connection sender')
    = outbox (Content.connection (syncedPeer openPort [] []))
      ++ [SyncMutation {| type := "inc"; payload := JNull |}] /\
    Background.onMessage 0 (SyncMutation {| type := "inc"; payload := JNull |}) twoTabs
    = (Returned tt, b') /\
    Background.heap b' !! 0 = Some (greeted tabA) /\
    Background.heap b' !! 1 = Some D' /\
    outbox (Background.port D')
    = outbox (Background.port (greeted tabB))
      ++ [SyncMutation {| type := "inc"; payload := JNull |}] /\
    Content.onMessage 0 (SyncMutation {| type := "inc"; payload := JNull |})
      (syncedPeer openPort [x1] [])
    = (Returned tt, receiver') /\
    Content.connection receiver' = Content.connection (syncedPeer openPort [x1] []) /\
    state (Content.store sender')
    = mutationHandler "inc" JNull (state (Content.store (syncedPeer openPort [] []))) /\
    state (Background.store b')
    = mutationHandler "inc" JNull (state (Background.store twoTabs)) /\
    state (Content.store receiver')
    = mutationHandler "inc" JNull (state (Content.store (syncedPeer openPort [x1] []))).
Proof.
  pose proof (twoTabs_reachable noSettings) as Hreach.
  split; [exact Hreach|]. split; [reflexivity|]. split; [reflexivity|].
  apply (mutation_propagates_and_is_not_echoed (RT:=runtime) 0 "inc" JNull
           (syncedPeer openPort [] []) (syncedPeer openPort [x1] []) twoTabs
           0 1 (greeted tabA) (greeted tabB));
    try reflexivity; try apply not_elem_of_nil; try compute_done; try done.
  intros e He. by apply elem_of_nil in He.
Defined.

Lemma pending_actions_would_be_dispatched_and_sent_witness :
  Content.initialized peerWithQueuedActions = true /\
  Content.actionsHooked (Content.settings peerWithQueuedActions) = true /\
  Content.receivedActions peerWithQueuedActions = [] /\
  disconnected (Content.connection peerWithQueuedActions) = false /\
  Content.pendingActions peerWithQueuedActions = [open1; bump; stray] /\
  length (Content.pendingActions peerWithQueuedActions) <= 3 /\
  exists p',
    Content.processPendingActions 3 peerWithQueuedActions = (Returned tt, p') /\
    Content.pendingActions p' = [] /\
    dispatches (Content.store p')
    = [DispatchTypePayload "open" (JNum 1); DispatchTypePayload "bump" JNull;
       DispatchTypePayload "stray" JNull] /\
    commits (Content.store p') = [("inc", JNull)] /\
    outbox (Content.connection p')
    = [SyncAction open1; SyncAction bump; SyncMutation inc].
Proof.
  assert (length (Content.pendingActions peerWithQueuedActions) <= 3) as Hlen
    by (simpl; lia).
  split; [reflexivity|]. split; [reflexivity|]. split; [reflexivity|].
  split; [reflexivity|]. split; [reflexivity|]. split; [exact Hlen|].
  destruct (pending_actions_would_be_dispatched_and_sent 3 peerWithQueuedActions
              eq_refl eq_refl eq_refl eq_refl)
    as (p' & extra & Hrun & Hpa & Hstore & _); [|exact Hlen|].
  { repeat (apply Forall_cons; split; [split; [apply not_elem_of_nil|reflexivity]|]).
    apply Forall_nil_2. }
  exists p'. split; [exact Hrun|]. split; [exact Hpa|].
  rewrite Hstore.
  split; [reflexivity|]. split; [reflexivity|].
  by injection Hrun as <-.
Defined.

End Instances.
